(** * Shakti dashboard: ranking, table and map-marker pipeline

    A shallow embedding of the two React components that carry the
    repository's logic, [MapComponent] (getUniqueConsumers, initializeMap,
    updateMarkers) and [ResultsDisplay] (the normal-entries filter and
    sort), together with the pieces of the JavaScript language they rely
    on: IEEE-754 binary64 numbers, the abstract operations [ToBoolean],
    [ToNumber], [ToString], the relational operator [>], [parseFloat],
    [Number.prototype.toFixed], ordinary objects with their prototype and
    their property order, and [Array.prototype.sort]. *)

From Stdlib Require Import ZArith List String Ascii Bool Lia.
From Stdlib Require Import SpecFloat DecimalString Permutation Sorted.
Import ListNotations.

Local Open Scope Z_scope.

(* ================================================================== *)
(** * JavaScript numbers *)
(* ================================================================== *)

(** A Number is an IEEE-754 binary64 value.  The standard library's
    [spec_float] is the reference semantics ([prec] = 53, [emax] = 1024);
    all arithmetic below is the correctly rounded arithmetic of
    [SpecFloat]. *)
Module Num.

Definition prec : Z := 53.
Definition emax : Z := 1024.

(** The result of an arithmetic operation. *)
Definition number : Type := spec_float.

(** The values a binary64 datum can take: canonical mantissa/exponent. *)
Definition valid (x : number) : Prop := valid_binary prec emax x = true.

(** A Number held by a JSON document: a [spec_float] that is a binary64
    value. *)
Record double : Type := Double {
  value : number;
  value_valid : valid value
}.

Definition NaN : number := S754_nan.
Definition zero : number := S754_zero false.
Definition hundred : number := S754_finite false 7036874417766400 (-46).   (* 100 *)

Definition mul (x y : number) : number := SFmul prec emax x y.
Definition sub (x y : number) : number := SFsub prec emax x y.

(** [x < y]; false as soon as one side is NaN. *)
Definition ltb (x y : number) : bool := SFltb x y.

(** [x == y] on two Numbers. *)
Definition eqb (x y : number) : bool := SFeqb x y.

Definition is_nan (x : number) : bool :=
  match x with S754_nan => true | _ => false end.

Definition is_finite (x : number) : bool :=
  match x with S754_zero _ | S754_finite _ _ _ => true | _ => false end.

(** ToBoolean on a Number: [+0], [-0] and [NaN] are falsy. *)
Definition truthy (x : number) : bool :=
  match x with
  | S754_zero _ | S754_nan => false
  | _ => true
  end.

(** Correctly rounded (nearest, ties to even) binary64 value of the
    integer [n]. *)
Definition of_Z (n : Z) : number := binary_normalize prec emax n 0 false.

(** Correctly rounded binary64 value of [(-1)^neg * m * 10^e], the
    mathematical value of a decimal literal.  For a negative exponent the
    quotient is computed with at least two bits more than the target
    precision and the remainder is handed to the rounding as its location. *)
Definition of_decimal (neg : bool) (m : N) (e : Z) : number :=
  match m with
  | N0 => S754_zero neg
  | Npos pm =>
      if 0 <=? e then
        binary_normalize prec emax
          (cond_Zopp neg (Zpos pm * 10 ^ e)) 0 false
      else
        let den := 10 ^ (- e) in
        let s := Z.max 0 (Z.log2 den - Z.log2 (Zpos pm) + prec + 3) in
        let s := Z.max s (prec + emax + 2) in
        let '(q, r) := Z.div_eucl (Z.shiftl (Zpos pm) s) den in
        binary_round_aux prec emax neg q (- s) (new_location den r)
  end.

(** The place of a Number in the order of the binary64 values: the
    integer read off its sign, exponent and mantissa.  On the valid
    values other than NaN, [ltb] and [eqb] are the comparisons of this
    rank ([ltb_ord], [eqb_ord] below). *)
Definition rank (m : positive) (e : Z) : Z := (e + 1074) * 2 ^ 52 + Zpos m.

Definition ord (x : number) : Z :=
  match x with
  | S754_zero _ => 0
  | S754_nan => 0
  | S754_infinity s => cond_Zopp s (2047 * 2 ^ 52)
  | S754_finite s m e => cond_Zopp s (rank m e)
  end.

(** A Number that is finite or infinite, of sign [s]. *)
Definition has_sign (s : bool) (x : number) : Prop :=
  match x with
  | S754_finite s' _ _ | S754_infinity s' => s' = s
  | _ => False
  end.

End Num.

Abbreviation number := Num.number.

(* ================================================================== *)
(** * JavaScript strings *)
(* ================================================================== *)

(** Strings are byte sequences holding UTF-8 text.  The operations the
    components use only inspect ASCII characters (and, when trimming,
    the UTF-8 encodings of the non-ASCII white space of the language). *)
Module Str.

Local Open Scope string_scope.

Definition chr (n : nat) : string := String (ascii_of_nat n) EmptyString.

Definition dquote : string := chr 34.
Definition newline : string := chr 10.

Fixpoint spaces (n : nat) : string :=
  match n with
  | O => EmptyString
  | S k => String (ascii_of_nat 32) (spaces k)
  end.

Definition lower_ascii (c : ascii) : ascii :=
  let n := nat_of_ascii c in
  if (Nat.leb 65 n && Nat.leb n 90)%bool then ascii_of_nat (n + 32) else c.

(** [String.prototype.toLowerCase], on the ASCII letters.  No other code
    point lower-cases to a letter of [theft], [critical] or [mild], so the
    comparisons made on the result are those of the language. *)
Fixpoint toLowerCase (s : string) : string :=
  match s with
  | EmptyString => EmptyString
  | String c r => String (lower_ascii c) (toLowerCase r)
  end.

(** ToBoolean on a String: only the empty string is falsy. *)
Definition truthy (s : string) : bool :=
  match s with EmptyString => false | _ => true end.

Definition is_digit (c : ascii) : bool :=
  let n := nat_of_ascii c in (Nat.leb 48 n && Nat.leb n 57)%bool.

Definition digit_val (c : ascii) : N := N.of_nat (nat_of_ascii c - 48).

(** Decimal digits at the head of [s]: their value, their count, the rest. *)
Fixpoint takeDigits (acc : N) (cnt : nat) (s : string) : N * nat * string :=
  match s with
  | String c r =>
      if is_digit c then takeDigits (10 * acc + digit_val c)%N (S cnt) r
      else (acc, cnt, s)
  | EmptyString => (acc, cnt, s)
  end.

Definition of_N (n : N) : string := NilZero.string_of_uint (N.to_uint n).

(** The number of bytes of white space (WhiteSpace or LineTerminator)
    at the head of [s]: 0 when [s] does not start with white space. *)
Definition ws_prefix (s : string) : nat :=
  match s with
  | String c r =>
      let n := nat_of_ascii c in
      if (Nat.leb 9 n && Nat.leb n 13)%bool || Nat.eqb n 32 then 1%nat
      else
        match r with
        | String c1 r1 =>
            let n1 := nat_of_ascii c1 in
            if Nat.eqb n 194 && Nat.eqb n1 160 then 2%nat        (* U+00A0 *)
            else
              match r1 with
              | String c2 _ =>
                  let n2 := nat_of_ascii c2 in
                  if (Nat.eqb n 239 && Nat.eqb n1 187 && Nat.eqb n2 191)      (* U+FEFF *)
                     || (Nat.eqb n 225 && Nat.eqb n1 154 && Nat.eqb n2 128)   (* U+1680 *)
                     || (Nat.eqb n 226 && Nat.eqb n1 128
                         && ((Nat.leb 128 n2 && Nat.leb n2 138)               (* U+2000-200A *)
                             || Nat.eqb n2 168 || Nat.eqb n2 169              (* U+2028, U+2029 *)
                             || Nat.eqb n2 175))                              (* U+202F *)
                     || (Nat.eqb n 226 && Nat.eqb n1 129 && Nat.eqb n2 159)   (* U+205F *)
                     || (Nat.eqb n 227 && Nat.eqb n1 128 && Nat.eqb n2 128)   (* U+3000 *)
                  then 3%nat else 0%nat
              | EmptyString => 0%nat
              end
        | EmptyString => 0%nat
        end
  | EmptyString => 0%nat
  end.

Fixpoint drop (n : nat) (s : string) : string :=
  match n, s with
  | S k, String _ r => drop k r
  | _, _ => s
  end.

(** Removal of leading white space; [fuel] bounds the number of white
    space characters, the length of the string is always enough. *)
Fixpoint trimStartFuel (fuel : nat) (s : string) : string :=
  match fuel with
  | O => s
  | S f =>
      match ws_prefix s with
      | O => s
      | k => trimStartFuel f (drop k s)
      end
  end.

Definition trimStart (s : string) : string := trimStartFuel (String.length s) s.

(** [prefix p s]: the rest of [s] after [p], when [s] starts with [p]. *)
Fixpoint stripPrefix (p s : string) : option string :=
  match p, s with
  | EmptyString, _ => Some s
  | String a p', String b s' => if Ascii.eqb a b then stripPrefix p' s' else None
  | String _ _, EmptyString => None
  end.

End Str.

(* ================================================================== *)
(** * Built-in functions of the language *)
(* ================================================================== *)

Module JS.

Local Open Scope string_scope.

(** ** parseFloat *)

(** The exponent part [e±ddd] of a decimal literal, when there is one. *)
Definition exponentPart (s : string) : Z :=
  match s with
  | String c r =>
      if Ascii.eqb c "e" || Ascii.eqb c "E" then
        let '(neg, r') :=
          match r with
          | String c' r'' =>
              if Ascii.eqb c' "-" then (true, r'')
              else if Ascii.eqb c' "+" then (false, r'')
              else (false, r)
          | EmptyString => (false, r)
          end in
        let '(v, cnt, _) := Str.takeDigits 0 0 r' in
        match cnt with
        | O => 0
        | _ => cond_Zopp neg (Z.of_N v)
        end
      else 0
  | EmptyString => 0
  end.

(** The longest prefix of [s] that is a StrUnsignedDecimalLiteral, as the
    Number it denotes; NaN when no prefix is one. *)
Definition parseUnsigned (neg : bool) (s : string) : number :=
  match Str.stripPrefix "Infinity" s with
  | Some _ => S754_infinity neg
  | None =>
      let '(ip, icnt, r1) := Str.takeDigits 0 0 s in
      match icnt, r1 with
      | O, String c r2 =>
          (* . DecimalDigits ExponentPart? *)
          if Ascii.eqb c "." then
            let '(fp, fcnt, r3) := Str.takeDigits 0 0 r2 in
            match fcnt with
            | O => Num.NaN
            | _ => Num.of_decimal neg fp (exponentPart r3 - Z.of_nat fcnt)
            end
          else Num.NaN
      | O, EmptyString => Num.NaN
      | _, String c r2 =>
          if Ascii.eqb c "." then
            (* DecimalDigits . DecimalDigits? ExponentPart? *)
            let '(m, fcnt, r3) := Str.takeDigits ip 0 r2 in
            Num.of_decimal neg m (exponentPart r3 - Z.of_nat fcnt)
          else
            (* DecimalDigits ExponentPart? *)
            Num.of_decimal neg ip (exponentPart r1)
      | _, EmptyString => Num.of_decimal neg ip 0
      end
  end.

(** [parseFloat] applied to a string. *)
Definition parseFloatString (s : string) : number :=
  match Str.trimStart s with
  | String c r =>
      if Ascii.eqb c "-" then parseUnsigned true r
      else if Ascii.eqb c "+" then parseUnsigned false r
      else parseUnsigned false (String c r)
  | EmptyString => Num.NaN
  end.

(** ** Number.prototype.toString for large values *)

Definition sf_eqb (x y : number) : bool :=
  match x, y with
  | S754_zero a, S754_zero b => Bool.eqb a b
  | S754_infinity a, S754_infinity b => Bool.eqb a b
  | S754_nan, S754_nan => true
  | S754_finite a m e, S754_finite b m' e' =>
      Bool.eqb a b && Pos.eqb m m' && Z.eqb e e'
  | _, _ => false
  end.

(** Number of decimal digits of a positive integer. *)
Definition decimalDigits (x : Z) : Z := Z.of_nat (String.length (Str.of_N (Z.to_N x))).

(** For the integer [x] = the exact value of the Number [v] (at least
    10^21): the shortest digit string [s] with [k] digits and the power
    [n] such that [s * 10^(n-k)] rounds to [v], the closest to [x] when
    two strings of [k] digits do.  [k] runs upwards from its initial
    value; with 17 digits one of the two neighbours of [x] always rounds
    to [v], so 16 steps from [k = 1] are enough. *)
Fixpoint shortestDigits (fuel : nat) (k : Z) (v : number) (x : Z) : Z * Z * Z :=
  let n := decimalDigits x in
  let p := 10 ^ (n - k) in
  let lo := x / p in
  let hi := lo + 1 in
  let ok_lo := sf_eqb (Num.of_Z (lo * p)) v in
  let ok_hi := sf_eqb (Num.of_Z (hi * p)) v in
  let digits (s : Z) :=
    if Z.eqb s (10 ^ k) then (10 ^ (k - 1), k, n + 1) else (s, k, n) in
  if ok_lo && ok_hi then
    match Z.compare (x - lo * p) (hi * p - x) with
    | Lt => digits lo
    | Gt => digits hi
    | Eq => if Z.even lo then digits lo else digits hi
    end
  else if ok_lo then digits lo
  else if ok_hi then digits hi
  else
    match fuel with
    | O => digits lo
    | S f => shortestDigits f (k + 1) v x
    end.

(** [Number::toString] of a finite positive Number that is at least
    10^21 (exponential notation, [d.ddde+n]). *)
Definition toStringLarge (v : number) (x : Z) : string :=
  let '(s, k, n) := shortestDigits 16 1 v x in
  let digits := Str.of_N (Z.to_N s) in
  match digits with
  | String d EmptyString => String d "e+" ++ Str.of_N (Z.to_N (n - 1))
  | String d r => String d "." ++ r ++ "e+" ++ Str.of_N (Z.to_N (n - 1))
  | EmptyString => EmptyString
  end.

(** ** Number.prototype.toFixed(0) *)

(** The integer [n] for which [n - m * 2^e] is as close to zero as
    possible, the larger one when there are two. *)
Definition roundHalfUp (m : positive) (e : Z) : Z :=
  if (0 <=? e)%Z then Zpos m * 2 ^ e
  else (2 * Zpos m + 2 ^ (- e)) / 2 ^ (- e + 1).

Definition toFixed0 (x : number) : string :=
  match x with
  | S754_nan => "NaN"
  | S754_infinity false => "Infinity"
  | S754_infinity true => "-Infinity"
  | S754_zero _ => "0"
  | S754_finite s m e =>
      let sign := if s then "-" else EmptyString in
      if ((0 <=? e) && (10 ^ 21 <=? Zpos m * 2 ^ e))%Z then
        sign ++ toStringLarge (S754_finite false m e) (Zpos m * 2 ^ e)
      else
        sign ++ Str.of_N (Z.to_N (roundHalfUp m e))
  end.

End JS.

(* ================================================================== *)
(** * Data model *)
(* ================================================================== *)

Local Open Scope string_scope.
Local Open Scope list_scope.

(** A coordinate as the backend sends it: absent, a number, or text. *)
Inductive Coord : Type :=
  | CAbsent
  | CNum (x : Num.double)
  | CStr (s : string).

(** One element of [data.results] / [data.anomalies], with the field
    types of the backend's JSON: identifiers and the class are strings,
    the score is a number, a coordinate is a number or text.  A field
    that is [None] ([CAbsent]) is a property the object does not have:
    reading it yields [undefined]. *)
Record ConsumerRecord : Type := {
  consumer_id : option string;
  transformer_id : option string;
  latitude : Coord;
  longitude : Coord;
  aggregate_risk_score : option Num.double;
  risk_class : option string
}.

Record Summary : Type := {
  grid_health_score : option Num.double;
  critical_cases : option Num.double;
  anomalies_detected : option Num.double;
  total_loss_calculated : option Num.double
}.

(** The [data] prop of both components. *)
Record AnalysisResult : Type := {
  summary : option Summary;
  anomalies : option (list ConsumerRecord);
  results : option (list ConsumerRecord)
}.

(** ** Abstract operations on field values *)

(** ToNumber of a score: [undefined] converts to NaN. *)
Definition ToNumber (v : option Num.double) : number :=
  match v with
  | Some x => Num.value x
  | None => Num.NaN
  end.

(** [a > b] on two scores: the comparison [b < a] of their ToNumber
    values, false when it is undefined (a NaN on either side). *)
Definition js_gt (a b : option Num.double) : bool :=
  Num.ltb (ToNumber b) (ToNumber a).

(** [v || 0] on a score. *)
Definition orZero (v : option Num.double) : number :=
  match v with
  | Some x => if Num.truthy (Num.value x) then Num.value x else Num.zero
  | None => Num.zero
  end.

(** ToString of a string-valued field, as used for a property key and
    inside a template literal. *)
Definition ToString (v : option string) : string :=
  match v with
  | Some s => s
  | None => "undefined"
  end.

(** [parseFloat(v)]: ToString, then the longest numeric prefix.  For a
    Number argument the result is the argument itself, because
    Number::toString round-trips every Number except [-0], printed as
    [0]. *)
Definition parseFloat (v : Coord) : number :=
  match v with
  | CAbsent => Num.NaN
  | CNum x =>
      match Num.value x with
      | S754_zero _ => Num.zero
      | y => y
      end
  | CStr s => JS.parseFloatString s
  end.

Definition isNaN (x : number) : bool := Num.is_nan x.

(* ================================================================== *)
(** * Ordinary objects used as dictionaries *)
(* ================================================================== *)

Module Obj.

(** The property names every ordinary object inherits from
    [Object.prototype]. *)
Definition prototypeNames : list string :=
  [ "constructor"; "hasOwnProperty"; "isPrototypeOf";
    "propertyIsEnumerable"; "toLocaleString"; "toString"; "valueOf";
    "__proto__"; "__defineGetter__"; "__defineSetter__";
    "__lookupGetter__"; "__lookupSetter__" ].

Definition inherited (k : string) : bool :=
  existsb (String.eqb k) prototypeNames.

(** What reading a property of the dictionary yields. *)
Inductive Value : Type :=
  | VUndefined
  | VRecord (r : ConsumerRecord)
  | VInherited.              (* a built-in function, or Object.prototype *)

(** ToBoolean: every object is truthy. *)
Definition truthy (v : Value) : bool :=
  match v with
  | VUndefined => false
  | _ => true
  end.

(** [v.aggregate_risk_score]; the built-ins have no such property. *)
Definition score (v : Value) : option Num.double :=
  match v with
  | VRecord r => aggregate_risk_score r
  | _ => None
  end.

(** Own properties, in creation order. *)
Definition t : Type := list (string * ConsumerRecord).

Definition empty : t := [].

Fixpoint lookupOwn (o : t) (k : string) : option ConsumerRecord :=
  match o with
  | [] => None
  | (k', r) :: o' => if String.eqb k k' then Some r else lookupOwn o' k
  end.

(** [o[k]]: the own property, else the inherited one. *)
Definition get (o : t) (k : string) : Value :=
  match lookupOwn o k with
  | Some r => VRecord r
  | None => if inherited k then VInherited else VUndefined
  end.

Fixpoint replace (o : t) (k : string) (v : ConsumerRecord) : t :=
  match o with
  | [] => []
  | (k', r) :: o' =>
      if String.eqb k k' then (k', v) :: o' else (k', r) :: replace o' k v
  end.

(** [o[k] = v]: an existing own property keeps its place, a new one is
    created last.  (Assigning to [__proto__] would instead replace the
    prototype; [dedupStep] never assigns to an inherited name.) *)
Definition set (o : t) (k : string) (v : ConsumerRecord) : t :=
  match lookupOwn o k with
  | Some _ => replace o k v
  | None => o ++ [(k, v)]
  end.

(** An array index: the canonical decimal form of an integer in
    [0, 2^32 - 2]. *)
Definition arrayIndex (k : string) : option N :=
  let '(v, cnt, rest) := Str.takeDigits 0 0 k in
  match rest with
  | EmptyString =>
      if String.eqb (Str.of_N v) k && (v <=? 4294967294)%N then Some v else None
  | _ => None
  end.

Definition isIndex (k : string) : bool :=
  match arrayIndex k with Some _ => true | None => false end.

Definition indexOf (k : string) : N :=
  match arrayIndex k with Some n => n | None => 0%N end.

Fixpoint insertByIndex (p : string * ConsumerRecord) (l : t) : t :=
  match l with
  | [] => [p]
  | q :: l' =>
      if (indexOf (fst p) <=? indexOf (fst q))%N then p :: l
      else q :: insertByIndex p l'
  end.

Definition sortByIndex (l : t) : t := fold_right insertByIndex [] l.

(** Own property keys in enumeration order: array indices in ascending
    numeric order, then the other names in creation order. *)
Definition ownEntries (o : t) : t :=
  sortByIndex (filter (fun p => isIndex (fst p)) o)
  ++ filter (fun p => negb (isIndex (fst p))) o.

(** [Object.values(o)]. *)
Definition values (o : t) : list ConsumerRecord := map snd (ownEntries o).

End Obj.

(* ================================================================== *)
(** * MapComponent: getUniqueConsumers *)
(* ================================================================== *)

(** The key under which an item is filed: [item.consumer_id] converted
    to a property key. *)
Definition propertyKey (item : ConsumerRecord) : string :=
  ToString (consumer_id item).

(** The body of the [forEach] callback. *)
Definition dedupStep (uniqueConsumers : Obj.t) (item : ConsumerRecord) : Obj.t :=
  let stored := Obj.get uniqueConsumers (propertyKey item) in
  if negb (Obj.truthy stored) then
    Obj.set uniqueConsumers (propertyKey item) item
  else if js_gt (aggregate_risk_score item) (Obj.score stored) then
    Obj.set uniqueConsumers (propertyKey item) item
  else uniqueConsumers.

Definition dedup (rs : list ConsumerRecord) : Obj.t :=
  fold_left dedupStep rs Obj.empty.

Definition getUniqueConsumers (data : option AnalysisResult) : list ConsumerRecord :=
  match data with
  | None => []
  | Some d =>
      match results d with
      | None => []
      | Some rs => Obj.values (dedup rs)
      end
  end.

(* ================================================================== *)
(** * ResultsDisplay *)
(* ================================================================== *)

(** ** Array.prototype.sort *)

(** The language fixes the result of [sort] for a consistent comparator:
    the stable sorted permutation.  It is modelled by a stable insertion
    sort driven by the sign of the comparator, a NaN result counting as
    [+0] (SortCompare). *)
Section Sort.

Context {A : Type}.
Variable comparefn : A -> A -> number.

(** [comparefn a b > 0]: [b] has to come before [a]. *)
Definition comesAfter (a b : A) : bool := Num.ltb Num.zero (comparefn a b).

Fixpoint insertSorted (x : A) (l : list A) : list A :=
  match l with
  | [] => [x]
  | y :: l' => if comesAfter x y then y :: insertSorted x l' else x :: l
  end.

Definition sort (l : list A) : list A := fold_right insertSorted [] l.

End Sort.

(** The comparator of line 38:
    [(a, b) => (b.aggregate_risk_score || 0) - (a.aggregate_risk_score || 0)]. *)
Definition byRiskDescending (a b : ConsumerRecord) : number :=
  Num.sub (orZero (aggregate_risk_score b)) (orZero (aggregate_risk_score a)).

(** [[...records].sort(byRiskDescending)]: the spec's
    [sortDescendingByRisk]. *)
Definition sortDescendingByRisk (records : list ConsumerRecord) : list ConsumerRecord :=
  sort byRiskDescending records.

(** [item.risk_class === 'normal']. *)
Definition isNormal (item : ConsumerRecord) : bool :=
  match risk_class item with
  | Some c => String.eqb c "normal"
  | None => false
  end.

Definition normalItems (d : AnalysisResult) : list ConsumerRecord :=
  match results d with
  | Some rs => filter isNormal rs
  | None => []
  end.

Definition sortedNormalItems (d : AnalysisResult) : list ConsumerRecord :=
  sortDescendingByRisk (normalItems d).

(** [(item.aggregate_risk_score || 0) * 100], a binary64 product. *)
Definition product (item : ConsumerRecord) : number :=
  Num.mul (orZero (aggregate_risk_score item)) Num.hundred.

(** [((item.aggregate_risk_score || 0) * 100).toFixed(0)]. *)
Definition percent (item : ConsumerRecord) : string :=
  JS.toFixed0 (product item).

(** One [<tr>] of either table.  A cell whose expression is [undefined]
    renders nothing ([None]). *)
Record Row : Type := {
  rowClassName : string;
  consumerCell : option string;
  transformerCell : option string;
  scoreCell : string;
  badgeClassName : string;
  badgeCell : option string
}.

Definition renderRow (item : ConsumerRecord) : Row :=
  {| rowClassName := ("risk-" ++ ToString (risk_class item))%string;
     consumerCell := consumer_id item;
     transformerCell := transformer_id item;
     scoreCell := (percent item ++ "%")%string;
     badgeClassName := ("badge " ++ ToString (risk_class item))%string;
     badgeCell := risk_class item |}.

(** What the component returns. *)
Record View : Type := {
  summaryCards : Summary;
  anomaliesTable : option (list Row);
  toggleLabel : string;
  normalTable : option (list Row)
}.

Inductive Rendered : Type :=
  | RenderedNull                    (* [return null] *)
  | RenderedThrow                   (* TypeError: [summary] is undefined *)
  | RenderedView (v : View).

(** [x && l.length > 0 && <table/>]. *)
Definition tableWhen (shown : bool) (items : list ConsumerRecord) : option (list Row) :=
  if shown then
    match items with
    | [] => None
    | _ => Some (map renderRow items)
    end
  else None.

Definition ResultsDisplay (data : option AnalysisResult) (showAll : bool) : Rendered :=
  match data with
  | None => RenderedNull
  | Some d =>
      let sorted := sortedNormalItems d in
      match summary d with
      | None => RenderedThrow
      | Some s =>
          RenderedView
            {| summaryCards := s;
               anomaliesTable :=
                 match anomalies d with
                 | Some a => tableWhen true a
                 | None => None
                 end;
               toggleLabel :=
                 if showAll then "Hide Normal Entries" else "Show All Entries";
               normalTable := tableWhen showAll sorted |}
      end
  end.

(** [React.useState(false)] and the button's [setShowAll(!showAll)]. *)
Definition initialShowAll : bool := false.
Definition toggleShowAll (showAll : bool) : bool := negb showAll.

Definition normalTableOf (r : Rendered) : option (list Row) :=
  match r with
  | RenderedView v => normalTable v
  | _ => None
  end.

(* ================================================================== *)
(** * MapComponent: the map surface and its markers *)
(* ================================================================== *)

Definition red : string := "#ef4444".
Definition yellow : string := "#eab308".

(** The numeric literals [0.8], [2] and [8] of the marker symbol. *)
Definition literal_0_8 : number := Eval vm_compute in Num.of_decimal false 8 (-1).
Definition literal_2 : number := Eval vm_compute in Num.of_Z 2.
Definition literal_8 : number := Eval vm_compute in Num.of_Z 8.

Record SvgMarker : Type := {
  fillColor : string;
  fillOpacity : number;
  strokeWeight : number;
  strokeColor : string;
  scale : number
}.

(** A map surface built by [new google.maps.Map(host, options)]: the
    host element and the rank of the construction. *)
Record Surface : Type := {
  host : nat;
  serial : nat
}.

(** A marker with the info window opened by its click listener. *)
Record Marker : Type := {
  position : number * number;
  map : option Surface;
  icon : SvgMarker;
  title : string;
  popupContent : string
}.

Definition popup (item : ConsumerRecord) : string :=
  (Str.newline ++ Str.spaces 20
   ++ "<div style=" ++ Str.dquote ++ "color: black; padding: 5px;" ++ Str.dquote ++ ">"
   ++ Str.newline ++ Str.spaces 24
   ++ "<strong>ID: " ++ ToString (consumer_id item) ++ "</strong><br/>"
   ++ Str.newline ++ Str.spaces 24
   ++ "Risk: " ++ percent item ++ "%"
   ++ Str.newline ++ Str.spaces 20
   ++ "</div>"
   ++ Str.newline ++ Str.spaces 16)%string.

(** [item.risk_class || '']. *)
Definition orEmpty (v : option string) : string :=
  match v with
  | Some s => s
  | None => EmptyString
  end.

(** The body of the [forEach] callback of [updateMarkers]: [None] is an
    early [return], [Some m] the marker pushed on [markersRef]. *)
Definition markerFor (surface : Surface) (item : ConsumerRecord) : option Marker :=
  let lat := parseFloat (latitude item) in
  let lng := parseFloat (longitude item) in
  if isNaN lat || isNaN lng then None
  else
    let risk := Str.toLowerCase (orEmpty (risk_class item)) in
    if negb (String.eqb risk "theft") && negb (String.eqb risk "critical")
       && negb (String.eqb risk "mild")
    then None
    else
      let color := if String.eqb risk "mild" then yellow else red in
      Some {| position := (lat, lng);
              map := Some surface;
              icon := {| fillColor := color;
                         fillOpacity := literal_0_8;
                         strokeWeight := literal_2;
                         strokeColor := "white";
                         scale := literal_8 |};
              title := ("Consumer: " ++ ToString (consumer_id item)
                        ++ " (" ++ ToString (risk_class item) ++ ")")%string;
              popupContent := popup item |}.

Fixpoint renderPass (surface : Surface) (consumers : list ConsumerRecord) : list Marker :=
  match consumers with
  | [] => []
  | item :: rest =>
      match markerFor surface item with
      | Some m => m :: renderPass surface rest
      | None => renderPass surface rest
      end
  end.

(** The refs and state of one mounted component, with what it has done
    to the map library so far. *)
Record State : Type := {
  mapRef : option nat;               (* the host [<div>], once mounted *)
  googleMapRef : option Surface;
  markersRef : list Marker;
  error : option string;
  constructed : nat;                 (* map surfaces constructed so far *)
  detached : list Marker             (* markers given [setMap(null)] *)
}.

Definition initialState : State :=
  {| mapRef := None; googleMapRef := None; markersRef := [];
     error := None; constructed := 0; detached := [] |}.

(** [marker.setMap(null)]. *)
Definition setMapNull (m : Marker) : Marker :=
  {| position := position m; map := None; icon := icon m;
     title := title m; popupContent := popupContent m |}.

Definition updateMarkers (data : option AnalysisResult) (st : State) : State :=
  match googleMapRef st with
  | None => st
  | Some surface =>
      {| mapRef := mapRef st;
         googleMapRef := googleMapRef st;
         markersRef := renderPass surface (getUniqueConsumers data);
         error := error st;
         constructed := constructed st;
         detached := detached st ++ List.map setMapNull (markersRef st) |}
  end.

(** The effect run when [data] changes:
    [if (googleMapRef.current) updateMarkers()]. *)
Definition onDataChange (data : option AnalysisResult) (st : State) : State :=
  match googleMapRef st with
  | Some _ => updateMarkers data st
  | None => st
  end.

(** The cleanup of the mount effect: every marker is detached.  The
    markers stay in [markersRef]; it is those objects that [setMap(null)]
    changes. *)
Definition cleanup (st : State) : State :=
  {| mapRef := mapRef st;
     googleMapRef := googleMapRef st;
     markersRef := List.map setMapNull (markersRef st);
     error := error st;
     constructed := constructed st;
     detached := detached st ++ List.map setMapNull (markersRef st) |}.

(** The map library as the component sees it: whether constructing a
    surface on a given host element throws. *)
Record MapsLibrary : Type := {
  mapConstructorThrows : nat -> bool
}.

Definition initializeMap (google : MapsLibrary) (data : option AnalysisResult)
    (st : State) : State :=
  match mapRef st with
  | None => st
  | Some element =>
      match googleMapRef st with
      | Some _ => st                                  (* Already initialized *)
      | None =>
          if mapConstructorThrows google element then
            {| mapRef := mapRef st;
               googleMapRef := None;
               markersRef := markersRef st;
               error := Some "Google Maps API loaded but initialization failed.";
               constructed := constructed st;
               detached := detached st |}
          else
            updateMarkers data
              {| mapRef := mapRef st;
                 googleMapRef := Some {| host := element; serial := constructed st |};
                 markersRef := markersRef st;
                 error := error st;
                 constructed := S (constructed st);
                 detached := detached st |}
      end
  end.

(** One run of [checkForGoogleMaps]: [window.google] is [None] while the
    script is not injected.  The boolean tells whether a re-check was
    scheduled 500 ms later. *)
Definition checkForGoogleMaps (google : option MapsLibrary)
    (data : option AnalysisResult) (st : State) : State * bool :=
  match google with
  | Some lib => (initializeMap lib data st, false)
  | None => (st, true)
  end.

(** ** The component over time *)

(** React stores the host [<div>] in [mapRef] before the effects of the
    first render run, and clears the ref when the component unmounts. *)
Definition attach (element : nat) : State :=
  {| mapRef := Some element; googleMapRef := None; markersRef := [];
     error := None; constructed := 0; detached := [] |}.

Definition detachRef (st : State) : State :=
  {| mapRef := None;
     googleMapRef := googleMapRef st;
     markersRef := markersRef st;
     error := error st;
     constructed := constructed st;
     detached := detached st |}.

(** A component from its mount on: the refs and state above, whether a
    re-check of [window.google] is scheduled, and the [data] of the first
    render.  The mount effect has an empty dependency list, so
    [checkForGoogleMaps] and the [initializeMap] and [updateMarkers] it
    reaches are the closures of the first render and read that [data]. *)
Record Component : Type := {
  refs : State;
  timer : bool;
  mountData : option AnalysisResult
}.

(** The effects of the first render, in their order in the source: the
    mount effect calls [checkForGoogleMaps], then the [data] effect
    runs. *)
Definition mount (element : nat) (google : option MapsLibrary)
    (data : option AnalysisResult) : Component :=
  let '(st, again) := checkForGoogleMaps google data (attach element) in
  {| refs := onDataChange data st; timer := again; mountData := data |}.

(** The timeout set by [setTimeout(checkForGoogleMaps, 500)] fires. *)
Definition tick (google : option MapsLibrary) (c : Component) : Component :=
  if timer c then
    let '(st, again) := checkForGoogleMaps google (mountData c) (refs c) in
    {| refs := st; timer := again; mountData := mountData c |}
  else c.

(** A render with a new [data] prop: the [data] effect runs. *)
Definition dataChange (data : option AnalysisResult) (c : Component) : Component :=
  {| refs := onDataChange data (refs c);
     timer := timer c;
     mountData := mountData c |}.

(** The component unmounts: the cleanup runs and the ref is cleared.  No
    [clearTimeout] is called, a scheduled re-check stays scheduled. *)
Definition unmount (c : Component) : Component :=
  {| refs := detachRef (cleanup (refs c));
     timer := timer c;
     mountData := mountData c |}.

Inductive Event : Type :=
  | Tick (google : option MapsLibrary)
  | DataChange (data : option AnalysisResult)
  | Unmount.

Definition step (c : Component) (e : Event) : Component :=
  match e with
  | Tick google => tick google c
  | DataChange data => dataChange data c
  | Unmount => unmount c
  end.

Definition run (c : Component) (events : list Event) : Component :=
  fold_left step events c.

(* ================================================================== *)
(** * App *)
(* ================================================================== *)

Module App.

(** A [File] chosen by the user. *)
Inductive File : Type := FileHandle (n : nat).

(** The [files] state, an object from dataset ids to what the upload
    block handed over: a [File], or a falsy value ([None]). *)
Definition Files : Type := list (string * option File).

(** [files[id]], [undefined] and [null] being both falsy. *)
Fixpoint read (files : Files) (id : string) : option File :=
  match files with
  | [] => None
  | (k, v) :: rest => if String.eqb k id then v else read rest id
  end.

(** [{...prev, [id]: file}]. *)
Fixpoint assign (prev : Files) (id : string) (file : option File) : Files :=
  match prev with
  | [] => [(id, file)]
  | (k, v) :: rest =>
      if String.eqb k id then (k, file) :: rest
      else (k, v) :: assign rest id file
  end.

(** The state of the component, with what it has shown in [alert] boxes
    and the files it has posted to the analysis endpoint. *)
Record State : Type := {
  files : Files;
  loading : bool;
  result : option AnalysisResult;
  alerts : list string;
  requests : list File
}.

Definition initial : State :=
  {| files := []; loading := false; result := None; alerts := []; requests := [] |}.

(** A parsed response body other than [null].  Of an object the handler
    and [ResultsDisplay] read [status], [data] and the [summary],
    [anomalies] and [results] properties; of a primitive only whether it
    is truthy. *)
Inductive Json : Type :=
  | JPrimitive (truthy : bool)
  | JObject (status : option string) (data : option AnalysisResult)
            (own : AnalysisResult).

(** How the request ends. *)
Inductive Outcome : Type :=
  | Rejected (message : string)   (* [fetch], [text()] or [json()] rejects,
                                     or the body is [null] and [data.status] throws *)
  | NotOk (errorText : string)    (* [response.ok] is false *)
  | Parsed (body : Json).

Definition handleFileUpload (id : string) (file : option File) (st : State) : State :=
  {| files := assign (files st) id file;
     loading := loading st;
     result := None;
     alerts := alerts st;
     requests := requests st |}.

(** [handleFetch] up to its first [await]: the file posted, if any. *)
Definition handleFetch_start (st : State) : State * option File :=
  match read (files st) "source" with
  | None =>
      ({| files := files st;
          loading := false;
          result := None;
          alerts := alerts st ++ ["Please upload the source dataset."];
          requests := requests st |}, None)
  | Some sourceFile =>
      ({| files := files st;
          loading := true;
          result := None;
          alerts := alerts st;
          requests := requests st ++ [sourceFile] |}, Some sourceFile)
  end.

(** The value given to [setResult] for a parsed body. *)
Definition resultOf (body : Json) : option AnalysisResult :=
  match body with
  | JPrimitive false => None
  | JPrimitive true => Some {| summary := None; anomalies := None; results := None |}
  | JObject status data own =>
      match status with
      | Some s => if String.eqb s "success" then data else Some own
      | None => Some own
      end
  end.

(** [handleFetch] from the answer on, [catch] and [finally] included. *)
Definition handleFetch_finish (outcome : Outcome) (st : State) : State :=
  match outcome with
  | Rejected message =>
      {| files := files st; loading := false; result := result st;
         alerts := alerts st ++ [("Error: " ++ message)%string];
         requests := requests st |}
  | NotOk errorText =>
      {| files := files st; loading := false; result := result st;
         alerts := alerts st ++ [("Error: Server error: " ++ errorText)%string];
         requests := requests st |}
  | Parsed body =>
      {| files := files st; loading := false; result := resultOf body;
         alerts := alerts st;
         requests := requests st |}
  end.

(** A whole call of [handleFetch] that nothing interleaves with. *)
Definition handleFetch (outcome : Outcome) (st : State) : State :=
  match handleFetch_start st with
  | (st', Some _) => handleFetch_finish outcome st'
  | (st', None) => st'
  end.

(** A click on [FetchButton], which is [disabled] while [loading]. *)
Definition click (st : State) : State * option File :=
  if loading st then (st, None) else handleFetch_start st.

(** What the user does or the network answers. *)
Inductive Event : Type :=
  | Upload (id : string) (file : option File)
  | Click
  | Answer (outcome : Outcome).

(** The component with the number of requests awaiting their answer. *)
Record Session : Type := {
  state : State;
  pending : nat
}.

Definition step (s : Session) (e : Event) : Session :=
  match e with
  | Upload id file =>
      {| state := handleFileUpload id file (state s); pending := pending s |}
  | Click =>
      match click (state s) with
      | (st, Some _) => {| state := st; pending := S (pending s) |}
      | (st, None) => {| state := st; pending := pending s |}
      end
  | Answer outcome =>
      match pending s with
      | O => s
      | S n => {| state := handleFetch_finish outcome (state s); pending := n |}
      end
  end.

Definition run (s : Session) (events : list Event) : Session :=
  fold_left step events s.

Definition start : Session := {| state := initial; pending := 0 |}.

End App.

(* ================================================================== *)
(** * Vocabulary of the statements *)
(* ================================================================== *)

Local Open Scope Z_scope.

Definition orNil (v : option (list ConsumerRecord)) : list ConsumerRecord :=
  match v with
  | Some l => l
  | None => []
  end.

(** An [AnalysisResult] that only carries [results]. *)
Definition resultsOnly (rs : list ConsumerRecord) : AnalysisResult :=
  {| summary := None; anomalies := None; results := Some rs |}.

(** ** Scores *)

(** The score a record ranks by, an absent score counting as 0. *)
Definition riskKey (r : ConsumerRecord) : number := orZero (aggregate_risk_score r).

Definition sord (r : ConsumerRecord) : Z := Num.ord (riskKey r).

(** [b] does not rank strictly above [a]. *)
Definition notBelow (a b : ConsumerRecord) : Prop :=
  Num.ltb (riskKey a) (riskKey b) = false.

Definition sameRisk (x r : ConsumerRecord) : bool := Num.eqb (riskKey r) (riskKey x).

(** The score is present and is a Number other than NaN. *)
Definition numericScore (r : ConsumerRecord) : Prop :=
  match aggregate_risk_score r with
  | Some x => Num.is_nan (Num.value x) = false
  | None => False
  end.

(** Order by decreasing integer key. *)
Definition descending {A : Type} (key : A -> Z) (a b : A) : Prop := key b <= key a.

(** ** The record kept for one key *)

Definition hasKey (k : string) (x : ConsumerRecord) : bool :=
  String.eqb (propertyKey x) k.

(** What [dedupStep] leaves under a key after the records [rest] filed
    under it have been met, [cur] being stored when the first arrives. *)
Fixpoint pick (cur : ConsumerRecord) (rest : list ConsumerRecord) : ConsumerRecord :=
  match rest with
  | [] => cur
  | x :: rest' =>
      pick (if js_gt (aggregate_risk_score x) (aggregate_risk_score cur)
            then x else cur) rest'
  end.

Definition keptFor (k : string) (rs : list ConsumerRecord) : option ConsumerRecord :=
  if Obj.inherited k then None
  else
    match filter (hasKey k) rs with
    | [] => None
    | x :: rest => Some (pick x rest)
    end.

Definition noInheritedOwn (o : Obj.t) : Prop :=
  forall k, Obj.inherited k = true -> Obj.lookupOwn o k = None.

(** [kept] is, among the records of [rs] filed under its key, the first
    one of greatest score. *)
Definition firstGreatest (rs : list ConsumerRecord) (kept : ConsumerRecord) : Prop :=
  exists pre post,
    rs = pre ++ kept :: post
    /\ (forall r, In r pre -> propertyKey r = propertyKey kept ->
          Num.ltb (riskKey r) (riskKey kept) = true)
    /\ (forall r, In r post -> propertyKey r = propertyKey kept ->
          Num.ltb (riskKey kept) (riskKey r) = false).

(** ** Markers *)

(** The lower-cased class tested by [updateMarkers]. *)
Definition riskOf (item : ConsumerRecord) : string :=
  Str.toLowerCase (orEmpty (risk_class item)).

Definition coordinatesParse (item : ConsumerRecord) : Prop :=
  isNaN (parseFloat (latitude item)) = false
  /\ isNaN (parseFloat (longitude item)) = false.

(** ** Sample data *)

(** The Numbers written [0.1], [0.3], ... in a JSON document. *)
Definition literal_0_1 : number := Eval vm_compute in Num.of_decimal false 1 (-1).
Definition literal_0_3 : number := Eval vm_compute in Num.of_decimal false 3 (-1).
Definition literal_0_5 : number := Eval vm_compute in Num.of_decimal false 5 (-1).
Definition literal_0_7 : number := Eval vm_compute in Num.of_decimal false 7 (-1).
Definition literal_0_9 : number := Eval vm_compute in Num.of_decimal false 9 (-1).
Definition literal_0_145 : number := Eval vm_compute in Num.of_decimal false 145 (-3).
Definition literal_0_155 : number := Eval vm_compute in Num.of_decimal false 155 (-3).
Definition literal_28_6 : number := Eval vm_compute in Num.of_decimal false 286 (-1).
Definition literal_minus_0_025 : number := Eval vm_compute in Num.of_decimal true 25 (-3).

Definition score01 : Num.double := Num.Double literal_0_1 eq_refl.
Definition score03 : Num.double := Num.Double literal_0_3 eq_refl.
Definition score05 : Num.double := Num.Double literal_0_5 eq_refl.
Definition score07 : Num.double := Num.Double literal_0_7 eq_refl.
Definition score09 : Num.double := Num.Double literal_0_9 eq_refl.
Definition score0145 : Num.double := Num.Double literal_0_145 eq_refl.
Definition score0155 : Num.double := Num.Double literal_0_155 eq_refl.
Definition scoreMinus0025 : Num.double := Num.Double literal_minus_0_025 eq_refl.

(** [{consumer_id: id, aggregate_risk_score: score}]. *)
Definition scored (id : option string) (score : option Num.double) : ConsumerRecord :=
  {| consumer_id := id; transformer_id := None;
     latitude := CAbsent; longitude := CAbsent;
     aggregate_risk_score := score; risk_class := None |}.

Definition located (id : string) (lat lng : Coord) (score : option Num.double)
    (class : option string) : ConsumerRecord :=
  {| consumer_id := Some id; transformer_id := None;
     latitude := lat; longitude := lng;
     aggregate_risk_score := score; risk_class := class |}.

Definition recordA : ConsumerRecord := scored (Some "A") (Some score01).
Definition recordB : ConsumerRecord := scored (Some "B") (Some score09).
Definition recordC : ConsumerRecord := scored (Some "C") (Some score05).
Definition recordD : ConsumerRecord := scored (Some "D") (Some score05).

Definition delhiLat : Coord := CNum (Num.Double literal_28_6 eq_refl).
Definition delhiLng : Coord := CStr "77.2".

Definition surface0 : Surface := {| host := 1; serial := 0 |}.

Definition mounted : State :=
  {| mapRef := Some 1%nat; googleMapRef := None; markersRef := [];
     error := None; constructed := 0; detached := [] |}.

Definition workingLibrary : MapsLibrary := {| mapConstructorThrows := fun _ => false |}.

Definition sampleSummary : Summary :=
  {| grid_health_score := Some score09; critical_cases := Some score01;
     anomalies_detected := Some score01; total_loss_calculated := Some score05 |}.

Definition sampleData : AnalysisResult :=
  {| summary := Some sampleSummary;
     anomalies := Some [located "C1" delhiLat delhiLng (Some score07) (Some "theft")];
     results :=
       Some [ located "C1" delhiLat delhiLng (Some score07) (Some "theft");
              located "C2" delhiLat delhiLng (Some score0145) (Some "normal");
              located "C3" delhiLat delhiLng (Some score03) (Some "normal") ] |}.

(** ** The claims of the specification, as it words them *)

(** C1: for every input, one record per consumerId, the first one of
    greatest score, an absent score being the default 0. *)
Definition C1_statement (rs : list ConsumerRecord) : Prop :=
  let out := getUniqueConsumers (Some (resultsOnly rs)) in
  NoDup (List.map propertyKey out)
  /\ (forall r, In r rs -> exists kept, In kept out /\ propertyKey kept = propertyKey r)
  /\ (forall kept, In kept out -> firstGreatest rs kept).

(** C2: the ranked view is built from [results], and from [anomalies]
    when [results] is absent. *)
Definition C2_statement (d : AnalysisResult) : Prop :=
  getUniqueConsumers (Some d)
  = Obj.values (dedup (match results d with
                       | Some rs => rs
                       | None => orNil (anomalies d)
                       end)).

(** C3: [normal] and unrecognized classes are never pinned, [mild] is
    pinned yellow, [theft] and [critical] are pinned red. *)
Definition C3_statement (item : ConsumerRecord) : Prop :=
  forall surface,
    ((risk_class item = Some "normal"
      \/ exists s, risk_class item = Some s
                   /\ s <> "normal" /\ s <> "mild" /\ s <> "theft" /\ s <> "critical")
     -> markerFor surface item = None)
    /\ (risk_class item = Some "mild" ->
        exists m, markerFor surface item = Some m /\ fillColor (icon m) = yellow)
    /\ (risk_class item = Some "theft" \/ risk_class item = Some "critical" ->
        exists m, markerFor surface item = Some m /\ fillColor (icon m) = red).

(** C4: no element without a consumerId is in the output. *)
Definition C4_statement (rs : list ConsumerRecord) : Prop :=
  forall r, In r (getUniqueConsumers (Some (resultsOnly rs))) -> consumer_id r <> None.

(** C6: a record one of whose coordinates does not parse as a finite
    number is skipped. *)
Definition C6_statement (item : ConsumerRecord) : Prop :=
  forall surface,
    Num.is_finite (parseFloat (latitude item)) = false
    \/ Num.is_finite (parseFloat (longitude item)) = false ->
    markerFor surface item = None.

(** C8: a score of 0.145 displays as 15%. *)
Definition C8_statement (item : ConsumerRecord) : Prop :=
  aggregate_risk_score item = Some score0145 -> percent item = "15".

(* ================================================================== *)
(** * Vocabulary of the further properties *)
(* ================================================================== *)

(** ** Keys of the dedup pass *)

(** The distinct elements of a list, each at its first occurrence. *)
Fixpoint firstOccurrences (l : list string) : list string :=
  match l with
  | [] => []
  | k :: l' => k :: filter (fun k' => negb (String.eqb k' k)) (firstOccurrences l')
  end.

(** A key the dedup pass can file a record under: reading an inherited
    name yields a truthy built-in, so no record is ever stored there. *)
Definition assignable (k : string) : bool := negb (Obj.inherited k).

(** The keys records get filed under, in the order of their first use. *)
Definition filedKeys (rs : list ConsumerRecord) : list string :=
  firstOccurrences (filter assignable (List.map propertyKey rs)).

Definition notIndex (k : string) : bool := negb (Obj.isIndex k).

(** Ascending numeric order of two array-index keys. *)
Definition indexBefore (a b : string) : Prop := (Obj.indexOf a < Obj.indexOf b)%N.

(** [k] is none of [keys]. *)
Definition absentFrom (keys : list string) (k : string) : bool :=
  negb (existsb (String.eqb k) keys).

(** The order [Object.values] puts two array-index keys in. *)
Definition indexNotAfter (p q : string * ConsumerRecord) : Prop :=
  (Obj.indexOf (fst p) <= Obj.indexOf (fst q))%N.

(** ** The render pass and the life of the component *)

(** The two guards of the [forEach] callback of [updateMarkers]. *)
Definition pinnable (item : ConsumerRecord) : bool :=
  negb (isNaN (parseFloat (latitude item)) || isNaN (parseFloat (longitude item)))
  && (String.eqb (riskOf item) "theft" || String.eqb (riskOf item) "critical"
      || String.eqb (riskOf item) "mild").

(** The fill colour of the marker of a record that passes the guards. *)
Definition colorOf (item : ConsumerRecord) : string :=
  if String.eqb (riskOf item) "mild" then yellow else red.

(** [{ lat, lng }] as [updateMarkers] parses them. *)
Definition parsedPosition (item : ConsumerRecord) : number * number :=
  (parseFloat (latitude item), parseFloat (longitude item)).

(** A marker that can be drawn: a position without NaN, one of the two
    colours. *)
Definition wellPinned (m : Marker) : Prop :=
  isNaN (fst (position m)) = false
  /\ isNaN (snd (position m)) = false
  /\ (fillColor (icon m) = red \/ fillColor (icon m) = yellow).

(** What holds of the refs of a component mounted on [element] at every
    moment of its life. *)
Definition consistent (element : nat) (st : State) : Prop :=
  (constructed st <= 1)%nat
  /\ (mapRef st = None \/ mapRef st = Some element)
  /\ (googleMapRef st = None -> constructed st = 0%nat /\ markersRef st = [])
  /\ (forall surface, googleMapRef st = Some surface ->
        constructed st = 1%nat /\ surface = {| host := element; serial := 0 |})
  /\ Forall (fun m => wellPinned m /\ (map m = None \/ map m = googleMapRef st))
       (markersRef st)
  /\ Forall (fun m => map m = None) (detached st).

(** The part of a component that only [initializeMap] writes. *)
Definition sameSurface (c c' : Component) : Prop :=
  googleMapRef (refs c') = googleMapRef (refs c)
  /\ error (refs c') = error (refs c)
  /\ constructed (refs c') = constructed (refs c).

(** An event that leaves a component without library waiting: a re-check
    that does not find the library, or a data change. *)
Definition stillWaiting (e : Event) : Prop :=
  match e with
  | Tick None => True
  | DataChange _ => True
  | _ => False
  end.

(** The state a failed initialization leaves for good. *)
Definition failedForGood (st : State) : Prop :=
  error st = Some "Google Maps API loaded but initialization failed."
  /\ googleMapRef st = None
  /\ markersRef st = []
  /\ constructed st = 0%nat.

(** The records a [data] prop carries, none when it or its [results]
    is absent. *)
Definition resultsOf (data : option AnalysisResult) : list ConsumerRecord :=
  match data with
  | Some d => orNil (results d)
  | None => []
  end.

(** ** Rows and sessions *)

(** The three places a row shows the class of its record. *)
Definition normalRow (row : Row) : Prop :=
  rowClassName row = "risk-normal"
  /\ badgeClassName row = "badge normal"
  /\ badgeCell row = Some "normal".

(** A score that [|| 0] replaces by 0: absent, zero or NaN. *)
Definition falsyScore (item : ConsumerRecord) : Prop :=
  match aggregate_risk_score item with
  | Some x => Num.truthy (Num.value x) = false
  | None => True
  end.

(** What holds of a session at every moment: at most one request awaits
    its answer, and [loading] tells whether one does. *)
Definition oneInFlight (s : App.Session) : Prop :=
  (App.pending s <= 1)%nat
  /\ (App.loading (App.state s) = true <-> App.pending s = 1%nat).

(* ================================================================== *)
(** * Facts about strings *)
(* ================================================================== *)

Section StrFacts.

Lemma drop_length (k : nat) : forall s,
  (String.length (Str.drop k s) <= String.length s)%nat.
Proof.
  induction k as [|k IH]; intros s; simpl.
  - destruct s; lia.
  - destruct s as [|c r]; simpl; [lia|]. specialize (IH r). lia.
Qed.

Lemma ws_prefix_drop (s : string) :
  Str.ws_prefix s <> 0%nat ->
  (String.length (Str.drop (Str.ws_prefix s) s) < String.length s)%nat.
Proof.
  intros H. destruct s as [|c r]; [simpl in H; congruence|].
  destruct (Str.ws_prefix (String c r)) as [|k]; [congruence|].
  simpl. pose proof (drop_length k r). lia.
Qed.

(** The fuel given by [trimStart] is enough: no white space is left at
    the head of its result. *)
Lemma trimStartFuel_done (fuel : nat) : forall s,
  (String.length s <= fuel)%nat ->
  Str.ws_prefix (Str.trimStartFuel fuel s) = 0%nat.
Proof.
  induction fuel as [|fuel IH]; intros s Hlen.
  - destruct s; [reflexivity|simpl in Hlen; lia].
  - cbn [Str.trimStartFuel].
    destruct (Str.ws_prefix s) as [|k] eqn:E; [exact E|].
    apply IH.
    assert (Hne : Str.ws_prefix s <> 0%nat) by (rewrite E; discriminate).
    pose proof (ws_prefix_drop s Hne) as Hlt. rewrite E in Hlt. lia.
Qed.

Lemma trimStart_done (s : string) : Str.ws_prefix (Str.trimStart s) = 0%nat.
Proof. apply trimStartFuel_done. apply Nat.le_refl. Qed.

End StrFacts.

(* ================================================================== *)
(** * Facts about numbers *)
(* ================================================================== *)

Section NumFacts.

(** ** The order of the binary64 values *)

Lemma digits2_pos_size (m : positive) : digits2_pos m = Pos.size m.
Proof. induction m; simpl; congruence. Qed.

Lemma digits2_bounds (m : positive) :
  2 ^ (Zpos (digits2_pos m) - 1) <= Zpos m < 2 ^ Zpos (digits2_pos m).
Proof.
  rewrite digits2_pos_size. split.
  - pose proof (Pos.size_le m) as H.
    apply Pos2Z.pos_le_pos in H. rewrite Pos2Z.inj_pow in H.
    replace (Zpos (Pos.size m)) with ((Zpos (Pos.size m) - 1) + 1) in H at 1 by lia.
    rewrite Z.pow_add_r in H by lia.
    change (Zpos m~0) with (2 * Zpos m) in H. lia.
  - pose proof (Pos.size_gt m) as H.
    apply Pos2Z.pos_lt_pos in H. rewrite Pos2Z.inj_pow in H. exact H.
Qed.

Lemma bounded_range (m : positive) (e : Z) :
  bounded Num.prec Num.emax m e = true ->
  -1074 <= e <= 971 /\ Zpos m < 2 ^ 53 /\ (-1074 < e -> 2 ^ 52 <= Zpos m).
Proof.
  unfold bounded, canonical_mantissa, fexp, emin, Num.prec, Num.emax.
  intros H. apply andb_true_iff in H. destruct H as [Hc He].
  apply Z.eqb_eq in Hc. apply Z.leb_le in He.
  pose proof (digits2_bounds m) as [Hlo Hhi].
  set (d := Zpos (digits2_pos m)) in *.
  assert (Hd : 0 < d) by (unfold d; lia).
  assert (Hcases : (d = 53 /\ -1074 <= e) \/ (e = -1074 /\ d <= 53)) by lia.
  repeat split; try lia.
  - destruct Hcases as [[Hd53 _]|[_ Hle]].
    + rewrite Hd53 in Hhi. exact Hhi.
    + eapply Z.lt_le_trans; [exact Hhi|]. apply Z.pow_le_mono_r; lia.
  - intros Hgt. destruct Hcases as [[Hd53 _]|[He' _]]; [|lia].
    rewrite Hd53 in Hlo. exact Hlo.
Qed.


Lemma rank_bounds (m : positive) (e : Z) :
  bounded Num.prec Num.emax m e = true -> 0 < Num.rank m e < 2047 * 2 ^ 52.
Proof.
  intros H. apply bounded_range in H. unfold Num.rank.
  change (2 ^ 53) with (2 * 2 ^ 52) in H.
  assert (0 < 2 ^ 52) by reflexivity. nia.
Qed.

Lemma rank_mono (m1 m2 : positive) (e1 e2 : Z) :
  bounded Num.prec Num.emax m1 e1 = true ->
  bounded Num.prec Num.emax m2 e2 = true ->
  e1 < e2 -> Num.rank m1 e1 < Num.rank m2 e2.
Proof.
  intros H1 H2 Hlt. apply bounded_range in H1, H2. unfold Num.rank.
  change (2 ^ 53) with (2 * 2 ^ 52) in *.
  assert (0 < 2 ^ 52) by reflexivity.
  assert (2 ^ 52 <= Zpos m2) by (apply H2; lia). nia.
Qed.

Lemma ltb_ord (x y : number) :
  Num.valid x -> Num.valid y ->
  Num.is_nan x = false -> Num.is_nan y = false ->
  Num.ltb x y = (Num.ord x <? Num.ord y).
Proof.
  unfold Num.valid, Num.ltb, SFltb.
  intros Vx Vy Nx Ny.
  destruct x as [sx|sx| |sx mx ex], y as [sy|sy| |sy my ey];
    try discriminate; simpl in Vx, Vy; simpl SFcompare; unfold Num.ord;
    try (pose proof (rank_bounds _ _ Vx));
    try (pose proof (rank_bounds _ _ Vy)).
  all: try (destruct sx; simpl; symmetry;
            first [ apply Z.ltb_lt; lia | apply Z.ltb_ge; lia ]).
  all: try (destruct sy; simpl; symmetry;
            first [ apply Z.ltb_lt; lia | apply Z.ltb_ge; lia ]).
  all: try (destruct sx, sy; simpl; symmetry;
            first [ apply Z.ltb_lt; lia | apply Z.ltb_ge; lia ]).
  (* two finite numbers *)
  change PosDef.Pos.compare_cont with Pos.compare_cont.
  rewrite Pos.compare_cont_spec. simpl Pos.switch_Eq.
  destruct (Z.compare_spec ex ey) as [E|L|G].
  - subst ey. unfold Num.rank in *.
    destruct (Pos.compare_spec mx my) as [E'|L'|G']; destruct sx, sy; simpl;
      symmetry; first [ apply Z.ltb_lt; lia | apply Z.ltb_ge; lia ].
  - pose proof (rank_mono _ _ _ _ Vx Vy L).
    destruct sx, sy; simpl; symmetry;
      first [ apply Z.ltb_lt; lia | apply Z.ltb_ge; lia ].
  - pose proof (rank_mono _ _ _ _ Vy Vx G).
    destruct sx, sy; simpl; symmetry;
      first [ apply Z.ltb_lt; lia | apply Z.ltb_ge; lia ].
Qed.


Lemma eqb_ord (x y : number) :
  Num.valid x -> Num.valid y ->
  Num.is_nan x = false -> Num.is_nan y = false ->
  Num.eqb x y = (Num.ord x =? Num.ord y).
Proof.
  unfold Num.valid, Num.eqb, SFeqb.
  intros Vx Vy Nx Ny.
  destruct x as [sx|sx| |sx mx ex], y as [sy|sy| |sy my ey];
    try discriminate; simpl in Vx, Vy; simpl SFcompare; unfold Num.ord;
    try (pose proof (rank_bounds _ _ Vx));
    try (pose proof (rank_bounds _ _ Vy)).
  all: try (destruct sx; cbv [cond_Zopp]; symmetry;
            first [ reflexivity | apply Z.eqb_eq; lia | apply Z.eqb_neq; lia ]).
  all: try (destruct sy; cbv [cond_Zopp]; symmetry;
            first [ reflexivity | apply Z.eqb_eq; lia | apply Z.eqb_neq; lia ]).
  all: try (destruct sx, sy; cbv [cond_Zopp]; symmetry;
            first [ reflexivity | apply Z.eqb_eq; lia | apply Z.eqb_neq; lia ]).
  change PosDef.Pos.compare_cont with Pos.compare_cont.
  rewrite Pos.compare_cont_spec. simpl Pos.switch_Eq.
  destruct (Z.compare_spec ex ey) as [E|L|G].
  - subst ey. unfold Num.rank in *.
    destruct (Pos.compare_spec mx my) as [E'|L'|G']; destruct sx, sy; cbv [cond_Zopp CompOpp];
      symmetry; first [ reflexivity | apply Z.eqb_eq; lia | apply Z.eqb_neq; lia ].
  - pose proof (rank_mono _ _ _ _ Vx Vy L).
    destruct sx, sy; cbv [cond_Zopp]; symmetry;
      first [ reflexivity | apply Z.eqb_eq; lia | apply Z.eqb_neq; lia ].
  - pose proof (rank_mono _ _ _ _ Vy Vx G).
    destruct sx, sy; cbv [cond_Zopp]; symmetry;
      first [ reflexivity | apply Z.eqb_eq; lia | apply Z.eqb_neq; lia ].
Qed.

(** ** The sign of a difference *)

Lemma has_sign_ltb_zero (s : bool) (x : number) :
  Num.has_sign s x -> Num.ltb Num.zero x = negb s.
Proof. destruct x as [| | |s' m e]; simpl; try tauto; intros ->; destruct s; reflexivity. Qed.

Lemma shr_1_m (mrs : shr_record) :
  0 <= shr_m mrs -> shr_m (shr_1 mrs) = shr_m mrs / 2.
Proof.
  destruct mrs as [m r s]. simpl. intros Hm.
  destruct m as [|[p|p|]|p]; cbn [shr_m]; try reflexivity; try lia.
  - rewrite (Pos2Z.inj_xI p). Z.div_mod_to_equations. lia.
  - rewrite (Pos2Z.inj_xO p). Z.div_mod_to_equations. lia.
Qed.

Lemma pow2_xI (p : positive) : 2 ^ Zpos p~1 = 2 * (2 ^ Zpos p * 2 ^ Zpos p).
Proof.
  rewrite Pos2Z.inj_xI. replace (2 * Zpos p + 1) with (1 + (Zpos p + Zpos p)) by lia.
  rewrite Z.pow_add_r by lia. rewrite Z.pow_add_r by lia. reflexivity.
Qed.

Lemma pow2_xO (p : positive) : 2 ^ Zpos p~0 = 2 ^ Zpos p * 2 ^ Zpos p.
Proof.
  rewrite Pos2Z.inj_xO. rewrite <- Z.pow_add_r by lia. f_equal. lia.
Qed.

Lemma iter_pos_shr_m (p : positive) : forall mrs,
  0 <= shr_m mrs ->
  shr_m (iter_pos shr_1 p mrs) = shr_m mrs / 2 ^ Zpos p.
Proof.
  induction p as [p IH|p IH|]; intros mrs Hm; simpl iter_pos.
  - assert (Hp : 0 < 2 ^ Zpos p) by (apply Z.pow_pos_nonneg; lia).
    assert (H1 : 0 <= shr_m (shr_1 mrs)).
    { rewrite shr_1_m by exact Hm. apply Z.div_pos; lia. }
    assert (H2 : 0 <= shr_m (iter_pos shr_1 p (shr_1 mrs))).
    { rewrite IH by exact H1. apply Z.div_pos; [exact H1|exact Hp]. }
    rewrite IH by exact H2. rewrite IH by exact H1. rewrite shr_1_m by exact Hm.
    rewrite !Z.div_div by lia. rewrite pow2_xI. f_equal; lia.
  - assert (Hp : 0 < 2 ^ Zpos p) by (apply Z.pow_pos_nonneg; lia).
    assert (H2 : 0 <= shr_m (iter_pos shr_1 p mrs)).
    { rewrite IH by exact Hm. apply Z.div_pos; [exact Hm|exact Hp]. }
    rewrite IH by exact H2. rewrite IH by exact Hm.
    rewrite Z.div_div by lia. rewrite pow2_xO. reflexivity.
  - rewrite shr_1_m by exact Hm. reflexivity.
Qed.

Lemma shr_record_of_loc_m (m : Z) (l : location) :
  shr_m (shr_record_of_loc m l) = m.
Proof. destruct l as [|[| |]]; reflexivity. Qed.

(** Rounding a positive mantissa whose exponent is at least [emin]
    never produces a zero mantissa. *)
Lemma shr_fexp_pos (m e : Z) (l : location) :
  0 < m -> -1074 <= e ->
  0 < shr_m (fst (shr_fexp Num.prec Num.emax m e l))
  /\ -1074 <= snd (shr_fexp Num.prec Num.emax m e l).
Proof.
  intros Hm He. unfold shr_fexp, shr, fexp, emin, Num.prec, Num.emax.
  destruct m as [|pm|pm]; try lia. cbn [Zdigits2].
  pose proof (digits2_bounds pm) as [Hlo _].
  set (d := Zpos (digits2_pos pm)) in *.
  destruct (Z.max (d + e - 53) (3 - 1024 - 53) - e) as [|p|p] eqn:En;
    cbn [fst snd]; rewrite ?shr_record_of_loc_m; try lia.
  split; [|lia].
  rewrite iter_pos_shr_m by (rewrite shr_record_of_loc_m; lia).
  rewrite shr_record_of_loc_m.
  assert (Hp : Zpos p = d - 53) by lia.
  rewrite Hp.
  apply Z.lt_le_trans with (2 ^ 52); [reflexivity|].
  replace (2 ^ 52) with (2 ^ (d - 1) / 2 ^ (d - 53)).
  - apply Z.div_le_mono; [apply Z.pow_pos_nonneg; lia|exact Hlo].
  - rewrite <- Z.pow_sub_r by lia. f_equal. lia.
Qed.

Lemma round_nearest_even_pos (m : Z) (l : location) :
  0 < m -> 0 < round_nearest_even m l.
Proof.
  intros Hm. destruct l as [|[| |]]; simpl; try lia.
  destruct (Z.even m); lia.
Qed.

Lemma binary_round_aux_sign (sx : bool) (m e : Z) (l : location) :
  0 < m -> -1074 <= e ->
  Num.has_sign sx (binary_round_aux Num.prec Num.emax sx m e l).
Proof.
  intros Hm He. unfold binary_round_aux.
  pose proof (shr_fexp_pos m e l Hm He) as [H1 H2].
  destruct (shr_fexp Num.prec Num.emax m e l) as [mrs1 e1]. cbn [fst snd] in H1, H2.
  pose proof (round_nearest_even_pos _ (loc_of_shr_record mrs1) H1) as Hr.
  pose proof (shr_fexp_pos _ e1 loc_Exact Hr H2) as [H3 H4].
  destruct (shr_fexp Num.prec Num.emax _ e1 loc_Exact) as [mrs2 e2].
  cbn [fst snd] in H3, H4.
  destruct (shr_m mrs2) as [|p|p]; try lia.
  destruct (e2 <=? Num.emax - Num.prec); reflexivity.
Qed.

Lemma binary_normalize_sign (M e : Z) :
  -1074 <= e -> M <> 0 ->
  Num.has_sign (M <? 0) (binary_normalize Num.prec Num.emax M e false).
Proof.
  intros He HM.
  assert (Hr : forall sx pm, Num.has_sign sx (binary_round Num.prec Num.emax sx pm e)).
  { intros sx pm. unfold binary_round, shl_align.
    set (e' := fexp Num.prec Num.emax (Zpos (digits2_pos pm) + e)).
    assert (He' : -1074 <= e') by (unfold e', fexp, emin, Num.prec, Num.emax; lia).
    destruct (e' - e); apply binary_round_aux_sign; lia. }
  destruct M as [|pm|pm]; [lia| |]; simpl; apply Hr.
Qed.


Lemma iter_xO (d : positive) (m : positive) :
  Zpos (Pos.iter xO m d) = Zpos m * 2 ^ Zpos d.
Proof.
  induction d as [|d IH] using Pos.peano_ind.
  - simpl. lia.
  - rewrite Pos.iter_succ, Pos2Z.inj_xO, IH, Pos2Z.inj_succ.
    rewrite Z.pow_succ_r by lia. lia.
Qed.

Lemma shl_align_fst (mx : positive) (ex ez : Z) :
  ez <= ex -> Zpos (fst (shl_align mx ex ez)) = Zpos mx * 2 ^ (ex - ez).
Proof.
  intros H. unfold shl_align.
  destruct (ez - ex) as [|d|d] eqn:E; cbn [fst].
  - replace (ex - ez) with 0 by lia. lia.
  - lia.
  - rewrite iter_xO. f_equal. f_equal. lia.
Qed.

(** The aligned integer difference of two valid finite numbers has the
    sign of the difference of their ranks. *)
Lemma aligned_diff_sign (sx sy : bool) (mx my : positive) (ex ey : Z) :
  bounded Num.prec Num.emax mx ex = true ->
  bounded Num.prec Num.emax my ey = true ->
  let ez := Z.min ex ey in
  let M := cond_Zopp sx (Zpos (fst (shl_align mx ex ez)))
           - cond_Zopp sy (Zpos (fst (shl_align my ey ez))) in
  (0 < M <-> cond_Zopp sy (Num.rank my ey) < cond_Zopp sx (Num.rank mx ex))
  /\ (M < 0 <-> cond_Zopp sx (Num.rank mx ex) < cond_Zopp sy (Num.rank my ey)).
Proof.
  intros Vx Vy ez M. subst M.
  rewrite !shl_align_fst by (unfold ez; lia).
  pose proof (rank_bounds _ _ Vx) as Rx. pose proof (rank_bounds _ _ Vy) as Ry.
  assert (Px : 0 < Zpos mx * 2 ^ (ex - ez)).
  { apply Z.mul_pos_pos; [lia|]. apply Z.pow_pos_nonneg; unfold ez; lia. }
  assert (Py : 0 < Zpos my * 2 ^ (ey - ez)).
  { apply Z.mul_pos_pos; [lia|]. apply Z.pow_pos_nonneg; unfold ez; lia. }
  assert (Hcmp : (Zpos my * 2 ^ (ey - ez) < Zpos mx * 2 ^ (ex - ez)
                  <-> Num.rank my ey < Num.rank mx ex)
                 /\ (Zpos mx * 2 ^ (ex - ez) < Zpos my * 2 ^ (ey - ez)
                  <-> Num.rank mx ex < Num.rank my ey)).
  { destruct (Z.lt_trichotomy ex ey) as [L|[E|G]].
    - pose proof (rank_mono _ _ _ _ Vx Vy L) as Hr.
      apply bounded_range in Vx, Vy.
      replace (ex - ez) with 0 by (unfold ez; lia).
      replace (ey - ez) with (ey - ex) by (unfold ez; lia).
      assert (2 ^ 1 <= 2 ^ (ey - ex)) by (apply Z.pow_le_mono_r; lia).
      change (2 ^ 1) with 2 in *. change (2 ^ 53) with (2 * 2 ^ 52) in *.
      assert (2 ^ 52 <= Zpos my) by (apply Vy; lia).
      assert (0 < 2 ^ 52) by reflexivity.
      rewrite Z.pow_0_r. split; split; intros; nia.
    - subst ey. replace (ex - ez) with 0 by (unfold ez; lia).
      rewrite Z.pow_0_r. unfold Num.rank. split; split; intros; lia.
    - pose proof (rank_mono _ _ _ _ Vy Vx G) as Hr.
      apply bounded_range in Vx, Vy.
      replace (ey - ez) with 0 by (unfold ez; lia).
      replace (ex - ez) with (ex - ey) by (unfold ez; lia).
      assert (2 ^ 1 <= 2 ^ (ex - ey)) by (apply Z.pow_le_mono_r; lia).
      change (2 ^ 1) with 2 in *. change (2 ^ 53) with (2 * 2 ^ 52) in *.
      assert (2 ^ 52 <= Zpos mx) by (apply Vx; lia).
      assert (0 < 2 ^ 52) by reflexivity.
      rewrite Z.pow_0_r. split; split; intros; nia. }
  destruct Hcmp as [H1 H2].
  destruct sx, sy; unfold cond_Zopp; split; split; intros; lia.
Qed.

(** [x - y > 0] exactly when [x] ranks above [y]; [x - y < 0] exactly
    when it ranks below. *)
Lemma sub_sign (x y : number) :
  Num.valid x -> Num.valid y ->
  Num.is_nan x = false -> Num.is_nan y = false ->
  Num.ltb Num.zero (Num.sub x y) = (Num.ord y <? Num.ord x).
Proof.
  unfold Num.valid. intros Vx Vy Nx Ny.
  destruct x as [sx|sx| |sx mx ex], y as [sy|sy| |sy my ey];
    try discriminate; simpl in Vx, Vy; unfold Num.sub, SFsub, Num.ord;
    try (pose proof (rank_bounds _ _ Vx));
    try (pose proof (rank_bounds _ _ Vy)).
  all: try (destruct sx, sy; simpl; symmetry;
            first [ apply Z.ltb_lt; lia | apply Z.ltb_ge; lia ]).
  all: try (destruct sx; simpl; symmetry;
            first [ apply Z.ltb_lt; lia | apply Z.ltb_ge; lia ]).
  all: try (destruct sy; simpl; symmetry;
            first [ apply Z.ltb_lt; lia | apply Z.ltb_ge; lia ]).
  (* two finite numbers *)
  pose proof (aligned_diff_sign sx sy mx my ex ey Vx Vy) as [Hp Hn].
  cbv zeta in Hp, Hn.
  set (M := cond_Zopp sx (Zpos (fst (shl_align mx ex (Z.min ex ey))))
            - cond_Zopp sy (Zpos (fst (shl_align my ey (Z.min ex ey))))) in *.
  destruct (Z.eq_dec M 0) as [E0|N0].
  - rewrite E0. simpl. symmetry. apply Z.ltb_ge. lia.
  - assert (He : -1074 <= Z.min ex ey).
    { apply bounded_range in Vx, Vy. lia. }
    pose proof (binary_normalize_sign M _ He N0) as Hs.
    rewrite (has_sign_ltb_zero _ _ Hs).
    destruct (Z.ltb_spec M 0); simpl; symmetry;
      first [ apply Z.ltb_lt; lia | apply Z.ltb_ge; lia ].
Qed.

End NumFacts.

(* ================================================================== *)
(** * Facts about [sort] *)
(* ================================================================== *)

Section SortFacts.

Context {A : Type}.
Variable comparefn : A -> A -> number.

Lemma insertSorted_perm (x : A) (l : list A) :
  Permutation (insertSorted comparefn x l) (x :: l).
Proof.
  induction l as [|y l IH]; simpl.
  - apply Permutation_refl.
  - destruct (comesAfter comparefn x y).
    + eapply perm_trans; [apply perm_skip; exact IH|apply perm_swap].
    + apply Permutation_refl.
Qed.

Lemma sort_perm (l : list A) : Permutation (sort comparefn l) l.
Proof.
  induction l as [|x l IH]; simpl.
  - constructor.
  - eapply perm_trans; [apply insertSorted_perm|apply perm_skip; exact IH].
Qed.

(** A comparator that is the comparison of an integer key. *)
Variable key : A -> Z.
Hypothesis comparefn_key :
  forall a b, comesAfter comparefn a b = (key a <? key b).

Lemma insertSorted_sorted (x : A) (l : list A) :
  StronglySorted (descending key) l ->
  StronglySorted (descending key) (insertSorted comparefn x l).
Proof.
  intros Hs. induction Hs as [|y l Hs IH Hy]; simpl.
  - repeat constructor.
  - rewrite (comparefn_key x y).
    destruct (Z.ltb_spec (key x) (key y)) as [Hlt|Hge].
    + constructor; [exact IH|].
      eapply Permutation_Forall; [apply Permutation_sym, insertSorted_perm|].
      constructor; [unfold descending; lia|exact Hy].
    + constructor; [constructor; assumption|].
      constructor; [exact Hge|].
      eapply Forall_impl; [|exact Hy]. unfold descending. intros; lia.
Qed.

Lemma sort_sorted (l : list A) : StronglySorted (descending key) (sort comparefn l).
Proof.
  induction l as [|x l IH]; simpl.
  - constructor.
  - apply insertSorted_sorted. exact IH.
Qed.

(** Stability: elements of equal key keep their order. *)
Lemma insertSorted_filter (v : Z) (x : A) (l : list A) :
  filter (fun a => key a =? v) (insertSorted comparefn x l)
  = filter (fun a => key a =? v) (x :: l).
Proof.
  induction l as [|y l IH]; [reflexivity|].
  cbn [insertSorted]. rewrite (comparefn_key x y).
  destruct (Z.ltb_spec (key x) (key y)) as [Hlt|Hge]; [|reflexivity].
  cbn [filter] in *. rewrite IH.
  destruct (Z.eqb_spec (key y) v), (Z.eqb_spec (key x) v); try reflexivity; lia.
Qed.

Lemma sort_filter (v : Z) (l : list A) :
  filter (fun a => key a =? v) (sort comparefn l) = filter (fun a => key a =? v) l.
Proof.
  induction l as [|x l IH]; [reflexivity|].
  cbn [sort fold_right].
  change (fold_right (insertSorted comparefn) [] l) with (sort comparefn l).
  rewrite insertSorted_filter. cbn [filter]. rewrite IH. reflexivity.
Qed.

End SortFacts.

Lemma StronglySorted_weaken {A : Type} (R R' : A -> A -> Prop) (l : list A) :
  (forall a b, R a b -> R' a b) ->
  StronglySorted R l -> StronglySorted R' l.
Proof.
  intros H Hs. induction Hs as [|x l Hs IH Hx].
  - constructor.
  - constructor; [exact IH|].
    eapply Forall_impl; [|exact Hx]. intros b. apply H.
Qed.

(* ================================================================== *)
(** * Facts about the dictionary object *)
(* ================================================================== *)

Section ObjFacts.

Lemma lookupOwn_app (o : Obj.t) (k k' : string) (v : ConsumerRecord) :
  Obj.lookupOwn (o ++ [(k, v)]) k'
  = match Obj.lookupOwn o k' with
    | Some r => Some r
    | None => if String.eqb k' k then Some v else None
    end.
Proof.
  induction o as [|[k0 r0] o IH]; simpl.
  - reflexivity.
  - destruct (String.eqb k' k0); [reflexivity|exact IH].
Qed.

Lemma lookupOwn_replace (o : Obj.t) (k k' : string) (v : ConsumerRecord) :
  Obj.lookupOwn (Obj.replace o k v) k'
  = if String.eqb k' k
    then match Obj.lookupOwn o k with Some _ => Some v | None => None end
    else Obj.lookupOwn o k'.
Proof.
  induction o as [|[k0 r0] o IH]; simpl.
  - destruct (String.eqb k' k); reflexivity.
  - destruct (String.eqb_spec k k0) as [E|N]; simpl.
    + subst k0. destruct (String.eqb_spec k' k); reflexivity.
    + rewrite IH. destruct (String.eqb_spec k' k0) as [E'|N'].
      * subst k0. destruct (String.eqb_spec k' k); [congruence|reflexivity].
      * reflexivity.
Qed.

Lemma lookupOwn_set (o : Obj.t) (k k' : string) (v : ConsumerRecord) :
  Obj.lookupOwn (Obj.set o k v) k'
  = if String.eqb k' k then Some v else Obj.lookupOwn o k'.
Proof.
  unfold Obj.set. destruct (Obj.lookupOwn o k) as [r|] eqn:E.
  - rewrite lookupOwn_replace, E. reflexivity.
  - rewrite lookupOwn_app.
    destruct (String.eqb_spec k' k) as [->|N].
    + rewrite E. reflexivity.
    + destruct (Obj.lookupOwn o k'); reflexivity.
Qed.

Lemma keys_replace (o : Obj.t) (k : string) (v : ConsumerRecord) :
  List.map fst (Obj.replace o k v) = List.map fst o.
Proof.
  induction o as [|[k0 r0] o IH]; simpl; [reflexivity|].
  destruct (String.eqb k k0); simpl; [reflexivity|]. rewrite IH. reflexivity.
Qed.

Lemma lookupOwn_None (o : Obj.t) (k : string) :
  Obj.lookupOwn o k = None <-> ~ In k (List.map fst o).
Proof.
  induction o as [|[k0 r0] o IH]; simpl.
  - tauto.
  - destruct (String.eqb_spec k k0) as [E|N].
    + split; [discriminate|]. intros H. exfalso. apply H. left. congruence.
    + rewrite IH. split; [intros H [E|I]; [congruence|tauto]|tauto].
Qed.

Lemma keys_set_NoDup (o : Obj.t) (k : string) (v : ConsumerRecord) :
  NoDup (List.map fst o) -> NoDup (List.map fst (Obj.set o k v)).
Proof.
  intros H. unfold Obj.set. destruct (Obj.lookupOwn o k) as [r|] eqn:E.
  - rewrite keys_replace. exact H.
  - rewrite map_app. simpl. apply lookupOwn_None in E.
    apply NoDup_app; [exact H|repeat constructor; simpl; tauto|].
    intros x Hx [<-|[]]. contradiction.
Qed.

Lemma lookupOwn_In (o : Obj.t) (k : string) (r : ConsumerRecord) :
  NoDup (List.map fst o) ->
  (In (k, r) o <-> Obj.lookupOwn o k = Some r).
Proof.
  induction o as [|[k0 r0] o IH]; simpl; intros Hnd.
  - split; [tauto|discriminate].
  - inversion Hnd as [|? ? Hni Hnd']; subst.
    destruct (String.eqb_spec k k0) as [E|N].
    + subst k0. split.
      * intros [E|I]; [congruence|].
        exfalso. apply Hni. apply in_map_iff. exists (k, r). auto.
      * intros E. left. congruence.
    + rewrite <- (IH Hnd'). split; [intros [E|I]; [congruence|exact I]|tauto].
Qed.

Lemma insertByIndex_perm (p : string * ConsumerRecord) (l : Obj.t) :
  Permutation (Obj.insertByIndex p l) (p :: l).
Proof.
  induction l as [|q l IH]; simpl.
  - apply Permutation_refl.
  - destruct (Obj.indexOf (fst p) <=? Obj.indexOf (fst q))%N.
    + apply Permutation_refl.
    + eapply perm_trans; [apply perm_skip; exact IH|apply perm_swap].
Qed.

Lemma sortByIndex_perm (l : Obj.t) : Permutation (Obj.sortByIndex l) l.
Proof.
  induction l as [|p l IH]; simpl.
  - constructor.
  - eapply perm_trans; [apply insertByIndex_perm|apply perm_skip; exact IH].
Qed.

Lemma filter_split_perm {A : Type} (f : A -> bool) (l : list A) :
  Permutation (filter f l ++ filter (fun x => negb (f x)) l) l.
Proof.
  induction l as [|x l IH]; simpl; [constructor|].
  destruct (f x); simpl.
  - apply perm_skip. exact IH.
  - eapply perm_trans; [apply Permutation_sym, Permutation_middle|].
    apply perm_skip. exact IH.
Qed.

Lemma ownEntries_perm (o : Obj.t) : Permutation (Obj.ownEntries o) o.
Proof.
  unfold Obj.ownEntries.
  eapply perm_trans; [|apply (filter_split_perm (fun p => Obj.isIndex (fst p)))].
  apply Permutation_app_tail. apply sortByIndex_perm.
Qed.

Lemma values_In (o : Obj.t) (r : ConsumerRecord) :
  NoDup (List.map fst o) ->
  (In r (Obj.values o) <-> exists k, Obj.lookupOwn o k = Some r).
Proof.
  intros Hnd. unfold Obj.values. rewrite in_map_iff. split.
  - intros [[k r'] [E I]]. simpl in E. subst r'. exists k.
    apply lookupOwn_In; [exact Hnd|].
    eapply Permutation_in; [apply ownEntries_perm|exact I].
  - intros [k E]. exists (k, r). split; [reflexivity|].
    eapply Permutation_in; [apply Permutation_sym, ownEntries_perm|].
    apply lookupOwn_In; assumption.
Qed.

End ObjFacts.

(* ================================================================== *)
(** * Facts about the dedup pass *)
(* ================================================================== *)

Section DedupFacts.

Lemma js_gt_absent_r (a : option Num.double) : js_gt a None = false.
Proof. unfold js_gt, Num.ltb, SFltb. simpl. reflexivity. Qed.

Lemma js_gt_absent_l (b : option Num.double) : js_gt None b = false.
Proof.
  unfold js_gt, Num.ltb, SFltb. simpl.
  destruct (ToNumber b) as [| | |]; reflexivity.
Qed.

Lemma dedupStep_lookup (o : Obj.t) (x : ConsumerRecord) (k : string) :
  Obj.lookupOwn (dedupStep o x) k
  = if String.eqb k (propertyKey x) then
      match Obj.lookupOwn o k with
      | Some stored =>
          Some (if js_gt (aggregate_risk_score x) (aggregate_risk_score stored)
                then x else stored)
      | None => if Obj.inherited k then None else Some x
      end
    else Obj.lookupOwn o k.
Proof.
  unfold dedupStep, Obj.get.
  destruct (String.eqb_spec k (propertyKey x)) as [E|N].
  - subst k. destruct (Obj.lookupOwn o (propertyKey x)) as [stored|] eqn:El;
      cbn [Obj.truthy Obj.score negb].
    + destruct (js_gt _ _).
      * rewrite lookupOwn_set, String.eqb_refl. reflexivity.
      * exact El.
    + destruct (Obj.inherited (propertyKey x)); cbn [Obj.truthy Obj.score negb].
      * rewrite js_gt_absent_r. simpl. exact El.
      * rewrite lookupOwn_set, String.eqb_refl. reflexivity.
  - assert (Hset : Obj.lookupOwn (Obj.set o (propertyKey x) x) k = Obj.lookupOwn o k).
    { rewrite lookupOwn_set. destruct (String.eqb_spec k (propertyKey x)); congruence. }
    destruct (negb _); [exact Hset|].
    destruct (js_gt _ _); [exact Hset|reflexivity].
Qed.

Lemma dedupStep_noInheritedOwn (o : Obj.t) (x : ConsumerRecord) :
  noInheritedOwn o -> noInheritedOwn (dedupStep o x).
Proof.
  intros H k Hk. rewrite dedupStep_lookup, (H k Hk), Hk.
  destruct (String.eqb k (propertyKey x)); reflexivity.
Qed.

Lemma dedupStep_NoDup (o : Obj.t) (x : ConsumerRecord) :
  NoDup (List.map fst o) -> NoDup (List.map fst (dedupStep o x)).
Proof.
  intros H. unfold dedupStep.
  destruct (negb _); [apply keys_set_NoDup; exact H|].
  destruct (js_gt _ _); [apply keys_set_NoDup; exact H|exact H].
Qed.

Lemma fold_dedupStep_NoDup (l : list ConsumerRecord) : forall o,
  NoDup (List.map fst o) -> NoDup (List.map fst (fold_left dedupStep l o)).
Proof.
  induction l as [|x l IH]; intros o H; simpl; [exact H|].
  apply IH, dedupStep_NoDup, H.
Qed.

Lemma fold_dedupStep_lookup (l : list ConsumerRecord) : forall o k,
  noInheritedOwn o ->
  Obj.lookupOwn (fold_left dedupStep l o) k
  = match Obj.lookupOwn o k with
    | Some cur => Some (pick cur (filter (hasKey k) l))
    | None => keptFor k l
    end.
Proof.
  induction l as [|x l IH]; intros o k Ho.
  - simpl. unfold keptFor. simpl.
    destruct (Obj.lookupOwn o k); [reflexivity|].
    destruct (Obj.inherited k); reflexivity.
  - cbn [fold_left]. rewrite (IH _ k (dedupStep_noInheritedOwn o x Ho)).
    rewrite dedupStep_lookup. unfold keptFor. cbn [filter].
    assert (Hk : hasKey k x = String.eqb k (propertyKey x))
      by (unfold hasKey; apply String.eqb_sym).
    rewrite Hk.
    destruct (String.eqb k (propertyKey x)).
    + destruct (Obj.lookupOwn o k) as [stored|]; [reflexivity|].
      destruct (Obj.inherited k); reflexivity.
    + reflexivity.
Qed.

Lemma dedup_lookup (rs : list ConsumerRecord) (k : string) :
  Obj.lookupOwn (dedup rs) k = keptFor k rs.
Proof.
  unfold dedup. rewrite fold_dedupStep_lookup; [reflexivity|].
  intros k' _. reflexivity.
Qed.

Lemma dedup_NoDup (rs : list ConsumerRecord) : NoDup (List.map fst (dedup rs)).
Proof. apply fold_dedupStep_NoDup. constructor. Qed.

Lemma pick_In (rest : list ConsumerRecord) : forall cur,
  In (pick cur rest) (cur :: rest).
Proof.
  induction rest as [|x rest IH]; intros cur; simpl.
  - left. reflexivity.
  - destruct (IH (if js_gt (aggregate_risk_score x) (aggregate_risk_score cur)
                  then x else cur)) as [E|I].
    + destruct (js_gt _ _); [right; left; exact E|left; exact E].
    + right. right. exact I.
Qed.

Lemma keptFor_origin (k : string) (rs : list ConsumerRecord) (r : ConsumerRecord) :
  keptFor k rs = Some r ->
  In r rs /\ propertyKey r = k /\ Obj.inherited k = false.
Proof.
  unfold keptFor. destruct (Obj.inherited k); [discriminate|].
  destruct (filter (hasKey k) rs) as [|x rest] eqn:E; [discriminate|].
  intros H. injection H as <-.
  assert (I : In (pick x rest) (filter (hasKey k) rs))
    by (rewrite E; apply pick_In).
  apply filter_In in I. destruct I as [I Hk].
  unfold hasKey in Hk. apply String.eqb_eq in Hk. auto.
Qed.

Lemma keptFor_exists (rs : list ConsumerRecord) (x : ConsumerRecord) :
  In x rs -> Obj.inherited (propertyKey x) = false ->
  exists r, keptFor (propertyKey x) rs = Some r.
Proof.
  intros I Hk. unfold keptFor. rewrite Hk.
  destruct (filter (hasKey (propertyKey x)) rs) as [|y rest] eqn:E.
  - exfalso. assert (I' : In x (filter (hasKey (propertyKey x)) rs)).
    { apply filter_In. split; [exact I|]. unfold hasKey. apply String.eqb_refl. }
    rewrite E in I'. exact I'.
  - eexists. reflexivity.
Qed.

Lemma getUniqueConsumers_In (rs : list ConsumerRecord) (r : ConsumerRecord) :
  In r (getUniqueConsumers (Some (resultsOnly rs)))
  <-> keptFor (propertyKey r) rs = Some r.
Proof.
  unfold getUniqueConsumers, resultsOnly. cbn [results].
  rewrite values_In by apply dedup_NoDup. split.
  - intros [k E]. rewrite dedup_lookup in E.
    destruct (keptFor_origin _ _ _ E) as (_ & -> & _). exact E.
  - intros E. exists (propertyKey r). rewrite dedup_lookup. exact E.
Qed.

Lemma getUniqueConsumers_keys_NoDup (rs : list ConsumerRecord) :
  NoDup (List.map propertyKey (getUniqueConsumers (Some (resultsOnly rs)))).
Proof.
  unfold getUniqueConsumers, resultsOnly. cbn [results]. unfold Obj.values.
  rewrite map_map.
  assert (E : List.map (fun p => propertyKey (snd p)) (Obj.ownEntries (dedup rs))
              = List.map fst (Obj.ownEntries (dedup rs))).
  { apply map_ext_in. intros [k r] I. simpl.
    assert (I' : In (k, r) (dedup rs))
      by (eapply Permutation_in; [apply ownEntries_perm|exact I]).
    apply lookupOwn_In in I'; [|apply dedup_NoDup].
    rewrite dedup_lookup in I'. apply keptFor_origin in I'. tauto. }
  rewrite E.
  eapply Permutation_NoDup; [|apply dedup_NoDup].
  apply Permutation_map, Permutation_sym, ownEntries_perm.
Qed.

(** The first record filed under a key, when its score is absent, is the
    one returned, whatever follows. *)
Lemma pick_absent (rest : list ConsumerRecord) (cur : ConsumerRecord) :
  aggregate_risk_score cur = None -> pick cur rest = cur.
Proof.
  intros E. induction rest as [|x rest IH]; simpl; [reflexivity|].
  rewrite E, js_gt_absent_r. exact IH.
Qed.

Lemma NoDup_map_eq {A B : Type} (f : A -> B) (l : list A) (a b : A) :
  NoDup (List.map f l) -> In a l -> In b l -> f a = f b -> a = b.
Proof.
  induction l as [|x l IH]; simpl; intros Hnd Ha Hb E; [contradiction|].
  inversion Hnd as [|? ? Hni Hnd']; subst.
  destruct Ha as [<-|Ha], Hb as [<-|Hb].
  - reflexivity.
  - exfalso. apply Hni. rewrite E. apply in_map. exact Hb.
  - exfalso. apply Hni. rewrite <- E. apply in_map. exact Ha.
  - apply IH; assumption.
Qed.

End DedupFacts.

(* ================================================================== *)
(** * Facts about scores and ranking *)
(* ================================================================== *)

Section ScoreFacts.

Lemma riskKey_valid (r : ConsumerRecord) :
  Num.valid (riskKey r) /\ Num.is_nan (riskKey r) = false.
Proof.
  unfold riskKey, orZero.
  destruct (aggregate_risk_score r) as [[x Vx]|]; simpl.
  - destruct x; simpl in *; split; auto.
  - split; reflexivity.
Qed.

Lemma byRiskDescending_key (a b : ConsumerRecord) :
  comesAfter byRiskDescending a b = (sord a <? sord b).
Proof.
  unfold comesAfter, byRiskDescending, sord.
  destruct (riskKey_valid a) as [Va1 Va2].
  destruct (riskKey_valid b) as [Vb1 Vb2].
  apply sub_sign; assumption.
Qed.

Lemma ltb_sord (a b : ConsumerRecord) :
  Num.ltb (riskKey a) (riskKey b) = (sord a <? sord b).
Proof.
  destruct (riskKey_valid a). destruct (riskKey_valid b).
  unfold sord. apply ltb_ord; assumption.
Qed.

Lemma sameRisk_sord (x r : ConsumerRecord) :
  sameRisk x r = (sord r =? sord x).
Proof.
  destruct (riskKey_valid x). destruct (riskKey_valid r).
  unfold sameRisk, sord. apply eqb_ord; assumption.
Qed.

Lemma numericScore_sord (r : ConsumerRecord) :
  numericScore r ->
  exists x, aggregate_risk_score r = Some x
            /\ Num.is_nan (Num.value x) = false /\ sord r = Num.ord (Num.value x).
Proof.
  unfold numericScore, sord, riskKey, orZero.
  destruct (aggregate_risk_score r) as [x|]; [|tauto].
  intros N. exists x. repeat split; auto.
  destruct x as [x Vx]. simpl in *.
  destruct x; simpl in *; try reflexivity; discriminate.
Qed.

Lemma js_gt_sord (a b : ConsumerRecord) :
  numericScore a -> numericScore b ->
  js_gt (aggregate_risk_score a) (aggregate_risk_score b) = (sord b <? sord a).
Proof.
  intros Ha Hb.
  destruct (numericScore_sord a Ha) as (xa & Ea & Na & Sa).
  destruct (numericScore_sord b Hb) as (xb & Eb & Nb & Sb).
  rewrite Ea, Eb, Sa, Sb. unfold js_gt. simpl.
  apply ltb_ord; try assumption; apply Num.value_valid.
Qed.

Lemma sortDescendingByRisk_perm (records : list ConsumerRecord) :
  Permutation (sortDescendingByRisk records) records.
Proof. apply sort_perm. Qed.

Lemma sortDescendingByRisk_sorted (records : list ConsumerRecord) :
  StronglySorted notBelow (sortDescendingByRisk records).
Proof.
  unfold sortDescendingByRisk.
  apply StronglySorted_weaken with (R := descending sord).
  - intros a b Hab. unfold notBelow. rewrite ltb_sord. apply Z.ltb_ge. exact Hab.
  - apply sort_sorted. apply byRiskDescending_key.
Qed.

Lemma sortDescendingByRisk_stable (x : ConsumerRecord) (records : list ConsumerRecord) :
  filter (sameRisk x) (sortDescendingByRisk records) = filter (sameRisk x) records.
Proof.
  assert (Hext : forall l,
            filter (sameRisk x) l = filter (fun a => sord a =? sord x) l).
  { intros l. apply filter_ext. intros a. apply sameRisk_sord. }
  rewrite !Hext. unfold sortDescendingByRisk.
  apply sort_filter. apply byRiskDescending_key.
Qed.

Lemma pick_first_greatest (rest : list ConsumerRecord) : forall cur,
  Forall numericScore (cur :: rest) ->
  exists pre post,
    cur :: rest = pre ++ pick cur rest :: post
    /\ (forall r, In r pre -> sord r < sord (pick cur rest))
    /\ (forall r, In r post -> sord r <= sord (pick cur rest)).
Proof.
  induction rest as [|x rest IH]; intros cur Hall.
  - exists [], []. simpl. repeat split; intros r [].
  - inversion Hall as [|? ? Hc Hrest]; subst.
    inversion Hrest as [|? ? Hx Hrest']; subst.
    cbn [pick]. rewrite (js_gt_sord x cur Hx Hc).
    destruct (Z.ltb_spec (sord cur) (sord x)) as [Hlt|Hge].
    + destruct (IH x Hrest) as (pre & post & E & Hpre & Hpost).
      exists (cur :: pre), post. split; [simpl; rewrite <- E; reflexivity|].
      split; [|exact Hpost].
      intros r [<-|I]; [|apply Hpre; exact I].
      assert (Hxin : In x (pre ++ pick x rest :: post))
        by (rewrite <- E; left; reflexivity).
      apply in_app_or in Hxin. destruct Hxin as [I|[E'|I]].
      * specialize (Hpre _ I). lia.
      * rewrite E'. exact Hlt.
      * specialize (Hpost _ I). lia.
    + destruct (IH cur (Forall_cons _ Hc Hrest')) as (pre & post & E & Hpre & Hpost).
      destruct pre as [|c pre].
      * simpl in E. injection E as E1 E2. subst post.
        exists [], (x :: rest). simpl. rewrite <- E1.
        split; [reflexivity|]. split; [intros r []|].
        intros r [<-|I]; [exact Hge|].
        specialize (Hpost r I). rewrite <- E1 in Hpost. exact Hpost.
      * simpl in E. injection E as E1 E2. subst c.
        exists (cur :: x :: pre), post.
        split; [simpl; do 2 f_equal; exact E2|]. split; [|exact Hpost].
        assert (Hcur : sord cur < sord (pick cur rest)) by (apply Hpre; left; reflexivity).
        intros r [<-|[<-|I]]; [exact Hcur|lia|apply Hpre; right; exact I].
Qed.

Lemma filter_decompose {A : Type} (f : A -> bool) (l : list A) :
  forall pre' x post',
    filter f l = pre' ++ x :: post' ->
    exists pre post,
      l = pre ++ x :: post /\ filter f pre = pre' /\ filter f post = post'.
Proof.
  induction l as [|a l IH]; intros pre' x post' E.
  - destruct pre'; discriminate.
  - simpl in E. destruct (f a) eqn:Fa.
    + destruct pre' as [|b pre''].
      * simpl in E. injection E as <- E. exists [], l. auto.
      * simpl in E. injection E as <- E.
        destruct (IH _ _ _ E) as (pre & post & -> & E1 & E2).
        exists (a :: pre), post. simpl. rewrite Fa, E1. auto.
    + destruct (IH _ _ _ E) as (pre & post & -> & E1 & E2).
      exists (a :: pre), post. simpl. rewrite Fa. auto.
Qed.

Lemma keptFor_firstGreatest (rs : list ConsumerRecord) (kept : ConsumerRecord) :
  Forall numericScore rs ->
  keptFor (propertyKey kept) rs = Some kept ->
  firstGreatest rs kept.
Proof.
  intros Hall Hk. unfold keptFor in Hk.
  destruct (Obj.inherited (propertyKey kept)); [discriminate|].
  destruct (filter (hasKey (propertyKey kept)) rs) as [|x rest] eqn:E; [discriminate|].
  injection Hk as Hk.
  assert (Hf : Forall numericScore (x :: rest)).
  { rewrite <- E. rewrite Forall_forall in *. intros r I.
    apply filter_In in I. apply Hall, I. }
  destruct (pick_first_greatest rest x Hf) as (pre' & post' & E' & Hpre & Hpost).
  rewrite Hk in *. rewrite E' in E.
  destruct (filter_decompose _ _ _ _ _ E) as (pre & post & -> & E1 & E2).
  exists pre, post. split; [reflexivity|]. split.
  - intros r I Hr.
    rewrite ltb_sord. apply Z.ltb_lt. apply Hpre.
    rewrite <- E1. apply filter_In. split; [exact I|].
    unfold hasKey. apply String.eqb_eq. exact Hr.
  - intros r I Hr.
    rewrite ltb_sord. apply Z.ltb_ge. apply Hpost.
    rewrite <- E2. apply filter_In. split; [exact I|].
    unfold hasKey. apply String.eqb_eq. exact Hr.
Qed.

(** The same, when only the records filed under the key are known to
    carry numeric scores. *)
Lemma keptFor_firstGreatest_key (rs : list ConsumerRecord) (kept : ConsumerRecord) :
  (forall r, In r rs -> propertyKey r = propertyKey kept -> numericScore r) ->
  keptFor (propertyKey kept) rs = Some kept ->
  firstGreatest rs kept.
Proof.
  intros Hall Hk. unfold keptFor in Hk.
  destruct (Obj.inherited (propertyKey kept)); [discriminate|].
  destruct (filter (hasKey (propertyKey kept)) rs) as [|x rest] eqn:E; [discriminate|].
  injection Hk as Hk.
  assert (Hf : Forall numericScore (x :: rest)).
  { rewrite <- E. apply Forall_forall. intros r I.
    apply filter_In in I. destruct I as [I Hr]. apply Hall; [exact I|].
    unfold hasKey in Hr. apply String.eqb_eq. exact Hr. }
  destruct (pick_first_greatest rest x Hf) as (pre' & post' & E' & Hpre & Hpost).
  rewrite Hk in *. rewrite E' in E.
  destruct (filter_decompose _ _ _ _ _ E) as (pre & post & -> & E1 & E2).
  exists pre, post. split; [reflexivity|]. split.
  - intros r I Hr.
    rewrite ltb_sord. apply Z.ltb_lt. apply Hpre.
    rewrite <- E1. apply filter_In. split; [exact I|].
    unfold hasKey. apply String.eqb_eq. exact Hr.
  - intros r I Hr.
    rewrite ltb_sord. apply Z.ltb_ge. apply Hpost.
    rewrite <- E2. apply filter_In. split; [exact I|].
    unfold hasKey. apply String.eqb_eq. exact Hr.
Qed.

End ScoreFacts.

(* ================================================================== *)
(** * Facts about markers and tables *)
(* ================================================================== *)

Section MarkerFacts.

Lemma markerFor_skip_class (surface : Surface) (item : ConsumerRecord) :
  riskOf item <> "theft" -> riskOf item <> "critical" -> riskOf item <> "mild" ->
  markerFor surface item = None.
Proof.
  intros H1 H2 H3. unfold markerFor. fold (riskOf item).
  destruct (isNaN _ || isNaN _); [reflexivity|].
  apply String.eqb_neq in H1, H2, H3. rewrite H1, H2, H3. reflexivity.
Qed.

Lemma markerFor_color (surface : Surface) (item : ConsumerRecord) (m : Marker) :
  markerFor surface item = Some m ->
  fillColor (icon m) = (if String.eqb (riskOf item) "mild" then yellow else red)
  /\ position m = (parseFloat (latitude item), parseFloat (longitude item))
  /\ map m = Some surface
  /\ popupContent m = popup item.
Proof.
  unfold markerFor. fold (riskOf item).
  destruct (isNaN _ || isNaN _); [discriminate|].
  destruct (negb _ && negb _ && negb _); [discriminate|].
  intros E. injection E as <-.
  cbn [icon fillColor position map popupContent]. auto.
Qed.

Lemma markerFor_pinned (surface : Surface) (item : ConsumerRecord) :
  coordinatesParse item ->
  riskOf item = "theft" \/ riskOf item = "critical" \/ riskOf item = "mild" ->
  exists m, markerFor surface item = Some m.
Proof.
  intros [Hlat Hlng] Hr. unfold markerFor. fold (riskOf item).
  rewrite Hlat, Hlng. cbn [orb].
  destruct Hr as [E|[E|E]]; rewrite E; cbn [String.eqb Ascii.eqb Bool.eqb negb andb];
    eexists; reflexivity.
Qed.

Lemma markerFor_skip_nan (surface : Surface) (item : ConsumerRecord) :
  isNaN (parseFloat (latitude item)) = true
  \/ isNaN (parseFloat (longitude item)) = true ->
  markerFor surface item = None.
Proof.
  intros H. unfold markerFor.
  destruct H as [E|E]; rewrite E; [reflexivity|].
  rewrite orb_true_r. reflexivity.
Qed.

Lemma renderPass_app (surface : Surface) (l1 l2 : list ConsumerRecord) :
  renderPass surface (l1 ++ l2) = renderPass surface l1 ++ renderPass surface l2.
Proof.
  induction l1 as [|x l1 IH]; simpl; [reflexivity|].
  destruct (markerFor surface x); simpl; rewrite IH; reflexivity.
Qed.

End MarkerFacts.

(** [toFixed(0)] picks the integer nearest to the value [m * 2^e], the
    larger one of two. *)
Lemma roundHalfUp_nearest (m : positive) (e : Z) :
  let k := Z.max 0 (- e) in
  let n := JS.roundHalfUp m e in
  (2 * n - 1) * 2 ^ k <= 2 * (Zpos m * 2 ^ (e + k)) < (2 * n + 1) * 2 ^ k.
Proof.
  cbv zeta. unfold JS.roundHalfUp.
  destruct (Z.leb_spec 0 e) as [He|He].
  - replace (Z.max 0 (- e)) with 0 by lia. rewrite Z.add_0_r, Z.pow_0_r. lia.
  - replace (Z.max 0 (- e)) with (- e) by lia.
    replace (e + - e) with 0 by lia. rewrite Z.pow_0_r, Z.mul_1_r.
    assert (HD : 0 < 2 ^ (- e)) by (apply Z.pow_pos_nonneg; lia).
    replace (2 ^ (- e + 1)) with (2 * 2 ^ (- e))
      by (rewrite Z.pow_add_r by lia; lia).
    set (D := 2 ^ (- e)) in *.
    pose proof (Z.div_mod (2 * Zpos m + D) (2 * D) ltac:(lia)) as Hdm.
    pose proof (Z.mod_pos_bound (2 * Zpos m + D) (2 * D) ltac:(lia)) as Hmod.
    nia.
Qed.

Lemma isNormal_spec (r : ConsumerRecord) :
  isNormal r = true <-> risk_class r = Some "normal".
Proof.
  unfold isNormal. destruct (risk_class r) as [c|].
  - rewrite String.eqb_eq. split; congruence.
  - split; discriminate.
Qed.

Lemma normalItems_eq (d : AnalysisResult) :
  normalItems d = filter isNormal (orNil (results d)).
Proof. unfold normalItems, orNil. destruct (results d); reflexivity. Qed.

Lemma tableWhen_Some (shown : bool) (items : list ConsumerRecord) (rows : list Row) :
  tableWhen shown items = Some rows ->
  shown = true /\ items <> [] /\ rows = List.map renderRow items.
Proof.
  unfold tableWhen. destruct shown; [|discriminate].
  destruct items; [discriminate|]. intros E. injection E as <-.
  repeat split. discriminate.
Qed.


(* ================================================================== *)
(** * Worked examples *)
(* ================================================================== *)

(** [Object.values] lists the array-index keys first, in numeric order,
    then the other keys in creation order. *)
Example getUniqueConsumers_order :
  List.map consumer_id
    (getUniqueConsumers
       (Some (resultsOnly [ scored (Some "b") (Some score01);
                            scored (Some "10") (Some score03);
                            scored (Some "2") (Some score05);
                            scored (Some "b") (Some score07);
                            scored (Some "a") (Some score09) ])))
  = [Some "2"; Some "10"; Some "b"; Some "a"].
Proof. vm_compute. reflexivity. Qed.

Example parseFloat_examples :
  parseFloat (CStr "28.6") = literal_28_6
  /\ parseFloat (CStr "  28.6abc") = literal_28_6
  /\ parseFloat (CStr "286e-1") = literal_28_6
  /\ parseFloat (CStr ".") = Num.NaN
  /\ parseFloat (CStr EmptyString) = Num.NaN
  /\ parseFloat CAbsent = Num.NaN
  /\ parseFloat (CStr "-Infinity") = S754_infinity true
  /\ parseFloat (CStr "1e999") = S754_infinity false.
Proof. repeat split; vm_compute; reflexivity. Qed.

Example toFixed0_examples :
  JS.toFixed0 (Num.of_decimal false 25 (-1)) = "3"
  /\ JS.toFixed0 (Num.of_decimal true 4 (-1)) = "-0"
  /\ JS.toFixed0 (Num.of_decimal false 1 21) = "1e+21"
  /\ JS.toFixed0 (Num.mul (Num.of_decimal false 235 (-3)) Num.hundred) = "24".
Proof. repeat split; vm_compute; reflexivity. Qed.

(** The map is initialized on the sample data: one surface, one red
    marker for the [theft] record, nothing for the [normal] ones. *)
Example initializeMap_sample :
  let st := initializeMap workingLibrary (Some sampleData) mounted in
  googleMapRef st = Some surface0
  /\ constructed st = 1%nat
  /\ List.map (fun m => (title m, fillColor (icon m))) (markersRef st)
     = [("Consumer: C1 (theft)", red)].
Proof. vm_compute. repeat split. Qed.

(* ================================================================== *)
(** * The claims *)
(* ================================================================== *)

(** C1 (as amended).  For every input sequence whose records all carry a
    numeric score and none of whose keys is a property name inherited
    from [Object.prototype], [getUniqueConsumers] returns exactly one
    record per consumerId (a missing consumerId being filed under
    ["undefined"]): among the records sharing the id, the first one of
    greatest score.  The function reads nothing but its argument, so a
    repeated call returns the same list. *)
Theorem C1_getUniqueConsumers_first_greatest (rs : list ConsumerRecord) :
  Forall numericScore rs ->
  Forall (fun r => Obj.inherited (propertyKey r) = false) rs ->
  C1_statement rs.
Proof.
  intros Hs Hk. unfold C1_statement. cbv zeta.
  split; [apply getUniqueConsumers_keys_NoDup|]. split.
  - intros r I. rewrite Forall_forall in Hk.
    destruct (keptFor_exists rs r I (Hk r I)) as [kept E].
    destruct (keptFor_origin _ _ _ E) as (_ & Ek & _).
    exists kept. split; [|exact Ek].
    apply getUniqueConsumers_In. rewrite Ek. exact E.
  - intros kept I. apply getUniqueConsumers_In in I.
    apply keptFor_firstGreatest; assumption.
Qed.

(** Scores 0.3 and 0.7 under one id: the 0.7 record is the one kept. *)
Lemma C1_getUniqueConsumers_first_greatest_witness :
  getUniqueConsumers
    (Some (resultsOnly [scored (Some "A") (Some score03); scored (Some "A") (Some score07)]))
  = [scored (Some "A") (Some score07)]
  /\ C1_statement [scored (Some "A") (Some score03); scored (Some "A") (Some score07)].
Proof.
  split; [vm_compute; reflexivity|].
  apply C1_getUniqueConsumers_first_greatest.
  - repeat (apply Forall_cons; [reflexivity|]). apply Forall_nil.
  - repeat (apply Forall_cons; [reflexivity|]). apply Forall_nil.
Defined.

(** C1 as worded fails on a record without a score followed by one of
    score 0.7 (the first is kept), and on the id ["constructor"] (no
    record is returned). *)
Lemma C1_counterexample :
  ~ C1_statement [scored (Some "A") None; scored (Some "A") (Some score07)]
  /\ ~ C1_statement [scored (Some "constructor") (Some score07)].
Proof.
  split.
  - intros (_ & _ & H).
    destruct (H (scored (Some "A") None)) as (pre & post & E & _ & Hpost).
    { vm_compute. left. reflexivity. }
    destruct pre as [|a [|b [|c pre]]]; simpl in E; try discriminate.
    injection E as <-.
    specialize (Hpost (scored (Some "A") (Some score07)) (or_introl eq_refl) eq_refl).
    vm_compute in Hpost. discriminate.
  - intros (_ & H & _).
    destruct (H (scored (Some "constructor") (Some score07)) (or_introl eq_refl))
      as (kept & I & _).
    vm_compute in I. exact I.
Qed.

(** C2 (as amended).  The ranked view is built from [results] alone:
    it is the deduplication of [results], that is, it holds exactly the
    records the dedup rule keeps for the keys of [results], one for each
    distinct key that is not an inherited name, each an element of
    [results]; [anomalies] is never read, and the view is empty when
    [data] or [results] is absent. *)
Theorem C2_ranked_view_from_results_only (d : AnalysisResult) :
  let view := getUniqueConsumers (Some d) in
  view = Obj.values (dedup (orNil (results d)))
  /\ (forall r, In r view <-> keptFor (propertyKey r) (orNil (results d)) = Some r)
  /\ (forall r, In r view -> In r (orNil (results d)))
  /\ (forall r, In r (orNil (results d)) ->
        Obj.inherited (propertyKey r) = false ->
        exists kept, In kept view /\ propertyKey kept = propertyKey r)
  /\ NoDup (List.map propertyKey view)
  /\ (forall a,
        getUniqueConsumers
          (Some {| summary := summary d; anomalies := a; results := results d |})
        = view)
  /\ (results d = None -> view = [])
  /\ getUniqueConsumers None = [].
Proof.
  cbv zeta.
  assert (E : getUniqueConsumers (Some d)
              = getUniqueConsumers (Some (resultsOnly (orNil (results d))))).
  { unfold getUniqueConsumers, resultsOnly, orNil. cbn [results].
    destruct (results d); reflexivity. }
  assert (Hin : forall r, In r (getUniqueConsumers (Some d))
                  <-> keptFor (propertyKey r) (orNil (results d)) = Some r).
  { intros r. rewrite E. apply getUniqueConsumers_In. }
  split; [rewrite E; reflexivity|]. split; [exact Hin|]. split.
  { intros r I. apply Hin, keptFor_origin in I. apply I. }
  split.
  { intros r I Hk. destruct (keptFor_exists _ r I Hk) as [kept Ek].
    destruct (keptFor_origin _ _ _ Ek) as (_ & Hkey & _).
    exists kept. split; [|exact Hkey]. apply Hin. rewrite Hkey. exact Ek. }
  split; [rewrite E; apply getUniqueConsumers_keys_NoDup|].
  split; [reflexivity|]. split; [|reflexivity].
  intros Hn. unfold getUniqueConsumers. rewrite Hn. reflexivity.
Qed.

(** On the sample data, whose [anomalies] is not empty, the view holds
    the record of C1, an element of [results], and a record for the key
    C2 of [results]. *)
Lemma C2_ranked_view_from_results_only_witness :
  In (located "C1" delhiLat delhiLng (Some score07) (Some "theft"))
     (getUniqueConsumers (Some sampleData))
  /\ In (located "C1" delhiLat delhiLng (Some score07) (Some "theft"))
        (orNil (results sampleData))
  /\ exists kept,
       In kept (getUniqueConsumers (Some sampleData)) /\ propertyKey kept = "C2".
Proof.
  destruct (C2_ranked_view_from_results_only sampleData)
    as (_ & Hin & Hsub & Hcov & _).
  assert (I : In (located "C1" delhiLat delhiLng (Some score07) (Some "theft"))
                (getUniqueConsumers (Some sampleData))).
  { apply Hin. vm_compute. reflexivity. }
  split; [exact I|]. split; [exact (Hsub _ I)|].
  apply (Hcov (located "C2" delhiLat delhiLng (Some score0145) (Some "normal"))).
  - right. left. reflexivity.
  - reflexivity.
Defined.

(** C2 as worded fails when [results] is absent and [anomalies] holds
    one record: the ranked view is empty. *)
Lemma C2_counterexample :
  ~ C2_statement {| summary := None;
                    anomalies := Some [scored (Some "A") (Some score07)];
                    results := None |}.
Proof. unfold C2_statement. vm_compute. discriminate. Qed.

(** C3 (as amended).  The class is compared after lower-casing.  A
    record whose lower-cased class is none of [theft], [critical],
    [mild] (so [normal], an absent class, any other text) produces no
    marker; when both coordinates parse, [mild] produces a yellow
    marker and [theft] and [critical] a red one; no marker has another
    colour. *)
Theorem C3_marker_filter_and_colors (surface : Surface) (item : ConsumerRecord) :
  (riskOf item <> "theft" -> riskOf item <> "critical" -> riskOf item <> "mild" ->
   markerFor surface item = None)
  /\ (risk_class item = Some "normal" -> markerFor surface item = None)
  /\ (coordinatesParse item -> riskOf item = "mild" ->
      exists m, markerFor surface item = Some m /\ fillColor (icon m) = yellow)
  /\ (coordinatesParse item -> riskOf item = "theft" \/ riskOf item = "critical" ->
      exists m, markerFor surface item = Some m /\ fillColor (icon m) = red)
  /\ (forall m, markerFor surface item = Some m ->
      fillColor (icon m) = yellow /\ riskOf item = "mild"
      \/ fillColor (icon m) = red
         /\ (riskOf item = "theft" \/ riskOf item = "critical")).
Proof.
  split; [apply markerFor_skip_class|]. split; [|split; [|split]].
  - intros E. apply markerFor_skip_class; unfold riskOf; rewrite E; discriminate.
  - intros Hc E. destruct (markerFor_pinned surface item Hc) as [m Hm]; [tauto|].
    exists m. split; [exact Hm|].
    apply markerFor_color in Hm. destruct Hm as [-> _]. rewrite E. reflexivity.
  - intros Hc E. destruct (markerFor_pinned surface item Hc) as [m Hm]; [tauto|].
    exists m. split; [exact Hm|].
    apply markerFor_color in Hm. destruct Hm as [-> _].
    destruct E as [->| ->]; reflexivity.
  - intros m Hm. pose proof (markerFor_color _ _ _ Hm) as [Hc _].
    destruct (String.eqb_spec (riskOf item) "mild") as [E|N].
    + left. auto.
    + right. split; [exact Hc|].
      destruct (String.eqb_spec (riskOf item) "theft") as [E1|N1]; [auto|].
      destruct (String.eqb_spec (riskOf item) "critical") as [E2|N2]; [auto|].
      rewrite (markerFor_skip_class surface item N1 N2 N) in Hm. discriminate.
Qed.

(** The classes [unknown] and [normal] are not pinned, [mild] is pinned
    yellow and [Theft] red. *)
Lemma C3_marker_filter_and_colors_witness :
  markerFor surface0 (located "C9" delhiLat delhiLng (Some score07) (Some "unknown")) = None
  /\ markerFor surface0 (located "C9" delhiLat delhiLng (Some score07) (Some "normal")) = None
  /\ (exists m, markerFor surface0 (located "C9" delhiLat delhiLng (Some score07) (Some "mild"))
                = Some m /\ fillColor (icon m) = yellow)
  /\ (exists m, markerFor surface0 (located "C9" delhiLat delhiLng (Some score07) (Some "Theft"))
                = Some m /\ fillColor (icon m) = red).
Proof.
  split; [|split; [|split]].
  - destruct (C3_marker_filter_and_colors surface0
                (located "C9" delhiLat delhiLng (Some score07) (Some "unknown")))
      as (H & _).
    apply H; vm_compute; discriminate.
  - destruct (C3_marker_filter_and_colors surface0
                (located "C9" delhiLat delhiLng (Some score07) (Some "normal")))
      as (_ & H & _).
    apply H. reflexivity.
  - destruct (C3_marker_filter_and_colors surface0
                (located "C9" delhiLat delhiLng (Some score07) (Some "mild")))
      as (_ & _ & H & _).
    apply H; [split; vm_compute; reflexivity|vm_compute; reflexivity].
  - destruct (C3_marker_filter_and_colors surface0
                (located "C9" delhiLat delhiLng (Some score07) (Some "Theft")))
      as (_ & _ & _ & H & _).
    apply H; [split; vm_compute; reflexivity|left; vm_compute; reflexivity].
Defined.

(** C3 as worded fails on the class ["THEFT"], not one of the four
    recognized names yet pinned red, and on a [mild] record whose
    latitude is ["N/A"], which gets no marker. *)
Lemma C3_counterexample :
  ~ C3_statement (located "C9" delhiLat delhiLng (Some score07) (Some "THEFT"))
  /\ ~ C3_statement (located "C9" (CStr "N/A") delhiLng (Some score07) (Some "mild")).
Proof.
  split.
  - intros H. destruct (H surface0) as (H1 & _ & _).
    assert (E : markerFor surface0
                  (located "C9" delhiLat delhiLng (Some score07) (Some "THEFT")) = None).
    { apply H1. right. exists "THEFT". repeat split; discriminate. }
    vm_compute in E. discriminate.
  - intros H. destruct (H surface0) as (_ & H2 & _).
    destruct (H2 eq_refl) as (m & E & _).
    vm_compute in E. discriminate.
Qed.

(** C4 (as amended).  An element without [consumer_id] is not dropped
    and nothing is counted: all such elements are filed under the key
    ["undefined"], and the output holds exactly one record of that key.
    It is the element of the input the dedup rule keeps: the first
    element filed under the key, replaced by a later one only when that
    one's score is strictly greater than the stored one's, the
    comparison being false when either score is absent (so a first
    element without score is kept); when all the elements filed under
    the key carry numeric scores it is the first one of greatest score.
    It is itself an element without [consumer_id] unless some record
    carries the id ["undefined"]. *)
Theorem C4_missing_id_filed_under_undefined
    (rs : list ConsumerRecord) (r : ConsumerRecord) :
  In r rs -> consumer_id r = None ->
  exists kept,
    In kept (getUniqueConsumers (Some (resultsOnly rs)))
    /\ In kept rs
    /\ propertyKey kept = "undefined"
    /\ (forall other, In other (getUniqueConsumers (Some (resultsOnly rs))) ->
          propertyKey other = "undefined" -> other = kept)
    /\ (exists first rest,
          filter (hasKey "undefined") rs = first :: rest
          /\ kept = pick first rest
          /\ (aggregate_risk_score first = None -> kept = first))
    /\ ((forall x, In x rs -> propertyKey x = "undefined" -> numericScore x) ->
          firstGreatest rs kept)
    /\ ((forall x, In x rs -> consumer_id x <> Some "undefined") ->
          consumer_id kept = None).
Proof.
  intros I E.
  assert (Hk : propertyKey r = "undefined") by (unfold propertyKey; rewrite E; reflexivity).
  destruct (keptFor_exists rs r I) as [kept Ek].
  { rewrite Hk. reflexivity. }
  rewrite Hk in Ek.
  destruct (keptFor_origin _ _ _ Ek) as (Hin & Hkey & _).
  assert (Hout : In kept (getUniqueConsumers (Some (resultsOnly rs)))).
  { apply getUniqueConsumers_In. rewrite Hkey. exact Ek. }
  exists kept.
  split; [exact Hout|]. split; [exact Hin|]. split; [exact Hkey|]. split.
  { intros other Ho Eo.
    apply (NoDup_map_eq propertyKey _ other kept
             (getUniqueConsumers_keys_NoDup rs) Ho Hout). congruence. }
  split.
  { assert (Ek' := Ek). unfold keptFor in Ek'.
    change (Obj.inherited "undefined") with false in Ek'. cbv iota in Ek'.
    destruct (filter (hasKey "undefined") rs) as [|first rest]; [discriminate|].
    injection Ek' as Ek'. exists first, rest.
    split; [reflexivity|]. split; [symmetry; exact Ek'|].
    intros Hnone. rewrite <- Ek'. apply pick_absent. exact Hnone. }
  split.
  { intros Hnum. apply keptFor_firstGreatest_key.
    - intros x Ix Ex. apply Hnum; [exact Ix|]. rewrite Ex. exact Hkey.
    - rewrite Hkey. exact Ek. }
  intros Hno. specialize (Hno kept Hin).
  unfold propertyKey, ToString in Hkey.
  destruct (consumer_id kept) as [s|]; [|reflexivity].
  subst s. contradiction.
Qed.

(** Two elements without [consumer_id] and with scores 0.3 and 0.7: the
    one of greater score is returned, it is the first of greatest score
    and it has no [consumer_id]. *)
Lemma C4_missing_id_filed_under_undefined_witness :
  getUniqueConsumers
    (Some (resultsOnly [scored None (Some score03); scored None (Some score07)]))
  = [scored None (Some score07)]
  /\ exists kept,
       In kept (getUniqueConsumers
                  (Some (resultsOnly [scored None (Some score03); scored None (Some score07)])))
       /\ firstGreatest [scored None (Some score03); scored None (Some score07)] kept
       /\ consumer_id kept = None.
Proof.
  split; [vm_compute; reflexivity|].
  destruct (C4_missing_id_filed_under_undefined
              [scored None (Some score03); scored None (Some score07)]
              (scored None (Some score03)))
    as (kept & Hout & _ & _ & _ & _ & Hfirst & Hnone).
  - left. reflexivity.
  - reflexivity.
  - exists kept. split; [exact Hout|]. split.
    + apply Hfirst. intros x [<-|[<-|[]]] _; reflexivity.
    + apply Hnone. intros x [<-|[<-|[]]]; discriminate.
Defined.

(** C4 as worded fails on a single element without [consumer_id]: it is
    returned. *)
Lemma C4_counterexample : ~ C4_statement [scored None (Some score07)].
Proof.
  intros H. apply (H (scored None (Some score07))).
  - vm_compute. left. reflexivity.
  - reflexivity.
Qed.

(** C5.  [sortDescendingByRisk] returns a permutation of its argument in
    which no record is followed by one of strictly greater score, the
    records of equal score keeping their input order; A (0.1), B (0.9),
    C (0.5) come out as B, C, A. *)
Theorem C5_sortDescendingByRisk_descending_stable :
  (forall records,
      Permutation (sortDescendingByRisk records) records
      /\ StronglySorted notBelow (sortDescendingByRisk records)
      /\ (forall x, filter (sameRisk x) (sortDescendingByRisk records)
                    = filter (sameRisk x) records))
  /\ sortDescendingByRisk [recordA; recordB; recordC] = [recordB; recordC; recordA]
  /\ sortDescendingByRisk [recordA; recordD; recordB; recordC]
     = [recordB; recordD; recordC; recordA].
Proof.
  split; [|split; vm_compute; reflexivity].
  intros records. split; [apply sortDescendingByRisk_perm|].
  split; [apply sortDescendingByRisk_sorted|].
  intros x. apply sortDescendingByRisk_stable.
Qed.

(** C6 (as amended).  A record one of whose coordinates parses to NaN
    (absent, ["N/A"], any text without a numeric prefix) is skipped, the
    render pass going on as if the record were not there. *)
Theorem C6_unparseable_coordinate_skipped
    (surface : Surface) (item : ConsumerRecord) (before after : list ConsumerRecord) :
  isNaN (parseFloat (latitude item)) = true
  \/ isNaN (parseFloat (longitude item)) = true ->
  markerFor surface item = None
  /\ renderPass surface (before ++ item :: after)
     = renderPass surface (before ++ after).
Proof.
  intros H. pose proof (markerFor_skip_nan surface item H) as E.
  split; [exact E|].
  rewrite !renderPass_app. cbn [renderPass]. rewrite E. reflexivity.
Qed.

(** The latitude ["N/A"] parses to NaN: the record is skipped and its
    neighbours are rendered. *)
Lemma C6_unparseable_coordinate_skipped_witness :
  parseFloat (CStr "N/A") = Num.NaN
  /\ markerFor surface0 (located "C7" (CStr "N/A") delhiLng (Some score07) (Some "theft")) = None
  /\ renderPass surface0
       ([located "C1" delhiLat delhiLng (Some score07) (Some "theft")]
        ++ located "C7" (CStr "N/A") delhiLng (Some score07) (Some "theft")
        :: [located "C2" delhiLat delhiLng (Some score03) (Some "mild")])
     = renderPass surface0
         ([located "C1" delhiLat delhiLng (Some score07) (Some "theft")]
          ++ [located "C2" delhiLat delhiLng (Some score03) (Some "mild")]).
Proof.
  split; [reflexivity|].
  apply (C6_unparseable_coordinate_skipped surface0
           (located "C7" (CStr "N/A") delhiLng (Some score07) (Some "theft"))).
  left. reflexivity.
Defined.

(** C6 as worded fails on the latitude ["Infinity"]: it does not parse
    as a finite number, yet the guard lets the record through and a
    marker is constructed at that latitude. *)
Lemma C6_counterexample :
  ~ C6_statement (located "C7" (CStr "Infinity") delhiLng (Some score07) (Some "theft")).
Proof.
  intros H. specialize (H surface0 (or_introl eq_refl)).
  vm_compute in H. discriminate.
Qed.

(** C7.  The normal-entries table is absent until the viewer toggles
    [showAll]; when it is rendered, [showAll] is set and its rows are,
    one per record, the entries of [results] whose [risk_class] is
    ['normal'], no row being followed by one of strictly greater score;
    it is rendered after one click as soon as there is such an entry. *)
Theorem C7_normal_entries_table :
  (forall data, normalTableOf (ResultsDisplay data initialShowAll) = None)
  /\ (forall data showAll rows,
        normalTableOf (ResultsDisplay data showAll) = Some rows ->
        showAll = true
        /\ exists d,
             data = Some d
             /\ rows = List.map renderRow (sortedNormalItems d)
             /\ Permutation (sortedNormalItems d) (filter isNormal (orNil (results d)))
             /\ (forall r, In r (sortedNormalItems d)
                           <-> In r (orNil (results d)) /\ risk_class r = Some "normal")
             /\ StronglySorted notBelow (sortedNormalItems d))
  /\ (forall d s,
        summary d = Some s -> normalItems d <> [] ->
        normalTableOf (ResultsDisplay (Some d) (toggleShowAll initialShowAll))
        = Some (List.map renderRow (sortedNormalItems d))).
Proof.
  split; [|split].
  - intros [d|]; [|reflexivity]. simpl. destruct (summary d); reflexivity.
  - intros data showAll rows H.
    destruct data as [d|]; [|discriminate]. simpl in H.
    destruct (summary d) as [s|]; [|discriminate]. simpl in H.
    apply tableWhen_Some in H. destruct H as (Hs & _ & Hr).
    split; [exact Hs|]. exists d. split; [reflexivity|]. split; [exact Hr|].
    assert (Hp : Permutation (sortedNormalItems d) (filter isNormal (orNil (results d)))).
    { unfold sortedNormalItems. rewrite normalItems_eq.
      apply sortDescendingByRisk_perm. }
    split; [exact Hp|]. split.
    + intros r. rewrite <- isNormal_spec, <- filter_In. split.
      * apply Permutation_in. exact Hp.
      * apply Permutation_in, Permutation_sym. exact Hp.
    + apply sortDescendingByRisk_sorted.
  - intros d s Hs Hn. simpl. rewrite Hs. simpl.
    unfold tableWhen, sortedNormalItems.
    destruct (sortDescendingByRisk (normalItems d)) as [|x l] eqn:E; [|reflexivity].
    exfalso. apply Hn. apply Permutation_nil.
    rewrite <- E. apply sortDescendingByRisk_perm.
Qed.

(** On the sample data the table is hidden until toggled, then lists
    C3 (0.3) before C2 (0.145). *)
Lemma C7_normal_entries_table_witness :
  normalTableOf (ResultsDisplay (Some sampleData) false) = None
  /\ List.map consumerCell
       (match normalTableOf (ResultsDisplay (Some sampleData) true) with
        | Some rows => rows
        | None => []
        end) = [Some "C3"; Some "C2"]
  /\ exists d,
       Some sampleData = Some d
       /\ Permutation (sortedNormalItems d) (filter isNormal (orNil (results d)))
       /\ StronglySorted notBelow (sortedNormalItems d).
Proof.
  split; [reflexivity|]. split; [vm_compute; reflexivity|].
  destruct C7_normal_entries_table as (_ & H & _).
  destruct (H (Some sampleData) true
              (List.map renderRow (sortedNormalItems sampleData)))
    as (_ & d & Ed & _ & Hp & _ & Hs).
  - vm_compute. reflexivity.
  - exists d. split; [exact Ed|]. split; [exact Hp|exact Hs].
Defined.

(** C8 (as amended).  The popup of every marker shows the record's
    consumerId and, after [Risk: ], the result of [toFixed(0)] on the
    binary64 product [(score || 0) * 100] followed by [%]: for a finite
    product of magnitude below 10^21, a minus sign when the product is
    negative, then the integer nearest to the magnitude of the product,
    the larger one of two.  This is rounding half up for the products
    of non-negative scores and half away from zero for negative ones.
    The score 0.145 displays as 14%, its product being
    14.499999999999998; the score -0.025, whose product is exactly
    -2.5, displays as -3%. *)
Theorem C8_popup_percentage (surface : Surface) (item : ConsumerRecord) (mk : Marker) :
  markerFor surface item = Some mk ->
  popupContent mk
  = (Str.newline ++ Str.spaces 20
     ++ "<div style=" ++ Str.dquote ++ "color: black; padding: 5px;" ++ Str.dquote ++ ">"
     ++ Str.newline ++ Str.spaces 24
     ++ "<strong>ID: " ++ ToString (consumer_id item) ++ "</strong><br/>"
     ++ Str.newline ++ Str.spaces 24
     ++ "Risk: " ++ JS.toFixed0 (product item) ++ "%"
     ++ Str.newline ++ Str.spaces 20
     ++ "</div>"
     ++ Str.newline ++ Str.spaces 16)%string
  /\ (forall s m e,
        product item = S754_finite s m e ->
        (0 <= e -> Zpos m * 2 ^ e < 10 ^ 21) ->
        let k := Z.max 0 (- e) in
        exists n,
          JS.toFixed0 (product item)
          = ((if s then "-" else EmptyString) ++ Str.of_N (Z.to_N n))%string
          /\ (2 * n - 1) * 2 ^ k <= 2 * (Zpos m * 2 ^ (e + k)) < (2 * n + 1) * 2 ^ k)
  /\ (forall s, product item = S754_zero s -> JS.toFixed0 (product item) = "0").
Proof.
  intros Hm. apply markerFor_color in Hm. destruct Hm as (_ & _ & _ & Hp).
  split; [exact Hp|]. split.
  - intros s m e E Hlt. cbv zeta. exists (JS.roundHalfUp m e).
    split; [|apply roundHalfUp_nearest].
    rewrite E. unfold JS.toFixed0.
    destruct ((0 <=? e) && (10 ^ 21 <=? Zpos m * 2 ^ e)) eqn:Hb; [|reflexivity].
    apply andb_true_iff in Hb. destruct Hb as [He Hb].
    apply Z.leb_le in He, Hb. specialize (Hlt He). lia.
  - intros s E. rewrite E. reflexivity.
Qed.

(** The scores 0.145 and 0.155 display as 14% and 16%, and the score
    -0.025, of product -2.5, as -3%: the integer 3 is the larger of the
    two nearest to the magnitude 2.5. *)
Lemma C8_popup_percentage_witness :
  JS.toFixed0 (product (located "C1" delhiLat delhiLng (Some score0145) (Some "theft"))) = "14"
  /\ JS.toFixed0 (product (located "C1" delhiLat delhiLng (Some score0155) (Some "theft"))) = "16"
  /\ JS.toFixed0 (product (located "C1" delhiLat delhiLng (Some scoreMinus0025) (Some "theft")))
     = "-3"
  /\ (exists n,
        JS.toFixed0
          (product (located "C1" delhiLat delhiLng (Some scoreMinus0025) (Some "theft")))
        = ("-" ++ Str.of_N (Z.to_N n))%string
        /\ (2 * n - 1) * 2 ^ Z.max 0 (- (-51))
           <= 2 * (5629499534213120 * 2 ^ (-51 + Z.max 0 (- (-51))))
           < (2 * n + 1) * 2 ^ Z.max 0 (- (-51)))
  /\ exists mk,
       markerFor surface0 (located "C1" delhiLat delhiLng (Some score0145) (Some "theft"))
       = Some mk
       /\ popupContent mk
          = (Str.newline ++ Str.spaces 20
             ++ "<div style=" ++ Str.dquote ++ "color: black; padding: 5px;" ++ Str.dquote ++ ">"
             ++ Str.newline ++ Str.spaces 24
             ++ "<strong>ID: C1</strong><br/>"
             ++ Str.newline ++ Str.spaces 24
             ++ "Risk: 14%"
             ++ Str.newline ++ Str.spaces 20
             ++ "</div>"
             ++ Str.newline ++ Str.spaces 16)%string.
Proof.
  split; [vm_compute; reflexivity|]. split; [vm_compute; reflexivity|].
  split; [vm_compute; reflexivity|]. split.
  - destruct (markerFor surface0
                (located "C1" delhiLat delhiLng (Some scoreMinus0025) (Some "theft")))
      as [mk|] eqn:Em.
    + destruct (C8_popup_percentage surface0 _ mk Em) as (_ & H & _).
      apply (H true 5629499534213120%positive (-51)).
      * vm_compute. reflexivity.
      * intros He. exfalso. apply He. reflexivity.
    + exfalso. vm_compute in Em. discriminate Em.
  - eexists. split; [vm_compute; reflexivity|].
    match goal with
    | |- popupContent ?m = _ =>
        destruct (C8_popup_percentage surface0
                    (located "C1" delhiLat delhiLng (Some score0145) (Some "theft")) m)
          as (H & _)
    end.
    + vm_compute. reflexivity.
    + rewrite H. vm_compute. reflexivity.
Defined.

(** C8 as worded fails on its own example: the score 0.145 displays as
    14%, not 15%. *)
Lemma C8_counterexample :
  ~ C8_statement (located "C1" delhiLat delhiLng (Some score0145) (Some "theft")).
Proof.
  intros H. specialize (H eq_refl). vm_compute in H. discriminate.
Qed.

(** C9.  Once [initializeMap] has built a map surface, a second call,
    or a second ready signal of the poll, changes nothing: the stored
    surface is the same and no other surface is constructed. *)
Theorem C9_initializeMap_idempotent
    (google1 google2 : MapsLibrary) (data1 data2 : option AnalysisResult)
    (st : State) (surface : Surface) :
  googleMapRef (initializeMap google1 data1 st) = Some surface ->
  initializeMap google2 data2 (initializeMap google1 data1 st)
  = initializeMap google1 data1 st
  /\ googleMapRef (initializeMap google2 data2 (initializeMap google1 data1 st))
     = Some surface
  /\ constructed (initializeMap google2 data2 (initializeMap google1 data1 st))
     = constructed (initializeMap google1 data1 st)
  /\ fst (checkForGoogleMaps (Some google2) data2 (initializeMap google1 data1 st))
     = initializeMap google1 data1 st.
Proof.
  intros H.
  assert (E : initializeMap google2 data2 (initializeMap google1 data1 st)
              = initializeMap google1 data1 st).
  { set (st1 := initializeMap google1 data1 st) in *.
    unfold initializeMap. rewrite H. destruct (mapRef st1); reflexivity. }
  cbn [checkForGoogleMaps fst]. rewrite E. auto.
Qed.

(** Two calls on a mounted component construct one surface. *)
Lemma C9_initializeMap_idempotent_witness :
  constructed (initializeMap workingLibrary None mounted) = 1%nat
  /\ constructed (initializeMap workingLibrary None
                    (initializeMap workingLibrary None mounted)) = 1%nat.
Proof.
  split; [reflexivity|].
  destruct (C9_initializeMap_idempotent workingLibrary workingLibrary None None mounted
              {| host := 1; serial := 0 |} eq_refl) as (_ & _ & H & _).
  rewrite H. reflexivity.
Defined.

(** C10.  In the dedup pass, when a record is already stored under the
    item's key and the score of the item or of the stored record is
    absent, the step changes nothing: the comparison [>] is false in
    both directions, the first-encountered record stays, whatever the
    other score. *)
Theorem C10_absent_score_keeps_first (o : Obj.t) (item stored : ConsumerRecord) :
  Obj.lookupOwn o (propertyKey item) = Some stored ->
  aggregate_risk_score item = None \/ aggregate_risk_score stored = None ->
  dedupStep o item = o.
Proof.
  intros El Habs. unfold dedupStep, Obj.get. rewrite El.
  cbn [Obj.truthy Obj.score negb].
  destruct Habs as [E|E]; rewrite E.
  - rewrite js_gt_absent_l. reflexivity.
  - rewrite js_gt_absent_r. reflexivity.
Qed.

(** A stored record without score is not replaced by a score of 0.7,
    and a record without score does not replace a stored 0.3. *)
Lemma C10_absent_score_keeps_first_witness :
  dedupStep (dedup [scored (Some "A") None]) (scored (Some "A") (Some score07))
  = dedup [scored (Some "A") None]
  /\ dedupStep (dedup [scored (Some "A") (Some score03)]) (scored (Some "A") None)
     = dedup [scored (Some "A") (Some score03)].
Proof.
  split.
  - apply (C10_absent_score_keeps_first _ _ (scored (Some "A") None)).
    + reflexivity.
    + right. reflexivity.
  - apply (C10_absent_score_keeps_first _ _ (scored (Some "A") (Some score03))).
    + reflexivity.
    + left. reflexivity.
Defined.

(* ================================================================== *)
(** * Further properties of the code *)
(* ================================================================== *)

(* ================================================================== *)
(** ** Facts about the order of the keys *)
(* ================================================================== *)

Section KeyOrderFacts.

Lemma filter_twice {A : Type} (f g : A -> bool) (l : list A) :
  filter f (filter g l) = filter (fun x => g x && f x) l.
Proof.
  induction l as [|x l IH]; simpl; [reflexivity|].
  destruct (g x); simpl; [destruct (f x)|]; rewrite IH; reflexivity.
Qed.

Lemma map_fst_filter {A B : Type} (f : A -> bool) (l : list (A * B)) :
  List.map fst (filter (fun p => f (fst p)) l) = filter f (List.map fst l).
Proof.
  induction l as [|[a b] l IH]; simpl; [reflexivity|].
  destruct (f a); simpl; rewrite IH; reflexivity.
Qed.

Lemma firstOccurrences_In (k : string) (l : list string) :
  In k (firstOccurrences l) <-> In k l.
Proof.
  induction l as [|x l IH]; simpl; [tauto|].
  rewrite filter_In, IH.
  destruct (String.eqb_spec k x) as [E|N]; simpl.
  - split; [intros [H|[H _]]; auto|intros _; left; congruence].
  - split; [intros [H|[H _]]; auto|intros [H|H]; [congruence|auto]].
Qed.

Lemma firstOccurrences_NoDup (l : list string) : NoDup (firstOccurrences l).
Proof.
  induction l as [|x l IH]; simpl; constructor.
  - rewrite filter_In. intros [_ H]. rewrite String.eqb_refl in H. discriminate.
  - apply NoDup_filter. exact IH.
Qed.

(** The keys of the dictionary after one step. *)
Lemma dedupStep_keys (o : Obj.t) (x : ConsumerRecord) :
  List.map fst (dedupStep o x)
  = match Obj.lookupOwn o (propertyKey x) with
    | Some _ => List.map fst o
    | None =>
        if assignable (propertyKey x) then List.map fst o ++ [propertyKey x]
        else List.map fst o
    end.
Proof.
  unfold dedupStep, Obj.get, assignable.
  destruct (Obj.lookupOwn o (propertyKey x)) as [stored|] eqn:El;
    cbn [Obj.truthy Obj.score negb].
  - destruct (js_gt _ _); [|reflexivity].
    unfold Obj.set. rewrite El. apply keys_replace.
  - destruct (Obj.inherited (propertyKey x)); cbn [Obj.truthy Obj.score negb].
    + rewrite js_gt_absent_r. reflexivity.
    + unfold Obj.set. rewrite El, map_app. reflexivity.
Qed.

Lemma absentFrom_spec (keys : list string) (k : string) :
  absentFrom keys k = true <-> ~ In k keys.
Proof.
  unfold absentFrom. rewrite negb_true_iff.
  destruct (existsb (String.eqb k) keys) eqn:E.
  - apply existsb_exists in E. destruct E as [k' [I E]].
    apply String.eqb_eq in E. subst k'. split; [discriminate|tauto].
  - split; [|reflexivity]. intros _ I.
    assert (H : existsb (String.eqb k) keys = true).
    { apply existsb_exists. exists k. split; [exact I|apply String.eqb_refl]. }
    congruence.
Qed.

Lemma fold_dedupStep_keys (l : list ConsumerRecord) : forall o,
  List.map fst (fold_left dedupStep l o)
  = List.map fst o ++ filter (absentFrom (List.map fst o)) (filedKeys l).
Proof.
  unfold filedKeys.
  induction l as [|x l IH]; intros o.
  - simpl. rewrite app_nil_r. reflexivity.
  - cbn [fold_left List.map filter]. rewrite IH, dedupStep_keys.
    set (rest := firstOccurrences (filter assignable (List.map propertyKey l))).
    destruct (Obj.lookupOwn o (propertyKey x)) as [stored|] eqn:El.
    + assert (I : In (propertyKey x) (List.map fst o)).
      { destruct (in_dec string_dec (propertyKey x) (List.map fst o)) as [I|NI];
          [exact I|]. apply lookupOwn_None in NI. congruence. }
      f_equal. destruct (assignable (propertyKey x)); [|reflexivity].
      cbn [firstOccurrences filter]. fold rest.
      assert (A0 : absentFrom (List.map fst o) (propertyKey x) = false).
      { destruct (absentFrom _ _) eqn:E; [|reflexivity].
        apply absentFrom_spec in E. contradiction. }
      rewrite A0, filter_twice. apply filter_ext_in. intros k _.
      destruct (String.eqb_spec k (propertyKey x)) as [->|N]; simpl.
      * rewrite A0. reflexivity.
      * reflexivity.
    + apply lookupOwn_None in El.
      destruct (assignable (propertyKey x)); [|reflexivity].
      cbn [firstOccurrences filter]. fold rest.
      assert (A1 : absentFrom (List.map fst o) (propertyKey x) = true)
        by (apply absentFrom_spec; exact El).
      rewrite A1, <- app_assoc. cbn [app]. f_equal. f_equal.
      rewrite filter_twice. apply filter_ext. intros k.
      unfold absentFrom. rewrite existsb_app. cbn [existsb].
      rewrite orb_false_r, negb_orb. apply andb_comm.
Qed.

Lemma dedup_keys (rs : list ConsumerRecord) :
  List.map fst (dedup rs) = filedKeys rs.
Proof.
  unfold dedup. rewrite fold_dedupStep_keys. simpl.
  rewrite <- (filter_ext (fun _ => true)) by reflexivity.
  induction (filedKeys rs) as [|k l IH]; simpl; congruence.
Qed.

(** Every entry of the dictionary is filed under the key of its record. *)
Lemma dedup_entry (rs : list ConsumerRecord) (k : string) (r : ConsumerRecord) :
  In (k, r) (dedup rs) -> propertyKey r = k /\ Obj.inherited k = false.
Proof.
  intros I. apply lookupOwn_In in I; [|apply dedup_NoDup].
  rewrite dedup_lookup in I. apply keptFor_origin in I. tauto.
Qed.

Lemma arrayIndex_canonical (k : string) (n : N) :
  Obj.arrayIndex k = Some n -> k = Str.of_N n.
Proof.
  unfold Obj.arrayIndex.
  destruct (Str.takeDigits 0 0 k) as [[v cnt] rest].
  destruct rest; [|discriminate].
  destruct (String.eqb_spec (Str.of_N v) k) as [E|N]; simpl; [|discriminate].
  destruct (v <=? 4294967294)%N; [|discriminate].
  intros H. injection H as <-. symmetry. exact E.
Qed.

Lemma indexOf_inj (a b : string) :
  Obj.isIndex a = true -> Obj.isIndex b = true ->
  Obj.indexOf a = Obj.indexOf b -> a = b.
Proof.
  unfold Obj.isIndex, Obj.indexOf.
  destruct (Obj.arrayIndex a) as [n|] eqn:Ea; [|discriminate].
  destruct (Obj.arrayIndex b) as [m|] eqn:Eb; [|discriminate].
  intros _ _ ->. apply arrayIndex_canonical in Ea, Eb. congruence.
Qed.

Lemma insertByIndex_sorted (p : string * ConsumerRecord) (l : Obj.t) :
  StronglySorted indexNotAfter l ->
  StronglySorted indexNotAfter (Obj.insertByIndex p l).
Proof.
  intros Hs. induction Hs as [|q l Hs IH Hq]; simpl.
  - repeat constructor.
  - destruct (N.leb_spec (Obj.indexOf (fst p)) (Obj.indexOf (fst q))) as [Hle|Hgt].
    + constructor; [constructor; assumption|].
      constructor; [exact Hle|].
      eapply Forall_impl; [|exact Hq]. unfold indexNotAfter. intros; lia.
    + constructor; [exact IH|].
      eapply Permutation_Forall; [apply Permutation_sym, insertByIndex_perm|].
      constructor; [unfold indexNotAfter; lia|exact Hq].
Qed.

Lemma sortByIndex_sorted (l : Obj.t) : StronglySorted indexNotAfter (Obj.sortByIndex l).
Proof.
  induction l as [|p l IH]; simpl; [constructor|].
  apply insertByIndex_sorted. exact IH.
Qed.

Lemma sortByIndex_fixed (l : Obj.t) :
  StronglySorted indexNotAfter l -> Obj.sortByIndex l = l.
Proof.
  intros Hs. induction Hs as [|p l Hs IH Hp]; [reflexivity|].
  cbn [Obj.sortByIndex fold_right].
  change (fold_right Obj.insertByIndex [] l) with (Obj.sortByIndex l).
  rewrite IH. destruct l as [|q l']; [reflexivity|].
  cbn [Obj.insertByIndex].
  inversion Hp as [|? ? Hpq _]; subst.
  unfold indexNotAfter in Hpq. apply N.leb_le in Hpq. rewrite Hpq. reflexivity.
Qed.

Lemma filter_all {A : Type} (f : A -> bool) (l : list A) :
  Forall (fun x => f x = true) l -> filter f l = l.
Proof.
  induction 1 as [|x l Hx _ IH]; simpl; [reflexivity|]. rewrite Hx, IH. reflexivity.
Qed.

Lemma filter_none {A : Type} (f : A -> bool) (l : list A) :
  Forall (fun x => f x = false) l -> filter f l = [].
Proof.
  induction 1 as [|x l Hx _ IH]; simpl; [reflexivity|]. rewrite Hx, IH. reflexivity.
Qed.

Lemma Forall_kept {A : Type} (f : A -> bool) (l : list A) :
  Forall (fun x => f x = true) (filter f l).
Proof.
  apply Forall_forall. intros x I. apply filter_In in I. tauto.
Qed.

(** Enumerating the own properties of an enumeration changes nothing. *)
Lemma ownEntries_fixed (o : Obj.t) : Obj.ownEntries (Obj.ownEntries o) = Obj.ownEntries o.
Proof.
  unfold Obj.ownEntries.
  set (S := Obj.sortByIndex (filter (fun p => Obj.isIndex (fst p)) o)).
  set (N := filter (fun p => negb (Obj.isIndex (fst p))) o).
  assert (HS : Forall (fun p => Obj.isIndex (fst p) = true) S).
  { eapply Permutation_Forall; [apply Permutation_sym, sortByIndex_perm|].
    apply (Forall_kept (fun p => Obj.isIndex (fst p))). }
  assert (HN : Forall (fun p => negb (Obj.isIndex (fst p)) = true) N)
    by apply (Forall_kept (fun p => negb (Obj.isIndex (fst p)))).
  rewrite !filter_app.
  rewrite (filter_all _ S HS).
  rewrite (filter_none (fun p => Obj.isIndex (fst p)) N).
  2:{ eapply Forall_impl; [|exact HN]. intros p Hp. simpl in Hp.
      apply negb_true_iff in Hp. exact Hp. }
  rewrite (filter_none (fun p => negb (Obj.isIndex (fst p))) S).
  2:{ eapply Forall_impl; [|exact HS]. intros p Hp. simpl in Hp.
      rewrite Hp. reflexivity. }
  rewrite (filter_all _ N HN), app_nil_r. cbn [app].
  rewrite sortByIndex_fixed; [reflexivity|]. apply sortByIndex_sorted.
Qed.

(** A list of entries with distinct assignable keys, each the key of its
    record, is rebuilt as it is by the dedup pass over its records. *)
Lemma fold_dedupStep_distinct (E : Obj.t) : forall o,
  NoDup (List.map fst (o ++ E)) ->
  (forall k r, In (k, r) E -> propertyKey r = k /\ Obj.inherited k = false) ->
  fold_left dedupStep (List.map snd E) o = o ++ E.
Proof.
  induction E as [|[k r] E IH]; intros o Hnd HE.
  - simpl. rewrite app_nil_r. reflexivity.
  - cbn [List.map snd fold_left].
    destruct (HE k r (or_introl eq_refl)) as [Hk Hi].
    assert (Hl : Obj.lookupOwn o k = None).
    { apply lookupOwn_None. intros I.
      rewrite map_app in Hnd. cbn [List.map fst] in Hnd.
      apply NoDup_remove_2 in Hnd. apply Hnd. apply in_or_app. left. exact I. }
    assert (Hs : dedupStep o r = o ++ [(k, r)]).
    { unfold dedupStep, Obj.get. rewrite Hk, Hl, Hi. cbn [Obj.truthy negb].
      unfold Obj.set. rewrite Hl. reflexivity. }
    rewrite Hs, IH.
    + rewrite <- app_assoc. reflexivity.
    + rewrite <- app_assoc. exact Hnd.
    + intros k' r' I. apply HE. right. exact I.
Qed.

Lemma StronglySorted_map {A B : Type} (f : A -> B) (R : B -> B -> Prop) (l : list A) :
  StronglySorted (fun a b => R (f a) (f b)) l -> StronglySorted R (List.map f l).
Proof.
  induction 1 as [|x l Hs IH Hx]; simpl; constructor; [exact IH|].
  apply Forall_map. exact Hx.
Qed.

Lemma sorted_distinct_indices (l : list string) :
  StronglySorted (fun a b => (Obj.indexOf a <= Obj.indexOf b)%N) l ->
  Forall (fun k => Obj.isIndex k = true) l ->
  NoDup l ->
  StronglySorted indexBefore l.
Proof.
  induction 1 as [|x l Hs IH Hx]; intros Hi Hnd; constructor.
  - apply IH; [inversion Hi|inversion Hnd]; assumption.
  - inversion Hi as [|? ? Hix Hil]; inversion Hnd as [|? ? Hni _]; subst.
    rewrite Forall_forall in *. intros y Iy. unfold indexBefore.
    specialize (Hx y Iy). simpl in Hx.
    destruct (N.eq_dec (Obj.indexOf x) (Obj.indexOf y)) as [E|N]; [|lia].
    exfalso. apply Hni.
    rewrite (indexOf_inj x y Hix (Hil y Iy) E). exact Iy.
Qed.

Lemma values_keys (rs : list ConsumerRecord) :
  List.map propertyKey (Obj.values (dedup rs))
  = List.map fst (Obj.ownEntries (dedup rs)).
Proof.
  unfold Obj.values. rewrite map_map.
  apply map_ext_in. intros [k r] I. simpl.
  assert (I' : In (k, r) (dedup rs))
    by (eapply Permutation_in; [apply ownEntries_perm|exact I]).
  apply dedup_entry in I'. tauto.
Qed.

End KeyOrderFacts.

(* ================================================================== *)
(** ** Facts about the life of the component *)
(* ================================================================== *)

Section LifeFacts.

Lemma markerFor_pinnable (surface : Surface) (item : ConsumerRecord) :
  markerFor surface item
  = if pinnable item then
      Some {| position := parsedPosition item;
              map := Some surface;
              icon := {| fillColor := colorOf item;
                         fillOpacity := literal_0_8;
                         strokeWeight := literal_2;
                         strokeColor := "white";
                         scale := literal_8 |};
              title := ("Consumer: " ++ ToString (consumer_id item)
                        ++ " (" ++ ToString (risk_class item) ++ ")")%string;
              popupContent := popup item |}
    else None.
Proof.
  unfold markerFor, pinnable, colorOf, parsedPosition, riskOf.
  destruct (isNaN (parseFloat (latitude item)) || isNaN (parseFloat (longitude item)));
    cbn [negb andb]; [reflexivity|].
  destruct (String.eqb _ "theft"); cbn [negb andb orb]; [reflexivity|].
  destruct (String.eqb _ "critical"); cbn [negb andb orb]; [reflexivity|].
  destruct (String.eqb _ "mild"); reflexivity.
Qed.

Lemma renderPass_wellPinned (surface : Surface) (consumers : list ConsumerRecord) :
  Forall (fun m => wellPinned m /\ map m = Some surface) (renderPass surface consumers).
Proof.
  induction consumers as [|item rest IH]; cbn [renderPass]; [constructor|].
  rewrite markerFor_pinnable. destruct (pinnable item) eqn:Hp; [|exact IH].
  constructor; [|exact IH].
  unfold wellPinned, parsedPosition, colorOf. cbn [position fst snd icon fillColor map].
  unfold pinnable in Hp. apply andb_true_iff in Hp. destruct Hp as [Hn _].
  apply negb_true_iff, orb_false_iff in Hn. destruct Hn as [Hlat Hlng].
  repeat split; try assumption.
  destruct (String.eqb (riskOf item) "mild"); [right|left]; reflexivity.
Qed.

Lemma setMapNull_detached (l : list Marker) :
  Forall (fun m => map m = None) (List.map setMapNull l).
Proof. apply Forall_map, Forall_forall. intros m _. reflexivity. Qed.

Lemma updateMarkers_consistent (element : nat) (data : option AnalysisResult) (st : State) :
  consistent element st -> consistent element (updateMarkers data st).
Proof.
  intros H. unfold updateMarkers.
  destruct (googleMapRef st) as [surface|] eqn:E; [|exact H].
  destruct H as (H1 & H2 & H3 & H4 & H5 & H6).
  unfold consistent.
  cbn [constructed mapRef googleMapRef markersRef detached].
  split; [exact H1|]. split; [exact H2|]. split; [discriminate|].
  split; [intros s Hs; injection Hs as <-; apply H4; exact E|]. split.
  - eapply Forall_impl; [|apply renderPass_wellPinned].
    intros m [Hw Hm]. split; [exact Hw|]. right. exact Hm.
  - apply Forall_app. split; [exact H6|apply setMapNull_detached].
Qed.

Lemma onDataChange_updateMarkers (data : option AnalysisResult) (st : State) :
  onDataChange data st = updateMarkers data st.
Proof.
  unfold onDataChange, updateMarkers. destruct (googleMapRef st); reflexivity.
Qed.

Lemma cleanup_consistent (element : nat) (st : State) :
  consistent element st -> consistent element (detachRef (cleanup st)).
Proof.
  intros (H1 & H2 & H3 & H4 & H5 & H6). unfold consistent, detachRef, cleanup.
  cbn [constructed mapRef googleMapRef markersRef detached].
  split; [exact H1|]. split; [left; reflexivity|].
  split.
  { intros E. destruct (H3 E) as [Hc Hm]. rewrite Hm. auto. }
  split; [exact H4|]. split.
  - apply Forall_map. eapply Forall_impl; [|exact H5].
    intros m [(Ha & Hb & Hc) _]. split; [|left; reflexivity].
    unfold wellPinned. cbn [setMapNull position icon]. auto.
  - apply Forall_app. split; [exact H6|apply setMapNull_detached].
Qed.

Lemma initializeMap_consistent (element : nat) (lib : MapsLibrary)
    (data : option AnalysisResult) (st : State) :
  consistent element st -> consistent element (initializeMap lib data st).
Proof.
  intros H. unfold initializeMap.
  destruct (mapRef st) as [el|] eqn:Em; [|exact H].
  destruct (googleMapRef st) as [surface|] eqn:Eg; [exact H|].
  destruct H as (H1 & H2 & H3 & H4 & H5 & H6).
  destruct (H3 Eg) as [Hc Hm].
  assert (Hel : el = element) by (destruct H2 as [H2|H2]; congruence).
  destruct (mapConstructorThrows lib el).
  - unfold consistent. cbn [constructed mapRef googleMapRef markersRef detached].
    rewrite Hc, Hm, Hel.
    split; [apply Nat.le_0_1|]. split; [right; reflexivity|]. split; [auto|].
    split; [discriminate|]. split; [constructor|exact H6].
  - apply updateMarkers_consistent.
    unfold consistent. cbn [constructed mapRef googleMapRef markersRef detached].
    rewrite Hc, Hm, Hel.
    split; [apply le_n|]. split; [right; reflexivity|]. split; [discriminate|].
    split; [|split; [constructor|exact H6]].
    intros s Hs. injection Hs as <-. auto.
Qed.

Lemma attach_consistent (element : nat) : consistent element (attach element).
Proof.
  unfold consistent, attach. cbn [constructed mapRef googleMapRef markersRef detached].
  repeat split; auto; discriminate.
Qed.

Lemma step_consistent (element : nat) (c : Component) (e : Event) :
  consistent element (refs c) -> consistent element (refs (step c e)).
Proof.
  intros H. destruct e as [google|data|]; cbn [step].
  - unfold tick. destruct (timer c); [|exact H].
    destruct google as [lib|]; cbn [checkForGoogleMaps refs]; [|exact H].
    apply initializeMap_consistent. exact H.
  - cbn [dataChange refs]. rewrite onDataChange_updateMarkers.
    apply updateMarkers_consistent. exact H.
  - cbn [unmount refs]. apply cleanup_consistent. exact H.
Qed.

Lemma mount_consistent (element : nat) (google : option MapsLibrary)
    (data : option AnalysisResult) :
  consistent element (refs (mount element google data)).
Proof.
  unfold mount. destruct google as [lib|]; cbn [checkForGoogleMaps refs];
    rewrite onDataChange_updateMarkers; apply updateMarkers_consistent.
  - apply initializeMap_consistent, attach_consistent.
  - apply attach_consistent.
Qed.

Lemma run_app (c : Component) (l1 l2 : list Event) :
  run c (l1 ++ l2) = run (run c l1) l2.
Proof. apply fold_left_app. Qed.

Lemma updateMarkers_sameSurface (data : option AnalysisResult) (st : State) :
  googleMapRef (updateMarkers data st) = googleMapRef st
  /\ error (updateMarkers data st) = error st
  /\ constructed (updateMarkers data st) = constructed st
  /\ mapRef (updateMarkers data st) = mapRef st.
Proof.
  unfold updateMarkers. destruct (googleMapRef st) eqn:E; cbn; auto.
Qed.

(** An event other than the firing of a scheduled re-check leaves the
    surface alone. *)
Lemma step_settled (c : Component) (e : Event) :
  timer c = false -> timer (step c e) = false /\ sameSurface c (step c e).
Proof.
  intros Ht. destruct e as [google|data|]; cbn [step].
  - unfold tick. rewrite Ht. unfold sameSurface. auto.
  - unfold sameSurface. cbn [dataChange refs timer].
    rewrite onDataChange_updateMarkers.
    destruct (updateMarkers_sameSurface data (refs c)) as (A & B & C & _). auto.
  - unfold sameSurface. cbn [unmount refs timer detachRef cleanup
                             googleMapRef error constructed]. auto.
Qed.

Lemma run_settled (events : list Event) : forall c,
  timer c = false -> timer (run c events) = false /\ sameSurface c (run c events).
Proof.
  induction events as [|e events IH]; intros c Ht.
  - cbn. unfold sameSurface. auto.
  - cbn [run fold_left]. destruct (step_settled c e Ht) as [Ht' (A & B & C)].
    destruct (IH _ Ht') as [Ht'' (A' & B' & C')].
    split; [exact Ht''|]. unfold sameSurface. unfold run in *.
    rewrite A', B', C'. auto.
Qed.

Lemma initializeMap_unmounted (lib : MapsLibrary) (data : option AnalysisResult)
    (st : State) :
  mapRef st = None -> initializeMap lib data st = st.
Proof. intros E. unfold initializeMap. rewrite E. reflexivity. Qed.

Lemma step_unmounted (c : Component) (e : Event) :
  mapRef (refs c) = None ->
  mapRef (refs (step c e)) = None /\ sameSurface c (step c e).
Proof.
  intros Hm. unfold sameSurface. destruct e as [google|data|]; cbn [step].
  - unfold tick. destruct (timer c); [|auto].
    destruct google as [lib|]; cbn [checkForGoogleMaps refs]; [|auto].
    rewrite initializeMap_unmounted by exact Hm. auto.
  - cbn [dataChange refs]. rewrite onDataChange_updateMarkers.
    destruct (updateMarkers_sameSurface data (refs c)) as (A & B & C & D).
    rewrite D. auto.
  - cbn [unmount refs detachRef cleanup mapRef googleMapRef error constructed].
    auto.
Qed.

Lemma run_unmounted (events : list Event) : forall c,
  mapRef (refs c) = None -> sameSurface c (run c events).
Proof.
  induction events as [|e events IH]; intros c Hm.
  - cbn. unfold sameSurface. auto.
  - cbn [run fold_left]. destruct (step_unmounted c e Hm) as (Hm' & A & B & C).
    destruct (IH _ Hm') as (A' & B' & C').
    unfold sameSurface, run in *. rewrite A', B', C'. auto.
Qed.

Lemma run_consistent (element : nat) (events : list Event) : forall c,
  consistent element (refs c) -> consistent element (refs (run c events)).
Proof.
  induction events as [|e events IH]; intros c H; [exact H|].
  cbn [run fold_left]. apply IH, step_consistent, H.
Qed.

(** A marker update keeps no marker without detaching it. *)
Lemma updateMarkers_keeps_or_detaches
    (data : option AnalysisResult) (st : State) (m : Marker) :
  In m (markersRef st) ->
  In m (markersRef (updateMarkers data st))
  \/ In (setMapNull m) (detached (updateMarkers data st)).
Proof.
  intros I. unfold updateMarkers. destruct (googleMapRef st); [|left; exact I].
  right. cbn [detached]. apply in_or_app. right. apply in_map. exact I.
Qed.

Lemma updateMarkers_detached_grows
    (data : option AnalysisResult) (st : State) (x : Marker) :
  In x (detached st) -> In x (detached (updateMarkers data st)).
Proof.
  intros I. unfold updateMarkers. destruct (googleMapRef st); [|exact I].
  cbn [detached]. apply in_or_app. left. exact I.
Qed.

Lemma initializeMap_keeps_or_detaches
    (lib : MapsLibrary) (data : option AnalysisResult) (st : State) (m : Marker) :
  In m (markersRef st) ->
  In m (markersRef (initializeMap lib data st))
  \/ In (setMapNull m) (detached (initializeMap lib data st)).
Proof.
  intros I. unfold initializeMap.
  destruct (mapRef st); [|left; exact I].
  destruct (googleMapRef st); [left; exact I|].
  destruct (mapConstructorThrows lib n); [left; exact I|].
  apply updateMarkers_keeps_or_detaches. exact I.
Qed.

Lemma initializeMap_detached_grows
    (lib : MapsLibrary) (data : option AnalysisResult) (st : State) (x : Marker) :
  In x (detached st) -> In x (detached (initializeMap lib data st)).
Proof.
  intros I. unfold initializeMap.
  destruct (mapRef st); [|exact I].
  destruct (googleMapRef st); [exact I|].
  destruct (mapConstructorThrows lib n); [exact I|].
  apply updateMarkers_detached_grows. exact I.
Qed.

(** No event makes the component forget a marker that is still on the
    map: a marker held before the event is held after it, or has been
    detached. *)
Lemma step_keeps_or_detaches (c : Component) (e : Event) (m : Marker) :
  In m (markersRef (refs c)) ->
  In m (markersRef (refs (step c e)))
  \/ In (setMapNull m) (detached (refs (step c e))).
Proof.
  intros I. destruct e as [google|data|]; cbn [step].
  - unfold tick. destruct (timer c); [|left; exact I].
    destruct google as [lib|]; cbn [checkForGoogleMaps refs]; [|left; exact I].
    apply initializeMap_keeps_or_detaches. exact I.
  - cbn [dataChange refs]. rewrite onDataChange_updateMarkers.
    apply updateMarkers_keeps_or_detaches. exact I.
  - right. cbn [unmount refs detachRef cleanup detached].
    apply in_or_app. right. apply in_map. exact I.
Qed.

Lemma step_detached_grows (c : Component) (e : Event) (x : Marker) :
  In x (detached (refs c)) -> In x (detached (refs (step c e))).
Proof.
  intros I. destruct e as [google|data|]; cbn [step].
  - unfold tick. destruct (timer c); [|exact I].
    destruct google as [lib|]; cbn [checkForGoogleMaps refs]; [|exact I].
    apply initializeMap_detached_grows. exact I.
  - cbn [dataChange refs]. rewrite onDataChange_updateMarkers.
    apply updateMarkers_detached_grows. exact I.
  - cbn [unmount refs detachRef cleanup detached]. apply in_or_app. left. exact I.
Qed.

Lemma run_detached_grows (events : list Event) : forall c x,
  In x (detached (refs c)) -> In x (detached (refs (run c events))).
Proof.
  induction events as [|e events IH]; intros c x I; [exact I|].
  cbn [run fold_left]. apply IH, step_detached_grows, I.
Qed.

Lemma run_keeps_or_detaches (events : list Event) : forall c m,
  In m (markersRef (refs c)) ->
  In m (markersRef (refs (run c events)))
  \/ In (setMapNull m) (detached (refs (run c events))).
Proof.
  induction events as [|e events IH]; intros c m I; [left; exact I|].
  cbn [run fold_left].
  destruct (step_keeps_or_detaches c e m I) as [H|H].
  - apply IH. exact H.
  - right. apply (run_detached_grows events (step c e)). exact H.
Qed.

Lemma run_stillWaiting (element : nat) (data : option AnalysisResult)
    (waiting : list Event) :
  Forall stillWaiting waiting ->
  run (mount element None data) waiting = mount element None data.
Proof.
  induction 1 as [|e waiting He _ IH]; [reflexivity|].
  cbn [run fold_left]. destruct e as [[lib|]|d|]; try contradiction; exact IH.
Qed.

(** A component whose first detection of the library throws. *)
Lemma settled_failure (element : nat) (c : Component) (events : list Event) :
  timer c = false ->
  consistent element (refs c) ->
  error (refs c) = Some "Google Maps API loaded but initialization failed." ->
  googleMapRef (refs c) = None ->
  failedForGood (refs (run c events)).
Proof.
  intros Ht Hk He Hg.
  destruct (run_settled events c Ht) as [_ (Hs & He' & Hc)].
  assert (Hk' : consistent element (refs (run c events)))
    by (apply run_consistent; exact Hk).
  destruct Hk as (_ & _ & Hnone & _). destruct (Hnone Hg) as [Hc0 _].
  destruct Hk' as (_ & _ & Hnone' & _).
  rewrite Hg in Hs. destruct (Hnone' Hs) as [_ Hmk].
  unfold failedForGood. rewrite He', He, Hs, Hmk, Hc, Hc0. auto.
Qed.

End LifeFacts.

Lemma getUniqueConsumers_resultsOf (data : option AnalysisResult) :
  getUniqueConsumers data = getUniqueConsumers (Some (resultsOnly (resultsOf data))).
Proof.
  destruct data as [d|]; [|reflexivity].
  unfold getUniqueConsumers, resultsOf, resultsOnly, orNil. cbn [results].
  destruct (results d); reflexivity.
Qed.

Lemma NoDup_map_filter {A B : Type} (f : A -> B) (p : A -> bool) (l : list A) :
  NoDup (List.map f l) -> NoDup (List.map f (filter p l)).
Proof.
  induction l as [|x l IH]; cbn [List.map filter]; intros H; [constructor|].
  inversion H as [|? ? Hni Hnd]; subst.
  destruct (p x); cbn [List.map]; [|apply IH; exact Hnd].
  constructor; [|apply IH; exact Hnd].
  intros I. apply Hni. apply in_map_iff in I. destruct I as [y [E Iy]].
  apply filter_In in Iy. apply in_map_iff. exists y. tauto.
Qed.


(* ================================================================== *)
(** ** Facts about sorted input *)
(* ================================================================== *)

Section SortedInputFacts.

Context {A : Type}.
Variable comparefn : A -> A -> number.
Variable key : A -> Z.
Hypothesis comparefn_key :
  forall a b, comesAfter comparefn a b = (key a <? key b).

(** An element that ranks at least as high as the head stays in front. *)
Lemma insertSorted_front (x : A) (l : list A) :
  Forall (descending key x) l -> insertSorted comparefn x l = x :: l.
Proof.
  intros H. destruct H as [|y l Hy _]; [reflexivity|].
  cbn [insertSorted]. rewrite (comparefn_key x y).
  unfold descending in Hy. apply Z.ltb_ge in Hy. rewrite Hy. reflexivity.
Qed.

Lemma sort_fixed (l : list A) :
  StronglySorted (descending key) l -> sort comparefn l = l.
Proof.
  intros Hs. induction Hs as [|x l Hs IH Hx]; [reflexivity|].
  cbn [sort fold_right].
  change (fold_right (insertSorted comparefn) [] l) with (sort comparefn l).
  rewrite IH. apply insertSorted_front. exact Hx.
Qed.

Lemma insertSorted_select (f : A -> bool) (x : A) (l : list A) :
  StronglySorted (descending key) l ->
  filter f (insertSorted comparefn x l)
  = if f x then insertSorted comparefn x (filter f l) else filter f l.
Proof.
  intros Hs. induction Hs as [|y l Hs IH Hy].
  - cbn [insertSorted filter]. destruct (f x); reflexivity.
  - cbn [insertSorted]. rewrite (comparefn_key x y).
    destruct (Z.ltb_spec (key x) (key y)) as [Hlt|Hge].
    + cbn [filter]. rewrite IH. destruct (f y) eqn:Fy.
      * destruct (f x); [|reflexivity].
        cbn [insertSorted]. rewrite (comparefn_key x y).
        apply Z.ltb_lt in Hlt. rewrite Hlt. reflexivity.
      * destruct (f x); reflexivity.
    + assert (Hall : Forall (descending key x) (y :: l)).
      { constructor; [exact Hge|].
        eapply Forall_impl; [|exact Hy]. unfold descending. intros; lia. }
      change (filter f (x :: y :: l)) with
        (if f x then x :: filter f (y :: l) else filter f (y :: l)).
      destruct (f x); [|reflexivity].
      symmetry. apply insertSorted_front.
      rewrite Forall_forall in *. intros z Iz. apply Hall.
      apply filter_In in Iz. tauto.
Qed.

Lemma sort_select (f : A -> bool) (l : list A) :
  filter f (sort comparefn l) = sort comparefn (filter f l).
Proof.
  induction l as [|x l IH]; [reflexivity|].
  cbn [sort fold_right filter].
  change (fold_right (insertSorted comparefn) [] l) with (sort comparefn l).
  rewrite insertSorted_select by (apply sort_sorted; exact comparefn_key).
  rewrite IH. destruct (f x); reflexivity.
Qed.

End SortedInputFacts.

(* ================================================================== *)
(** ** Facts about the App handlers *)
(* ================================================================== *)

Section AppFacts.

Lemma read_assign (files : App.Files) (id id' : string) (file : option App.File) :
  App.read (App.assign files id file) id'
  = if String.eqb id id' then file else App.read files id'.
Proof.
  induction files as [|[k v] files IH]; cbn [App.assign App.read].
  - destruct (String.eqb id id'); reflexivity.
  - destruct (String.eqb_spec k id) as [E|N]; cbn [App.read].
    + subst k. destruct (String.eqb id id'); reflexivity.
    + rewrite IH. destruct (String.eqb_spec k id') as [E'|N'].
      * subst k. destruct (String.eqb_spec id id'); [congruence|reflexivity].
      * reflexivity.
Qed.

Lemma app_one_neq {A : Type} (l : list A) (x : A) : l ++ [x] <> l.
Proof.
  intros E. apply (f_equal (@List.length A)) in E.
  rewrite length_app in E. simpl in E. lia.
Qed.

Lemma finish_not_loading (outcome : App.Outcome) (st : App.State) :
  App.loading (App.handleFetch_finish outcome st) = false.
Proof. destruct outcome; reflexivity. Qed.

Lemma step_oneInFlight (s : App.Session) (e : App.Event) :
  oneInFlight s -> oneInFlight (App.step s e).
Proof.
  unfold oneInFlight. intros [Hle Hiff].
  destruct e as [id file| |outcome]; cbn [App.step].
  - cbn [App.state App.pending App.handleFileUpload App.loading]. auto.
  - unfold App.click. destruct (App.loading (App.state s)) eqn:El.
    + cbn [App.state App.pending]. rewrite El. auto.
    + assert (Hp : App.pending s = 0%nat).
      { destruct (App.pending s) as [|[|n]]; [reflexivity| |lia].
        destruct Hiff as [_ H]. discriminate (H eq_refl). }
      unfold App.handleFetch_start.
      destruct (App.read (App.files (App.state s)) "source");
        cbn [App.state App.pending App.loading]; rewrite Hp.
      * split; [apply le_n|]. split; reflexivity.
      * split; [apply Nat.le_0_1|]. split; discriminate.
  - destruct (App.pending s) as [|n] eqn:Hp.
    + rewrite Hp. auto.
    + cbn [App.state App.pending]. rewrite finish_not_loading.
      assert (n = 0%nat) by lia. subst n.
      split; [apply Nat.le_0_1|]. split; discriminate.
Qed.

End AppFacts.

(* ================================================================== *)
(** ** getUniqueConsumers *)
(* ================================================================== *)

(** [getUniqueConsumers] returns one record for each distinct
    [consumer_id] of the input that is not a name inherited from
    [Object.prototype], and none for any other key; it never returns
    more records than it was given. *)
Theorem getUniqueConsumers_one_per_key (rs : list ConsumerRecord) :
  let out := getUniqueConsumers (Some (resultsOnly rs)) in
  NoDup (List.map propertyKey out)
  /\ (forall k, In k (List.map propertyKey out)
        <-> Obj.inherited k = false /\ exists r, In r rs /\ propertyKey r = k)
  /\ (List.length out <= List.length rs)%nat.
Proof.
  intros out.
  assert (Hnd : NoDup (List.map propertyKey out))
    by apply getUniqueConsumers_keys_NoDup.
  assert (Hin : forall k, In k (List.map propertyKey out)
            <-> Obj.inherited k = false /\ exists r, In r rs /\ propertyKey r = k).
  { intros k. rewrite in_map_iff. split.
    - intros [r [Ek I]]. apply getUniqueConsumers_In in I.
      rewrite Ek in I. apply keptFor_origin in I.
      destruct I as (I & _ & Hi). split; [exact Hi|]. exists r. auto.
    - intros [Hi [r [I Ek]]]. subst k.
      destruct (keptFor_exists rs r I Hi) as [kept E].
      exists kept. destruct (keptFor_origin _ _ _ E) as (_ & Ek & _).
      split; [exact Ek|]. apply getUniqueConsumers_In. rewrite Ek. exact E. }
  split; [exact Hnd|]. split; [exact Hin|].
  rewrite <- (length_map propertyKey out), <- (length_map propertyKey rs).
  apply NoDup_incl_length; [exact Hnd|].
  intros k I. apply Hin in I. destruct I as [_ [r [I <-]]].
  apply in_map. exact I.
Qed.

(** The order of the records [getUniqueConsumers] returns is the
    order in which [Object.values] enumerates the keys: first the ids
    that are array indices, in ascending numeric order, then the other
    ids in the order of their first occurrence in the input.  When no id
    is an array index the output follows the first occurrences. *)
Theorem getUniqueConsumers_key_order (rs : list ConsumerRecord) :
  let keys := List.map propertyKey (getUniqueConsumers (Some (resultsOnly rs))) in
  (exists indices,
      keys = indices ++ filter notIndex (filedKeys rs)
      /\ Permutation indices (filter Obj.isIndex (filedKeys rs))
      /\ StronglySorted indexBefore indices)
  /\ (Forall (fun r => Obj.isIndex (propertyKey r) = false) rs -> keys = filedKeys rs).
Proof.
  intros keys.
  assert (Hk : keys = List.map fst (Obj.sortByIndex
                        (filter (fun p => Obj.isIndex (fst p)) (dedup rs)))
                      ++ filter notIndex (filedKeys rs)).
  { unfold keys, getUniqueConsumers, resultsOnly. cbn [results].
    rewrite values_keys. unfold Obj.ownEntries. rewrite map_app.
    f_equal. rewrite <- dedup_keys. apply (map_fst_filter notIndex). }
  assert (Hp : Permutation
            (List.map fst (Obj.sortByIndex
                        (filter (fun p => Obj.isIndex (fst p)) (dedup rs))))
            (filter Obj.isIndex (filedKeys rs))).
  { rewrite <- dedup_keys, <- (map_fst_filter Obj.isIndex).
    apply Permutation_map, sortByIndex_perm. }
  split.
  - eexists. split; [exact Hk|]. split; [exact Hp|].
    apply sorted_distinct_indices.
    + apply StronglySorted_map.
      apply (sortByIndex_sorted (filter (fun p => Obj.isIndex (fst p)) (dedup rs))).
    + eapply Permutation_Forall; [apply Permutation_sym; exact Hp|].
      apply Forall_kept.
    + eapply Permutation_NoDup; [apply Permutation_sym; exact Hp|].
      apply NoDup_filter, firstOccurrences_NoDup.
  - intros Hn. rewrite Hk.
    assert (Hall : Forall (fun k => notIndex k = true) (filedKeys rs)).
    { apply Forall_forall. intros k I. unfold filedKeys in I.
      apply firstOccurrences_In, filter_In in I. destruct I as [I _].
      apply in_map_iff in I. destruct I as [r [<- I]].
      rewrite Forall_forall in Hn. unfold notIndex. rewrite (Hn r I). reflexivity. }
    rewrite (filter_all _ _ Hall).
    assert (Hnone : filter Obj.isIndex (filedKeys rs) = []).
    { apply filter_none. eapply Forall_impl; [|exact Hall].
      intros k H. unfold notIndex in H. apply negb_true_iff in H. exact H. }
    rewrite Hnone in Hp. apply Permutation_sym, Permutation_nil in Hp.
    rewrite Hp. reflexivity.
Qed.

Lemma getUniqueConsumers_key_order_witness :
  Forall (fun r => Obj.isIndex (propertyKey r) = false) [recordB; recordA; recordB]
  /\ List.map propertyKey
       (getUniqueConsumers (Some (resultsOnly [recordB; recordA; recordB])))
     = filedKeys [recordB; recordA; recordB].
Proof.
  assert (H : Forall (fun r => Obj.isIndex (propertyKey r) = false)
                [recordB; recordA; recordB])
    by (repeat constructor).
  split; [exact H|].
  destruct (getUniqueConsumers_key_order [recordB; recordA; recordB]) as [_ K].
  exact (K H).
Defined.

(** Deduplicating twice changes nothing: [getUniqueConsumers] applied
    to its own output returns that output, in the same order. *)
Theorem getUniqueConsumers_idempotent (rs : list ConsumerRecord) :
  let out := getUniqueConsumers (Some (resultsOnly rs)) in
  getUniqueConsumers (Some (resultsOnly out)) = out.
Proof.
  intros out. unfold out, getUniqueConsumers, resultsOnly. cbn [results].
  unfold Obj.values at 2.
  assert (E : dedup (List.map snd (Obj.ownEntries (dedup rs)))
              = Obj.ownEntries (dedup rs)).
  { unfold dedup at 1. rewrite fold_dedupStep_distinct; [reflexivity| |].
    - cbn [Obj.empty app].
      eapply Permutation_NoDup; [|apply (dedup_NoDup rs)].
      apply Permutation_map, Permutation_sym, ownEntries_perm.
    - intros k r I. apply (dedup_entry rs).
      eapply Permutation_in; [apply ownEntries_perm|exact I]. }
  rewrite E. unfold Obj.values. rewrite ownEntries_fixed. reflexivity.
Qed.

(** Which record is returned for an id depends only on the records
    carrying that id: two inputs with the same records under the id of
    [r], in the same order, agree on whether [r] is returned. *)
Theorem getUniqueConsumers_local (rs rs' : list ConsumerRecord) (r : ConsumerRecord) :
  filter (hasKey (propertyKey r)) rs = filter (hasKey (propertyKey r)) rs' ->
  (In r (getUniqueConsumers (Some (resultsOnly rs)))
   <-> In r (getUniqueConsumers (Some (resultsOnly rs')))).
Proof.
  intros E. rewrite !getUniqueConsumers_In. unfold keptFor. rewrite E. tauto.
Qed.

Lemma getUniqueConsumers_local_witness :
  filter (hasKey (propertyKey recordB)) [recordA; recordB]
  = filter (hasKey (propertyKey recordB)) [recordB; recordC; recordD]
  /\ (In recordB (getUniqueConsumers (Some (resultsOnly [recordA; recordB])))
      <-> In recordB (getUniqueConsumers (Some (resultsOnly [recordB; recordC; recordD])))).
Proof.
  assert (E : filter (hasKey (propertyKey recordB)) [recordA; recordB]
              = filter (hasKey (propertyKey recordB)) [recordB; recordC; recordD])
    by reflexivity.
  split; [exact E|].
  exact (getUniqueConsumers_local [recordA; recordB] [recordB; recordC; recordD] recordB E).
Defined.

(* ================================================================== *)
(** ** The markers and the life of MapComponent *)
(* ================================================================== *)

(** A render pass creates exactly one marker for each record that
    passes both guards (coordinates that parse, class theft, critical or
    mild after lower-casing), in the order of the records: the popups,
    positions and colours of the markers are those of these records,
    every marker is put on the given surface, and there are never more
    markers than records. *)
Theorem renderPass_exactly_the_pinnable
    (surface : Surface) (consumers : list ConsumerRecord) :
  let markers := renderPass surface consumers in
  List.map popupContent markers = List.map popup (filter pinnable consumers)
  /\ List.map position markers = List.map parsedPosition (filter pinnable consumers)
  /\ List.map (fun m => fillColor (icon m)) markers
     = List.map colorOf (filter pinnable consumers)
  /\ Forall (fun m => map m = Some surface) markers
  /\ (List.length markers <= List.length consumers)%nat.
Proof.
  cbv zeta.
  induction consumers as [|item rest (IH1 & IH2 & IH3 & IH4 & IH5)];
    cbn [renderPass filter].
  - repeat split; constructor.
  - rewrite markerFor_pinnable. destruct (pinnable item).
    + cbn [List.map List.length popupContent position icon fillColor].
      rewrite IH1, IH2, IH3.
      repeat split; [constructor; [reflexivity|exact IH4]|].
      apply le_n_S. exact IH5.
    + repeat split; try assumption. apply le_S. exact IH5.
Qed.

(** Whatever happens to a mounted component (re-checks with or without
    the library, data changes, unmounting), it constructs at most one map
    surface, on its own host element; without a surface it holds no
    marker; every marker it holds has coordinates that are not NaN and is
    red or yellow, and is on that surface or detached.  No marker is
    lost on the map: a marker held at some moment is, at every later
    moment, still held or has been detached with [setMap(null)]; and
    right after an unmount no marker it holds is on a map. *)
Theorem lifecycle_consistent
    (element : nat) (google : option MapsLibrary) (data : option AnalysisResult)
    (before after : list Event) :
  let earlier := refs (run (mount element google data) before) in
  let later := refs (run (mount element google data) (before ++ after)) in
  consistent element later
  /\ (forall m, In m (markersRef earlier) ->
        In m (markersRef later) \/ In (setMapNull m) (detached later))
  /\ Forall (fun m => map m = None)
       (markersRef (refs (run (mount element google data) (before ++ [Unmount])))).
Proof.
  cbv zeta. split; [|split].
  - pattern (before ++ after). apply rev_ind.
    + apply mount_consistent.
    + intros e l IH. rewrite run_app. cbn [run fold_left].
      apply step_consistent. exact IH.
  - intros m I. rewrite run_app. apply run_keeps_or_detaches. exact I.
  - rewrite run_app. cbn [run fold_left step unmount refs detachRef cleanup markersRef].
    apply setMapNull_detached.
Qed.

(** The marker pinned when the library is found is detached by a data
    change without records. *)
Lemma lifecycle_consistent_witness :
  exists m,
    In m (markersRef (refs (run (mount 1 None (Some sampleData))
                              [Tick (Some workingLibrary)])))
    /\ (In m (markersRef (refs (run (mount 1 None (Some sampleData))
                                  ([Tick (Some workingLibrary)] ++ [DataChange None]))))
        \/ In (setMapNull m)
             (detached (refs (run (mount 1 None (Some sampleData))
                                ([Tick (Some workingLibrary)] ++ [DataChange None]))))).
Proof.
  destruct (lifecycle_consistent 1 None (Some sampleData)
              [Tick (Some workingLibrary)] [DataChange None]) as (_ & H & _).
  destruct (markersRef (refs (run (mount 1 None (Some sampleData))
                                [Tick (Some workingLibrary)])))
    as [|m l] eqn:E.
  - exfalso. vm_compute in E. discriminate E.
  - exists m. split; [left; reflexivity|]. apply H. left. reflexivity.
Defined.

(** The first check that finds the library ends the polling, whether
    the construction succeeds or throws, and once the polling has ended
    nothing that follows changes the surface, the error or the number of
    surfaces constructed: a failed initialization is never retried, a
    successful one never repeated. *)
Theorem initialization_is_final :
  (forall element lib data, timer (mount element (Some lib) data) = false)
  /\ (forall lib c, timer (tick (Some lib) c) = false)
  /\ (forall c events,
        timer c = false ->
        timer (run c events) = false /\ sameSurface c (run c events)).
Proof.
  split; [reflexivity|]. split.
  - intros lib c. unfold tick. destruct (timer c) eqn:E; [reflexivity|exact E].
  - intros c events Ht. apply run_settled. exact Ht.
Qed.

Lemma initialization_is_final_witness :
  timer (mount 1 (Some workingLibrary) None) = false
  /\ timer (run (mount 1 (Some workingLibrary) None) [Tick None; Unmount]) = false
  /\ sameSurface (mount 1 (Some workingLibrary) None)
       (run (mount 1 (Some workingLibrary) None) [Tick None; Unmount]).
Proof.
  destruct initialization_is_final as (_ & _ & H).
  split; [reflexivity|].
  exact (H (mount 1 (Some workingLibrary) None) [Tick None; Unmount] eq_refl).
Defined.

(** While the library is absent the component waits without bound:
    after any number of re-checks that do not find it, the component is
    exactly as it was after mounting, with a further re-check scheduled,
    no surface, no marker and no error. *)
Theorem polling_never_gives_up
    (element : nat) (data : option AnalysisResult) (n : nat) :
  let c := run (mount element None data) (repeat (Tick None) n) in
  c = mount element None data
  /\ timer c = true
  /\ googleMapRef (refs c) = None
  /\ markersRef (refs c) = []
  /\ error (refs c) = None.
Proof.
  cbv zeta.
  assert (E : run (mount element None data) (repeat (Tick None) n)
              = mount element None data).
  { induction n as [|n IH]; [reflexivity|].
    cbn [repeat run fold_left]. exact IH. }
  rewrite E. repeat split.
Qed.

(** A data change that arrives before the map is ready is lost: it
    changes nothing, and when the library is found later the markers are
    built from the data of the first render, not from the latest data. *)
Theorem early_data_change_is_lost
    (element : nat) (lib : MapsLibrary) (first latest : option AnalysisResult) :
  mapConstructorThrows lib element = false ->
  run (mount element None first) [DataChange latest] = mount element None first
  /\ markersRef (refs (run (mount element None first)
                         [DataChange latest; Tick (Some lib)]))
     = renderPass {| host := element; serial := 0 |} (getUniqueConsumers first).
Proof.
  intros Hok. split; [reflexivity|].
  unfold run, mount, checkForGoogleMaps, attach.
  cbn [fold_left step dataChange tick onDataChange refs timer mountData
       googleMapRef checkForGoogleMaps].
  unfold initializeMap. cbn [mapRef googleMapRef]. rewrite Hok.
  unfold updateMarkers. cbn [googleMapRef markersRef constructed]. reflexivity.
Qed.

Lemma early_data_change_is_lost_witness :
  mapConstructorThrows workingLibrary 1 = false
  /\ markersRef (refs (run (mount 1 None None)
                         [DataChange (Some sampleData); Tick (Some workingLibrary)]))
     = renderPass {| host := 1; serial := 0 |} (getUniqueConsumers None).
Proof.
  split; [reflexivity|].
  destruct (early_data_change_is_lost 1 workingLibrary None (Some sampleData) eq_refl)
    as [_ H].
  exact H.
Defined.

(** Unmounting detaches every marker the component holds: the markers
    it holds afterwards are the same markers, each taken off the map, and
    each of them is recorded as detached.  It does not cancel a scheduled
    re-check.  Whatever happens afterwards, no surface is constructed and
    the surface, the error and the count of constructions stay as they
    were. *)
Theorem unmount_detaches_and_blocks (c : Component) (events : list Event) :
  markersRef (refs (unmount c)) = List.map setMapNull (markersRef (refs c))
  /\ (forall m, In m (markersRef (refs c)) ->
        In (setMapNull m) (markersRef (refs (unmount c)))
        /\ In (setMapNull m) (detached (refs (unmount c)))
        /\ In (setMapNull m) (detached (refs (run (unmount c) events))))
  /\ Forall (fun m => map m = None) (markersRef (refs (unmount c)))
  /\ timer (unmount c) = timer c
  /\ sameSurface c (run (unmount c) events).
Proof.
  split; [reflexivity|]. split.
  { intros m I.
    assert (H : In (setMapNull m) (detached (refs (unmount c)))).
    { cbn [unmount refs detachRef cleanup detached].
      apply in_or_app. right. apply in_map. exact I. }
    split; [apply in_map; exact I|]. split; [exact H|].
    apply run_detached_grows. exact H. }
  split; [apply setMapNull_detached|]. split; [reflexivity|].
  assert (H : sameSurface (unmount c) (run (unmount c) events))
    by (apply run_unmounted; reflexivity).
  exact H.
Qed.

(** The marker pinned when the library is found is detached by the
    unmount. *)
Lemma unmount_detaches_and_blocks_witness :
  exists m,
    In m (markersRef (refs (run (mount 1 None (Some sampleData))
                              [Tick (Some workingLibrary)])))
    /\ In (setMapNull m)
         (detached (refs (unmount (run (mount 1 None (Some sampleData))
                                     [Tick (Some workingLibrary)])))).
Proof.
  destruct (unmount_detaches_and_blocks
              (run (mount 1 None (Some sampleData)) [Tick (Some workingLibrary)]) [])
    as (_ & H & _).
  destruct (markersRef (refs (run (mount 1 None (Some sampleData))
                                [Tick (Some workingLibrary)])))
    as [|m l] eqn:E.
  - exfalso. vm_compute in E. discriminate E.
  - exists m. split; [left; reflexivity|].
    destruct (H m (or_introl eq_refl)) as (_ & K & _). exact K.
Defined.

(** Each marker update is a full rebuild: the markers held after two
    updates in a row are those of the second data alone, and every marker
    of the first update has been detached. *)
Theorem updateMarkers_rebuilds (first second : option AnalysisResult) (st : State) :
  markersRef (updateMarkers second (updateMarkers first st))
  = markersRef (updateMarkers second st)
  /\ (googleMapRef st <> None ->
      forall m, In m (markersRef (updateMarkers first st)) ->
        In (setMapNull m) (detached (updateMarkers second (updateMarkers first st)))).
Proof.
  unfold updateMarkers. destruct (googleMapRef st) as [surface|] eqn:E.
  - cbn [googleMapRef markersRef detached]. split; [reflexivity|].
    intros _ m I. apply in_or_app. right. apply in_map. exact I.
  - rewrite E. split; [reflexivity|]. intros H. contradiction.
Qed.

Lemma updateMarkers_rebuilds_witness :
  googleMapRef (initializeMap workingLibrary None mounted) <> None
  /\ forall m,
       In m (markersRef (updateMarkers (Some sampleData)
                           (initializeMap workingLibrary None mounted))) ->
       In (setMapNull m)
          (detached (updateMarkers None
                       (updateMarkers (Some sampleData)
                          (initializeMap workingLibrary None mounted)))).
Proof.
  assert (H : googleMapRef (initializeMap workingLibrary None mounted) <> None)
    by discriminate.
  split; [exact H|].
  destruct (updateMarkers_rebuilds (Some sampleData) None
              (initializeMap workingLibrary None mounted)) as [_ K].
  exact (K H).
Defined.

(** When constructing the surface throws, the component records the
    initialization error and stays without map for good, whether the
    library is found at mount or at a later re-check, after any wait:
    whatever follows, the error message is the same, there is no surface
    and no marker, and no construction is counted. *)
Theorem failed_initialization_is_permanent
    (element : nat) (lib : MapsLibrary) (data : option AnalysisResult)
    (waiting events : list Event) :
  mapConstructorThrows lib element = true ->
  Forall stillWaiting waiting ->
  (let st := refs (run (mount element (Some lib) data) events) in
   error st = Some "Google Maps API loaded but initialization failed."
   /\ googleMapRef st = None
   /\ markersRef st = []
   /\ constructed st = 0%nat)
  /\ (let st := refs (run (mount element None data)
                        (waiting ++ Tick (Some lib) :: events)) in
      error st = Some "Google Maps API loaded but initialization failed."
      /\ googleMapRef st = None
      /\ markersRef st = []
      /\ constructed st = 0%nat).
Proof.
  intros Hthrow Hwait. cbv zeta.
  assert (Hi : initializeMap lib data (attach element)
               = {| mapRef := Some element; googleMapRef := None; markersRef := [];
                    error := Some "Google Maps API loaded but initialization failed.";
                    constructed := 0; detached := [] |}).
  { unfold attach, initializeMap. cbn [mapRef googleMapRef]. rewrite Hthrow. reflexivity. }
  assert (Hk : consistent element (initializeMap lib data (attach element)))
    by apply initializeMap_consistent, attach_consistent.
  split.
  - apply (settled_failure element); [reflexivity| | |].
    + apply mount_consistent.
    + unfold mount, checkForGoogleMaps. cbn [refs]. rewrite Hi. reflexivity.
    + unfold mount, checkForGoogleMaps. cbn [refs]. rewrite Hi. reflexivity.
  - unfold run. rewrite fold_left_app. fold (run (mount element None data) waiting).
    rewrite (run_stillWaiting element data waiting Hwait).
    cbn [fold_left step]. 
    fold (run (tick (Some lib) (mount element None data)) events).
    assert (Hr : refs (tick (Some lib) (mount element None data))
                 = initializeMap lib data (attach element)) by reflexivity.
    apply (settled_failure element); [reflexivity| | |]; rewrite Hr.
    + exact Hk.
    + rewrite Hi. reflexivity.
    + rewrite Hi. reflexivity.
Qed.

(** A library whose constructor throws, found at mount or at the third
    check. *)
Lemma failed_initialization_is_permanent_witness :
  mapConstructorThrows {| mapConstructorThrows := fun _ => true |} 1 = true
  /\ Forall stillWaiting [Tick None; DataChange None; Tick None]
  /\ error (refs (run (mount 1 (Some {| mapConstructorThrows := fun _ => true |})
                         (Some sampleData))
                    [DataChange None; Tick (Some workingLibrary)]))
     = Some "Google Maps API loaded but initialization failed."
  /\ error (refs (run (mount 1 None (Some sampleData))
                    ([Tick None; DataChange None; Tick None]
                     ++ Tick (Some {| mapConstructorThrows := fun _ => true |})
                        :: [DataChange None; Tick (Some workingLibrary)])))
     = Some "Google Maps API loaded but initialization failed.".
Proof.
  assert (W : Forall stillWaiting [Tick None; DataChange None; Tick None])
    by (repeat constructor).
  split; [reflexivity|]. split; [exact W|].
  destruct (failed_initialization_is_permanent 1
              {| mapConstructorThrows := fun _ => true |} (Some sampleData)
              [Tick None; DataChange None; Tick None]
              [DataChange None; Tick (Some workingLibrary)] eq_refl W)
    as [[K _] [K' _]].
  split; [exact K|exact K'].
Defined.

(** On a ready map, a marker update leaves at most one marker for each
    consumer id: the markers are those of a list of records of [results]
    with pairwise distinct ids, each passing both guards. *)
Theorem one_marker_per_consumer
    (data : option AnalysisResult) (st : State) (surface : Surface) :
  googleMapRef st = Some surface ->
  exists pinned,
    List.map popupContent (markersRef (updateMarkers data st)) = List.map popup pinned
    /\ List.length (markersRef (updateMarkers data st)) = List.length pinned
    /\ NoDup (List.map propertyKey pinned)
    /\ Forall (fun r => In r (resultsOf data) /\ pinnable r = true) pinned.
Proof.
  intros E. exists (filter pinnable (getUniqueConsumers data)).
  unfold updateMarkers. rewrite E. cbn [markersRef].
  assert (P : List.map popupContent (renderPass surface (getUniqueConsumers data))
              = List.map popup (filter pinnable (getUniqueConsumers data))).
  { induction (getUniqueConsumers data) as [|item rest IH];
      cbn [renderPass filter]; [reflexivity|].
    rewrite markerFor_pinnable. destruct (pinnable item); [|exact IH].
    cbn [List.map popupContent]. rewrite IH. reflexivity. }
  split; [exact P|]. split.
  { rewrite <- (length_map popupContent), P. apply length_map. }
  rewrite getUniqueConsumers_resultsOf. split.
  - apply NoDup_map_filter, getUniqueConsumers_keys_NoDup.
  - apply Forall_forall. intros r I. apply filter_In in I. destruct I as [I Hp].
    split; [|exact Hp].
    apply getUniqueConsumers_In, keptFor_origin in I. tauto.
Qed.

Lemma one_marker_per_consumer_witness :
  googleMapRef (initializeMap workingLibrary None mounted) = Some surface0
  /\ exists pinned,
       List.map popupContent
         (markersRef (updateMarkers (Some sampleData)
                        (initializeMap workingLibrary None mounted)))
       = List.map popup pinned
       /\ NoDup (List.map propertyKey pinned).
Proof.
  assert (H : googleMapRef (initializeMap workingLibrary None mounted) = Some surface0)
    by reflexivity.
  split; [exact H|].
  destruct (one_marker_per_consumer (Some sampleData)
              (initializeMap workingLibrary None mounted) surface0 H)
    as [pinned (A & _ & B & _)].
  exists pinned. split; [exact A|exact B].
Defined.

(* ================================================================== *)
(** ** ResultsDisplay and App *)
(* ================================================================== *)

(** Sorting by risk is idempotent: a list already in descending
    order of score is returned unchanged, so sorting a sorted list again
    changes nothing. *)
Theorem sortDescendingByRisk_fixed_on_sorted :
  (forall records,
      StronglySorted (descending sord) records ->
      sortDescendingByRisk records = records)
  /\ (forall records,
        sortDescendingByRisk (sortDescendingByRisk records)
        = sortDescendingByRisk records).
Proof.
  assert (H : forall records,
             StronglySorted (descending sord) records ->
             sortDescendingByRisk records = records).
  { intros records Hs. unfold sortDescendingByRisk.
    apply (sort_fixed byRiskDescending sord byRiskDescending_key). exact Hs. }
  split; [exact H|].
  intros records. apply H. unfold sortDescendingByRisk.
  apply sort_sorted, byRiskDescending_key.
Qed.

Lemma sortDescendingByRisk_fixed_on_sorted_witness :
  StronglySorted (descending sord) [recordB; recordC; recordD; recordA]
  /\ sortDescendingByRisk [recordB; recordC; recordD; recordA]
     = [recordB; recordC; recordD; recordA].
Proof.
  assert (H : StronglySorted (descending sord) [recordB; recordC; recordD; recordA]).
  { repeat constructor; unfold descending; vm_compute; discriminate. }
  split; [exact H|].
  destruct sortDescendingByRisk_fixed_on_sorted as [K _].
  exact (K [recordB; recordC; recordD; recordA] H).
Defined.

(** Filtering and sorting by risk commute: the rows of the normal
    table, which filters first and sorts after, are the normal records of
    the whole list sorted by risk, in that order. *)
Theorem filter_sortDescendingByRisk_commute :
  (forall (keep : ConsumerRecord -> bool) records,
      filter keep (sortDescendingByRisk records)
      = sortDescendingByRisk (filter keep records))
  /\ (forall d,
        sortedNormalItems d
        = filter isNormal (sortDescendingByRisk (orNil (results d)))).
Proof.
  assert (H : forall (keep : ConsumerRecord -> bool) records,
             filter keep (sortDescendingByRisk records)
             = sortDescendingByRisk (filter keep records)).
  { intros keep records. unfold sortDescendingByRisk.
    apply (sort_select byRiskDescending sord byRiskDescending_key). }
  split; [exact H|].
  intros d. unfold sortedNormalItems. rewrite normalItems_eq, H. reflexivity.
Qed.

(** The normal table, when shown, has one row for each record of
    [results] whose class is exactly 'normal', duplicates of a consumer
    included, and each of its rows carries the class 'normal' in its row
    class, its badge class and its badge. *)
Theorem normal_table_rows (d : AnalysisResult) (showAll : bool) (rows : list Row) :
  normalTableOf (ResultsDisplay (Some d) showAll) = Some rows ->
  List.length rows = List.length (filter isNormal (orNil (results d)))
  /\ Forall normalRow rows.
Proof.
  unfold ResultsDisplay. destruct (summary d) as [s|]; [|discriminate].
  cbn [normalTableOf normalTable]. intros E.
  apply tableWhen_Some in E. destruct E as (_ & _ & ->).
  assert (P : Permutation (sortedNormalItems d) (filter isNormal (orNil (results d)))).
  { unfold sortedNormalItems. rewrite normalItems_eq. apply sortDescendingByRisk_perm. }
  split.
  - rewrite length_map. apply Permutation_length. exact P.
  - apply Forall_map. apply Forall_forall. intros item I.
    apply (Permutation_in _ P) in I. apply filter_In in I. destruct I as [_ Hn].
    apply isNormal_spec in Hn. unfold normalRow, renderRow.
    cbn [rowClassName badgeClassName badgeCell]. rewrite Hn. repeat split.
Qed.

Lemma normal_table_rows_witness :
  exists rows,
    normalTableOf (ResultsDisplay (Some sampleData) true) = Some rows
    /\ List.length rows = List.length (filter isNormal (orNil (results sampleData)))
    /\ Forall normalRow rows.
Proof.
  destruct (normalTableOf (ResultsDisplay (Some sampleData) true)) as [rows|] eqn:E.
  - exists rows. split; [reflexivity|].
    exact (normal_table_rows sampleData true rows E).
  - exfalso. vm_compute in E. discriminate E.
Defined.

(** A record whose score is absent, zero or NaN is shown with 0%,
    in the table rows and in the popup alike. *)
Theorem falsy_score_shows_zero (item : ConsumerRecord) :
  falsyScore item ->
  percent item = "0" /\ scoreCell (renderRow item) = "0%".
Proof.
  unfold falsyScore. intros H.
  assert (E : orZero (aggregate_risk_score item) = Num.zero).
  { unfold orZero. destruct (aggregate_risk_score item) as [x|]; [|reflexivity].
    rewrite H. reflexivity. }
  assert (P : percent item = "0").
  { unfold percent, product. rewrite E. vm_compute. reflexivity. }
  split; [exact P|]. cbn [renderRow scoreCell]. rewrite P. reflexivity.
Qed.

Lemma falsy_score_shows_zero_witness :
  falsyScore (scored (Some "A") None)
  /\ percent (scored (Some "A") None) = "0"
  /\ scoreCell (renderRow (scored (Some "A") None)) = "0%".
Proof.
  assert (H : falsyScore (scored (Some "A") None)) by exact I.
  split; [exact H|]. exact (falsy_score_shows_zero (scored (Some "A") None) H).
Defined.

(** However the user uploads and clicks and whenever answers
    arrive, at most one request is in flight, and [loading] (the disabled
    button) is on exactly while one is. *)
Theorem at_most_one_request_in_flight (events : list App.Event) :
  oneInFlight (App.run App.start events).
Proof.
  pattern events. apply rev_ind.
  - unfold oneInFlight. cbn. split; [apply Nat.le_0_1|]. split; discriminate.
  - intros e l IH. unfold App.run. rewrite fold_left_app. cbn [fold_left].
    apply step_oneInFlight. exact IH.
Qed.

(** A call of [handleFetch] always ends with [loading] off.  It
    leaves a result only when a source file was uploaded and the answer
    was a parsed body, and it is only then that it shows no alert; thus a
    result shown before the call never survives a failed one. *)
Theorem handleFetch_outcome (outcome : App.Outcome) (st : App.State) :
  let st' := App.handleFetch outcome st in
  App.loading st' = false
  /\ (forall r, App.result st' = Some r ->
        exists file body,
          App.read (App.files st) "source" = Some file
          /\ outcome = App.Parsed body /\ App.resultOf body = Some r)
  /\ (App.alerts st' = App.alerts st ->
        exists file body,
          App.read (App.files st) "source" = Some file
          /\ outcome = App.Parsed body)
  /\ (App.read (App.files st) "source" = None -> App.requests st' = App.requests st).
Proof.
  cbv zeta. unfold App.handleFetch, App.handleFetch_start.
  destruct (App.read (App.files st) "source") as [file|].
  - split; [apply finish_not_loading|].
    destruct outcome as [message|errorText|body];
      cbn [App.handleFetch_finish App.result App.alerts App.requests].
    + split; [discriminate|]. split; [|discriminate].
      intros E. exfalso. exact (app_one_neq _ _ E).
    + split; [discriminate|]. split; [|discriminate].
      intros E. exfalso. exact (app_one_neq _ _ E).
    + split; [intros r E; exists file, body; auto|].
      split; [intros _; exists file, body; auto|discriminate].
  - cbn [App.loading App.result App.alerts App.requests].
    split; [reflexivity|]. split; [discriminate|]. split; [|reflexivity].
    intros E. exfalso. exact (app_one_neq _ _ E).
Qed.

Lemma handleFetch_outcome_witness :
  App.read (App.files App.initial) "source" = None
  /\ App.requests (App.handleFetch (App.NotOk "busy") App.initial)
     = App.requests App.initial.
Proof.
  assert (H : App.read (App.files App.initial) "source" = None) by reflexivity.
  split; [exact H|].
  destruct (handleFetch_outcome (App.NotOk "busy") App.initial) as (_ & _ & _ & K).
  exact (K H).
Defined.

(** The file posted is the one most recently uploaded under
    'source': after such an upload a fetch posts that file, and an upload
    under any other id does not change what a fetch posts. *)
Theorem fetch_posts_latest_source
    (st : App.State) (id : string) (file : option App.File) :
  snd (App.handleFetch_start (App.handleFileUpload "source" file st)) = file
  /\ (id <> "source" ->
      snd (App.handleFetch_start (App.handleFileUpload id file st))
      = snd (App.handleFetch_start st)).
Proof.
  unfold App.handleFetch_start, App.handleFileUpload. cbn [App.files].
  rewrite !read_assign. split.
  - rewrite String.eqb_refl. destruct file; reflexivity.
  - intros N. destruct (String.eqb_spec id "source") as [E|_]; [contradiction|].
    destruct (App.read (App.files st) "source"); reflexivity.
Qed.

Lemma fetch_posts_latest_source_witness :
  "extra" <> "source"
  /\ snd (App.handleFetch_start
            (App.handleFileUpload "extra" (Some (App.FileHandle 2)) App.initial))
     = snd (App.handleFetch_start App.initial).
Proof.
  assert (N : "extra" <> "source") by discriminate.
  split; [exact N|].
  destruct (fetch_posts_latest_source App.initial "extra" (Some (App.FileHandle 2)))
    as [_ K].
  exact (K N).
Defined.

(** A parsed object that is not the success envelope is handed to
    [ResultsDisplay] as it is: when it has no [summary] property (an
    error object sent with status 200, say) rendering throws; and a
    success envelope without [data] renders nothing. *)
Theorem unenveloped_answer_breaks_rendering
    (st : App.State) (status : option string) (data : option AnalysisResult)
    (own : AnalysisResult) (showAll : bool) :
  App.read (App.files st) "source" <> None ->
  (status <> Some "success" -> summary own = None ->
   ResultsDisplay (App.result (App.handleFetch (App.Parsed (App.JObject status data own)) st))
     showAll = RenderedThrow)
  /\ (status = Some "success" -> data = None ->
      ResultsDisplay (App.result (App.handleFetch (App.Parsed (App.JObject status data own)) st))
        showAll = RenderedNull).
Proof.
  intros Hf. unfold App.handleFetch, App.handleFetch_start.
  destruct (App.read (App.files st) "source") as [file|]; [|contradiction].
  cbn [App.handleFetch_finish App.result App.resultOf]. split.
  - intros Hs Hsum.
    assert (E : match status with
                | Some s => if String.eqb s "success" then data else Some own
                | None => Some own
                end = Some own).
    { destruct status as [s|]; [|reflexivity].
      destruct (String.eqb_spec s "success") as [->|_]; [contradiction|reflexivity]. }
    rewrite E. unfold ResultsDisplay. rewrite Hsum. reflexivity.
  - intros -> ->. reflexivity.
Qed.

Lemma unenveloped_answer_breaks_rendering_witness :
  App.read (App.files (App.handleFileUpload "source" (Some (App.FileHandle 1)) App.initial))
    "source" <> None
  /\ (Some "error" <> Some "success" ->
      summary (resultsOnly []) = None ->
      ResultsDisplay
        (App.result
           (App.handleFetch (App.Parsed (App.JObject (Some "error") None (resultsOnly [])))
              (App.handleFileUpload "source" (Some (App.FileHandle 1)) App.initial)))
        false = RenderedThrow).
Proof.
  assert (H : App.read (App.files (App.handleFileUpload "source"
                          (Some (App.FileHandle 1)) App.initial)) "source" <> None)
    by discriminate.
  split; [exact H|].
  destruct (unenveloped_answer_breaks_rendering
              (App.handleFileUpload "source" (Some (App.FileHandle 1)) App.initial)
              (Some "error") None (resultsOnly []) false H) as [K _].
  exact K.
Defined.


